(** * Trading core of the stock-prediction platform: signals, sizing,
      stop-loss validation, risk metrics and the backtesting engine.

    Shallow embedding of
      - src/trading_signals/position_sizer.py
      - src/trading_signals/stop_loss_calculator.py
      - src/trading_signals/signal_generator.py
      - src/trading_signals/risk_analyzer.py
      - src/portfolio/backtesting_engine.py

    Numbers.  Python's floats are modelled in two ways.  The functions
    whose answer turns on how a single float operation rounds (the share
    count of calculate_position_size where the cap binds, the thresholds
    of validate_position_size and validate_stop_loss) are embedded over
    binary64 itself, Rocq's primitive floats: the modules [Binary64],
    [PositionSizerBinary64] and [StopLossCalculator].  Everywhere else
    Python and numpy floats are modelled as exact rationals [Q], extended
    where the code can meet them by the IEEE specials (+inf, -inf, NaN) in
    the type [xnum], and the builtin [round(x, n)] is taken on the exact
    value, ties to the even digit.  What is stated on the exact model is
    of the kind that rounding keeps: the shape of a result, the code's
    own assignments, orderings and monotonicity, and bounds given by
    another call of the code rather than by a decimal value.  Equality of
    rationals is [Qeq] (written [==]).  numpy's square root is a
    parameter [sqrt] of the definitions that use it.

    Exceptions.  A function that can raise returns a [result]; the
    exceptions are those of pandas indexing (KeyError, IndexError), of
    [int()] on a non-finite float (OverflowError, ValueError) and of a
    span below 1 in [ewm] (ValueError).  The sizing and stop rules work
    on plain Python numbers, where the only exception is the
    ZeroDivisionError of [/] and [//]; they return a [py].

    Frames.  The signal generator and the risk analyzer read a
    [DataFrame]: named columns of [xnum] cells.  The backtesting engine
    reads only the Close column, modelled as a list of finite prices; a
    row is identified by its position, which stands for its index label.

    Strings that are formatted from numbers (reasons, validation messages)
    are modelled by constructors carrying the number. *)

From Stdlib Require Import ZArith QArith Qround Qabs List Lia Lqa Floats.
From stdpp Require Import gmap strings.
Import ListNotations.

(* ===================================================================== *)
(** * Part I: the embedding                                               *)
(* ===================================================================== *)

(** ** Python exceptions *)

Module Py.

Inductive exn : Set :=
| KeyError | IndexError | ValueError | OverflowError.

Inductive result (A : Type) : Type :=
| Ok (a : A)
| Raise (e : exn).
Arguments Ok {A} a.
Arguments Raise {A} e.

Definition bind {A B : Type} (c : result A) (k : A -> result B) : result B :=
  match c with
  | Ok a => k a
  | Raise e => Raise e
  end.

End Py.
Export Py.

Declare Scope py_scope.
Delimit Scope py_scope with py.
Notation "'let!' x ':=' c 'in' k" := (bind c (fun x => k))
  (at level 10, x name, c at level 100, k at level 200) : py_scope.

(** ** Numbers *)

Module Num.
Local Open Scope Q_scope.

(** Boolean comparisons of rationals. *)
Definition Qltb (a b : Q) : bool := (Qnum a * QDen b <? Qnum b * QDen a)%Z.
Definition Qleb (a b : Q) : bool := (Qnum a * QDen b <=? Qnum b * QDen a)%Z.
Definition Qeqb (a b : Q) : bool := (Qnum a * QDen b =? Qnum b * QDen a)%Z.

(** [int(x)] on a finite float: truncation toward zero. *)
Definition py_int (q : Q) : Z := Z.quot (Qnum q) (Zpos (Qden q)).

(** A float: a finite value or one of the IEEE specials. *)
Inductive xnum : Set :=
| Fin (q : Q)
| PInf
| NInf
| NaN.

Definition xneg (a : xnum) : xnum :=
  match a with
  | Fin q => Fin (- q)
  | PInf => NInf
  | NInf => PInf
  | NaN => NaN
  end.

Definition xadd (a b : xnum) : xnum :=
  match a, b with
  | Fin x, Fin y => Fin (x + y)
  | NaN, _ | _, NaN => NaN
  | PInf, NInf | NInf, PInf => NaN
  | PInf, _ | _, PInf => PInf
  | NInf, _ | _, NInf => NInf
  end.

Definition xsub (a b : xnum) : xnum := xadd a (xneg b).

(** Sign of an infinity times a finite factor (0 gives NaN). *)
Definition inf_times (pos : bool) (q : Q) : xnum :=
  if Qeqb q 0 then NaN
  else if Bool.eqb pos (Qltb 0 q) then PInf else NInf.

Definition xmul (a b : xnum) : xnum :=
  match a, b with
  | Fin x, Fin y => Fin (x * y)
  | NaN, _ | _, NaN => NaN
  | PInf, Fin y => inf_times true y
  | NInf, Fin y => inf_times false y
  | Fin x, PInf => inf_times true x
  | Fin x, NInf => inf_times false x
  | PInf, PInf | NInf, NInf => PInf
  | PInf, NInf | NInf, PInf => NInf
  end.

(** numpy division: a zero divisor yields an infinity or NaN, never an
    exception. *)
Definition xdiv (a b : xnum) : xnum :=
  match a, b with
  | Fin x, Fin y =>
      if Qeqb y 0 then
        (if Qeqb x 0 then NaN else if Qltb 0 x then PInf else NInf)
      else Fin (x / y)
  | NaN, _ | _, NaN => NaN
  | Fin _, PInf | Fin _, NInf => Fin 0
  | PInf, Fin y => if Qltb y 0 then NInf else PInf
  | NInf, Fin y => if Qltb y 0 then PInf else NInf
  | PInf, PInf | PInf, NInf | NInf, PInf | NInf, NInf => NaN
  end.

Definition xabs (a : xnum) : xnum :=
  match a with
  | Fin q => Fin (Qabs q)
  | PInf | NInf => PInf
  | NaN => NaN
  end.

(** Comparisons: anything compared with NaN is False, except [!=]. *)
Definition xlt (a b : xnum) : bool :=
  match a, b with
  | Fin x, Fin y => Qltb x y
  | NaN, _ | _, NaN => false
  | NInf, NInf | PInf, _ => false
  | NInf, _ => true
  | Fin _, PInf => true
  | Fin _, NInf => false
  end.

Definition xgt (a b : xnum) : bool := xlt b a.

Definition xle (a b : xnum) : bool :=
  match a, b with
  | Fin x, Fin y => Qleb x y
  | NaN, _ | _, NaN => false
  | NInf, _ => true
  | _, PInf => true
  | PInf, _ => false
  | Fin _, NInf => false
  end.

Definition xge (a b : xnum) : bool := xle b a.

Definition xeqb (a b : xnum) : bool :=
  match a, b with
  | Fin x, Fin y => Qeqb x y
  | PInf, PInf | NInf, NInf => true
  | _, _ => false
  end.

Definition xneb (a b : xnum) : bool := negb (xeqb a b).

Definition is_finite (a : xnum) : bool :=
  match a with Fin _ => true | _ => false end.

Definition is_inf (a : xnum) : bool :=
  match a with PInf | NInf => true | _ => false end.

(** [int(x)] on a float: infinities and NaN raise. *)
Definition xint (a : xnum) : result Z :=
  match a with
  | Fin q => Ok (py_int q)
  | PInf | NInf => Raise OverflowError
  | NaN => Raise ValueError
  end.

End Num.
Export Num.

Declare Scope xnum_scope.
Delimit Scope xnum_scope with X.
Bind Scope xnum_scope with xnum.
Infix "+" := xadd : xnum_scope.
Infix "-" := xsub : xnum_scope.
Infix "*" := xmul : xnum_scope.
Infix "/" := xdiv : xnum_scope.
Infix "<?" := xlt : xnum_scope.
Infix ">?" := xgt : xnum_scope.
Infix "<=?" := xle : xnum_scope.
Infix ">=?" := xge : xnum_scope.

(** ** src/trading_signals/position_sizer.py

    The sizer on exact rationals.  What is stated on it is stated relative
    to the share count it returns; the share count itself, where the cap
    binds, is the subject of [PositionSizerBinary64] below. *)

Module PositionSizer.
Local Open Scope Q_scope.

(** app/config.py: MAX_POSITION_SIZE_PCT = 20.0 *)
Definition MAX_POSITION_SIZE_PCT : Q := 20.

Definition calculate_position_size
    (portfolio_value entry_price stop_loss_price risk_per_trade_pct : Q) : Z :=
  if Qleb portfolio_value 0 || Qleb entry_price 0 then 0%Z
  else
    let risk_amount := portfolio_value * (risk_per_trade_pct / 100) in
    let risk_per_share := Qabs (entry_price - stop_loss_price) in
    if Qeqb risk_per_share 0 then 0%Z
    else
      let shares := risk_amount / risk_per_share in
      let position_value := shares * entry_price in
      let max_position_value := portfolio_value * (MAX_POSITION_SIZE_PCT / 100) in
      let shares :=
        if Qltb max_position_value position_value
        then max_position_value / entry_price
        else shares in
      py_int shares.

End PositionSizer.

(** ** Data frames *)

Module Frame.

(** A pandas DataFrame: [nrows] rows and named columns of numbers.  In a
    well-formed frame every column has [nrows] cells. *)
Record DataFrame : Type := {
  nrows : nat;
  columns : gmap string (list xnum)
}.

Definition wf_frame (df : DataFrame) : Prop :=
  forall (c : string) (xs : list xnum),
    columns df !! c = Some xs -> length xs = nrows df.

(** ['c' in df.columns] *)
Definition has_column (df : DataFrame) (c : string) : bool :=
  match columns df !! c with Some _ => true | None => false end.

(** [df['c']]: KeyError when the column is absent. *)
Definition column (df : DataFrame) (c : string) : result (list xnum) :=
  match columns df !! c with
  | Some xs => Ok xs
  | None => Raise KeyError
  end.

(** [s.iloc[-k]] for k >= 1: IndexError when the series has fewer than
    k cells. *)
Definition iloc_neg {A : Type} (k : nat) (s : list A) : result A :=
  match s !! (length s - k)%nat with
  | Some x => if (k <=? length s)%nat then Ok x else Raise IndexError
  | None => Raise IndexError
  end.

(** [s.iloc[i]] for i >= 0. *)
Definition iloc {A : Type} (i : nat) (s : list A) : result A :=
  match s !! i with
  | Some x => Ok x
  | None => Raise IndexError
  end.

(** [s.pct_change(n)]: NaN on the first n rows, then x[k]/x[k-n] - 1. *)
Definition pct_change (n : nat) (s : list xnum) : list xnum :=
  map (fun k =>
         if (k <? n)%nat then NaN
         else match s !! k, s !! (k - n)%nat with
              | Some x, Some y => (x / y - Fin 1)%X
              | _, _ => NaN
              end)
      (seq 0 (length s)).

End Frame.
Export Frame.

(** ** src/trading_signals/signal_generator.py *)

Inductive action : Set := BUY | SELL | HOLD.

Definition action_eqb (a b : action) : bool :=
  match a, b with
  | BUY, BUY | SELL, SELL | HOLD, HOLD => true
  | _, _ => false
  end.

Module SignalGenerator.
Local Open Scope string_scope.
Local Open Scope py_scope.

(** app/config.py *)
Definition RSI_OVERSOLD : Q := 30.
Definition RSI_OVERBOUGHT : Q := 70.
Definition MACD_SIGNAL_THRESHOLD : Q := 5 # 10.

(** The reason texts; a formatted text carries the number it prints. *)
Inductive reason : Set :=
| NoClearSignal          (* "No clear signal from technical indicators" *)
| MixedSignals           (* "Mixed signals from indicators" *)
| RsiOversold (rsi : xnum)
| RsiOverbought (rsi : xnum)
| RsiNeutral (rsi : xnum)
| MacdBullishCrossover
| MacdBearishCrossover
| MacdAboveSignal
| MacdBelowSignal
| MacdNeutral
| GoldenCross
| DeathCross
| PriceAboveAverages
| PriceBelowAverages
| NoClearTrend
| BelowLowerBand
| AboveUpperBand
| WithinBands
| MomentumUp (returns : xnum)
| MomentumDown (returns : xnum)
| WeakMomentum.

Record Signal : Set := {
  signal : action;
  strength : Z;
  confidence : Z;
  reasons : list reason
}.

Definition hold_signal (rs : list reason) : Signal :=
  {| signal := HOLD; strength := 5; confidence := 50; reasons := rs |}.

Definition _generate_rsi_signal (df : DataFrame) (sensitivity : string)
  : result Signal :=
  if negb (has_column df "RSI") then Ok (hold_signal [])
  else
    let! s := column df "RSI" in
    let! rsi := iloc_neg 1 s in
    let '(oversold, overbought) :=
      if String.eqb sensitivity "Conservative" then (25%Q, 75%Q)
      else if String.eqb sensitivity "Aggressive" then (35%Q, 65%Q)
      else (RSI_OVERSOLD, RSI_OVERBOUGHT) in
    if (rsi <? Fin oversold)%X then
      let! i := xint ((Fin oversold - rsi) / Fin 3)%X in
      let strength := Z.min 10 i in
      let! j := xint (Fin 70 + (Fin oversold - rsi))%X in
      let confidence := Z.min 95 j in
      Ok {| signal := BUY; strength := strength; confidence := confidence;
            reasons := [RsiOversold rsi] |}
    else if (rsi >? Fin overbought)%X then
      let! i := xint ((rsi - Fin overbought) / Fin 3)%X in
      let strength := Z.min 10 i in
      let! j := xint (Fin 70 + (rsi - Fin overbought))%X in
      let confidence := Z.min 95 j in
      Ok {| signal := SELL; strength := strength; confidence := confidence;
            reasons := [RsiOverbought rsi] |}
    else Ok (hold_signal [RsiNeutral rsi]).

Definition _generate_macd_signal (df : DataFrame) (sensitivity : string)
  : result Signal :=
  if negb (has_column df "MACD") || negb (has_column df "MACD_Signal")
  then Ok (hold_signal [])
  else
    let! m := column df "MACD" in
    let! macd := iloc_neg 1 m in
    let! ms := column df "MACD_Signal" in
    let! macd_signal := iloc_neg 1 ms in
    let! macd_prev := iloc_neg 2 m in
    let! signal_prev := iloc_neg 2 ms in
    let diff := (macd - macd_signal)%X in
    let prev_diff := (macd_prev - signal_prev)%X in
    if (prev_diff <? Fin 0)%X && (diff >? Fin 0)%X then
      let! i := xint (xabs diff * Fin 10)%X in
      let strength := Z.min 10 i in
      let! j := xint (Fin 65 + xabs diff * Fin 20)%X in
      let confidence := Z.min 90 j in
      Ok {| signal := BUY; strength := strength; confidence := confidence;
            reasons := [MacdBullishCrossover] |}
    else if (prev_diff >? Fin 0)%X && (diff <? Fin 0)%X then
      let! i := xint (xabs diff * Fin 10)%X in
      let strength := Z.min 10 i in
      let! j := xint (Fin 65 + xabs diff * Fin 20)%X in
      let confidence := Z.min 90 j in
      Ok {| signal := SELL; strength := strength; confidence := confidence;
            reasons := [MacdBearishCrossover] |}
    else if (diff >? Fin MACD_SIGNAL_THRESHOLD)%X then
      Ok {| signal := BUY; strength := 6; confidence := 60;
            reasons := [MacdAboveSignal] |}
    else if (diff <? Fin (- MACD_SIGNAL_THRESHOLD))%X then
      Ok {| signal := SELL; strength := 6; confidence := 60;
            reasons := [MacdBelowSignal] |}
    else Ok (hold_signal [MacdNeutral]).

Definition _generate_ma_signal (df : DataFrame) (sensitivity : string)
  : result Signal :=
  if negb (has_column df "SMA_20") || negb (has_column df "SMA_50")
  then Ok (hold_signal [])
  else
    let! s20 := column df "SMA_20" in
    let! sma_20 := iloc_neg 1 s20 in
    let! s50 := column df "SMA_50" in
    let! sma_50 := iloc_neg 1 s50 in
    let! sma_20_prev := iloc_neg 2 s20 in
    let! sma_50_prev := iloc_neg 2 s50 in
    let! cl := column df "Close" in
    let! current_price := iloc_neg 1 cl in
    if (sma_20_prev <? sma_50_prev)%X && (sma_20 >? sma_50)%X then
      Ok {| signal := BUY; strength := 8; confidence := 75;
            reasons := [GoldenCross] |}
    else if (sma_20_prev >? sma_50_prev)%X && (sma_20 <? sma_50)%X then
      Ok {| signal := SELL; strength := 8; confidence := 75;
            reasons := [DeathCross] |}
    else if (current_price >? sma_20)%X && (sma_20 >? sma_50)%X then
      Ok {| signal := BUY; strength := 6; confidence := 65;
            reasons := [PriceAboveAverages] |}
    else if (current_price <? sma_20)%X && (sma_20 <? sma_50)%X then
      Ok {| signal := SELL; strength := 6; confidence := 65;
            reasons := [PriceBelowAverages] |}
    else Ok (hold_signal [NoClearTrend]).

Definition _generate_bb_signal (df : DataFrame) (sensitivity : string)
  : result Signal :=
  if negb (has_column df "BB_Upper") || negb (has_column df "BB_Lower")
  then Ok (hold_signal [])
  else
    let! cl := column df "Close" in
    let! current_price := iloc_neg 1 cl in
    let! up := column df "BB_Upper" in
    let! bb_upper := iloc_neg 1 up in
    let! lo := column df "BB_Lower" in
    let! bb_lower := iloc_neg 1 lo in
    let! mid := column df "BB_Middle" in
    let! bb_middle := iloc_neg 1 mid in
    if (current_price <? bb_lower)%X then
      let! i := xint ((bb_lower - current_price) / bb_lower * Fin 100)%X in
      let strength := Z.min 10 i in
      Ok {| signal := BUY; strength := strength; confidence := 70;
            reasons := [BelowLowerBand] |}
    else if (current_price >? bb_upper)%X then
      let! i := xint ((current_price - bb_upper) / bb_upper * Fin 100)%X in
      let strength := Z.min 10 i in
      Ok {| signal := SELL; strength := strength; confidence := 70;
            reasons := [AboveUpperBand] |}
    else Ok (hold_signal [WithinBands]).

Definition _generate_momentum_signal (df : DataFrame) (sensitivity : string)
  : result Signal :=
  let! cl := column df "Close" in
  let! r := iloc_neg 1 (pct_change 5 cl) in
  let returns := (r * Fin 100)%X in
  let! volume_ratio :=
    if has_column df "Volume_Ratio"
    then (let! v := column df "Volume_Ratio" in iloc_neg 1 v)
    else Ok (Fin 1) in
  if (returns >? Fin 3)%X && (volume_ratio >? Fin (12 # 10))%X then
    Ok {| signal := BUY; strength := 7; confidence := 70;
          reasons := [MomentumUp returns] |}
  else if (returns <? Fin (- 3))%X && (volume_ratio >? Fin (12 # 10))%X then
    Ok {| signal := SELL; strength := 7; confidence := 70;
          reasons := [MomentumDown returns] |}
  else Ok (hold_signal [WeakMomentum]).

(** [sum(w for s, w in zip(signals, weights) if s['signal'] == a)] *)
Definition score (a : action) (signals : list Signal) (weights : list Q) : Q :=
  fold_left Qplus
    (map snd (List.filter (fun sw => action_eqb (signal (fst sw)) a)
                     (combine signals weights)))
    0%Q.

Definition _generate_composite_signal (df : DataFrame) (sensitivity : string)
  : result Signal :=
  let add (s : Signal) (acc : list Signal * list Q) :=
    if action_eqb (signal s) HOLD then acc
    else ((fst acc ++ [s])%list, (snd acc ++ [(25 # 100)%Q])%list) in
  let! rsi_signal := _generate_rsi_signal df sensitivity in
  let acc := add rsi_signal ([], []) in
  let! macd_signal := _generate_macd_signal df sensitivity in
  let acc := add macd_signal acc in
  let! ma_signal := _generate_ma_signal df sensitivity in
  let acc := add ma_signal acc in
  let! bb_signal := _generate_bb_signal df sensitivity in
  let '(signals, weights) := add bb_signal acc in
  match signals with
  | [] => Ok (hold_signal [NoClearSignal])
  | _ =>
      let buy_score := score BUY signals weights in
      let sell_score := score SELL signals weights in
      let '(sig, confidence, strength) :=
        if Qltb sell_score buy_score && Qltb (4 # 10) buy_score then
          (BUY, Z.min 95 (py_int (buy_score * 100)),
                Z.min 10 (py_int (buy_score * 15)))
        else if Qltb buy_score sell_score && Qltb (4 # 10) sell_score then
          (SELL, Z.min 95 (py_int (sell_score * 100)),
                 Z.min 10 (py_int (sell_score * 15)))
        else (HOLD, 50%Z, 5%Z) in
      let rs :=
        flat_map reasons
          (List.filter (fun s => action_eqb (signal s) sig) signals) in
      Ok {| signal := sig; strength := strength; confidence := confidence;
            reasons := match rs with
                       | [] => [MixedSignals]
                       | _ => firstn 3 rs
                       end |}
  end.

Definition generate_signal (df : DataFrame) (strategy sensitivity : string)
  : result Signal :=
  if String.eqb strategy "AI Composite" then _generate_composite_signal df sensitivity
  else if String.eqb strategy "RSI Strategy" then _generate_rsi_signal df sensitivity
  else if String.eqb strategy "MACD Crossover" then _generate_macd_signal df sensitivity
  else if String.eqb strategy "Moving Average" then _generate_ma_signal df sensitivity
  else if String.eqb strategy "Bollinger Bands" then _generate_bb_signal df sensitivity
  else if String.eqb strategy "Momentum" then _generate_momentum_signal df sensitivity
  else _generate_composite_signal df sensitivity.

End SignalGenerator.

(** ** numpy and pandas series operations *)

Module Series.

Definition xsum (xs : list xnum) : xnum := fold_right xadd (Fin 0) xs.

(** One cell of [s.rolling(window=w).mean()]: NaN until w observations are
    available (and for w = 0), then the mean of the last w cells. *)
Definition window_mean (w : nat) (s : list xnum) (k : nat) : xnum :=
  if (w =? 0)%nat || (k + 1 <? w)%nat then NaN
  else (xsum (firstn w (skipn (k + 1 - w) s)) / Fin (inject_Z (Z.of_nat w)))%X.

Definition rolling_mean (w : nat) (s : list xnum) : list xnum :=
  map (window_mean w s) (seq 0 (length s)).

(** [s.diff()]: NaN on the first row. *)
Definition diff (s : list xnum) : list xnum :=
  map (fun k =>
         match k with
         | O => NaN
         | S j => match s !! k, s !! j with
                  | Some x, Some y => (x - y)%X
                  | _, _ => NaN
                  end
         end)
      (seq 0 (length s)).

(** [s.where(cond, other)]: keeps the cells satisfying [cond]. *)
Definition where_ (cond : xnum -> bool) (other : xnum) (s : list xnum) : list xnum :=
  map (fun x => if cond x then x else other) s.

(** Element-wise operation on two series of the same index. *)
Fixpoint zip_with {A B C : Type} (f : A -> B -> C) (s : list A) (t : list B) : list C :=
  match s, t with
  | x :: s', y :: t' => f x y :: zip_with f s' t'
  | _, _ => []
  end.

(** [s.ewm(span=n, adjust=False).mean()] on a series without NaN:
    y0 = x0, y_t = (1 - alpha) y_(t-1) + alpha x_t with alpha = 2/(n+1);
    pandas refuses a span below 1. *)
Fixpoint ewm_from (alpha prev : Q) (s : list Q) : list Q :=
  match s with
  | [] => []
  | x :: s' =>
      let y := ((1 - alpha) * prev + alpha * x)%Q in
      y :: ewm_from alpha y s'
  end.

Definition ewm_mean (span : nat) (s : list Q) : result (list Q) :=
  if (span <? 1)%nat then Raise ValueError
  else
    let alpha := (2 / (inject_Z (Z.of_nat span) + 1))%Q in
    match s with
    | [] => Ok []
    | x :: s' => Ok (x :: ewm_from alpha x s')
    end.

(** [s.dropna()] *)
Definition dropna (s : list xnum) : list xnum :=
  List.filter (fun x => match x with NaN => false | _ => true end) s.

Section Sqrt.
(** numpy's square root on finite non-negative floats. *)
Variable sqrt : Q -> Q.

Definition xsqrt (x : xnum) : xnum :=
  match x with
  | Fin q => if Qltb q 0 then NaN else Fin (sqrt q)
  | PInf => PInf
  | NInf | NaN => NaN
  end.

(** [np.mean(xs)] and [s.mean()] *)
Definition mean (xs : list xnum) : xnum :=
  (xsum xs / Fin (inject_Z (Z.of_nat (length xs))))%X.

Definition sum_sq_dev (xs : list xnum) : xnum :=
  let m := mean xs in
  xsum (map (fun x => ((x - m) * (x - m))%X) xs).

(** [np.std(xs)]: population standard deviation (ddof = 0). *)
Definition np_std (xs : list xnum) : xnum :=
  xsqrt (sum_sq_dev xs / Fin (inject_Z (Z.of_nat (length xs))))%X.

(** [s.std()]: pandas sample standard deviation (ddof = 1), NaN on fewer
    than two observations. *)
Definition pd_std (xs : list xnum) : xnum :=
  if (length xs <? 2)%nat then NaN
  else xsqrt (sum_sq_dev xs / Fin (inject_Z (Z.of_nat (length xs) - 1)))%X.

End Sqrt.

(** A square root to run the definitions with: truncated to 8 decimals. *)
Definition sqrt_approx (q : Q) : Q :=
  (inject_Z (Z.sqrt ((Qnum q * 10 ^ 16) / Zpos (Qden q))) / inject_Z (10 ^ 8))%Q.

End Series.
Export Series.

(** ** src/trading_signals/risk_analyzer.py *)

Module RiskAnalyzer.
Local Open Scope string_scope.
Local Open Scope py_scope.

Section Sqrt.
Variable sqrt : Q -> Q.

Definition _calculate_sharpe_ratio (df : DataFrame) (risk_free_rate : Q)
  : result xnum :=
  let! cl := column df "Close" in
  let returns := dropna (pct_change 1 cl) in
  let excess_returns := (mean returns * Fin 252 - Fin risk_free_rate)%X in
  let volatility := (pd_std sqrt returns * Fin (sqrt 252))%X in
  let sharpe :=
    if xneb volatility (Fin 0) then (excess_returns / volatility)%X
    else Fin 0 in
  Ok sharpe.

(** The default [risk_free_rate=0.02]. *)
Definition default_risk_free_rate : Q := 2 # 100.

End Sqrt.
End RiskAnalyzer.

(** ** src/portfolio/backtesting_engine.py *)

Module BacktestingEngine.
Local Open Scope string_scope.
Local Open Scope py_scope.

(** [strategy_params]: a dict read with [.get(key, default)]. *)
Record StrategyParams : Set := {
  p_type : option string;
  p_short_window : option nat;
  p_long_window : option nat;
  p_period : option nat;
  p_oversold : option Q;
  p_overbought : option Q;
  p_fast_period : option nat;
  p_slow_period : option nat;
  p_signal_period : option nat
}.

(** [backtest_config] *)
Record BacktestConfig : Set := {
  c_initial_capital : option Q;
  c_position_size : option Q;
  c_commission : option Q
}.

(** The frame of a backtest: its Close column, finite prices in date
    order.  The engine reads no other column; a row's position stands for
    its index label. *)
Abbreviation Prices := (list Q).

Definition close_series (df : Prices) : list xnum := map Fin df.

(** The per-bar rule, called on the expanding window [df.iloc[:i+1]].
    The cells compared under [and] are read up front: past the length
    guards every series has at least 50 cells, so no read can fail. *)
Definition _generate_signal (df : Prices) (strategy_type : string)
    (params : StrategyParams) : result action :=
  if (length df <? 50)%nat then Ok HOLD
  else if String.eqb strategy_type "ma_crossover" then
    let short_window := default 20%nat (p_short_window params) in
    let long_window := default 50%nat (p_long_window params) in
    if (length df <? long_window)%nat then Ok HOLD
    else
      let sma_short := rolling_mean short_window (close_series df) in
      let sma_long := rolling_mean long_window (close_series df) in
      let! s1 := iloc_neg 1 sma_short in
      let! l1 := iloc_neg 1 sma_long in
      let! s2 := iloc_neg 2 sma_short in
      let! l2 := iloc_neg 2 sma_long in
      if (s1 >? l1)%X && (s2 <=? l2)%X then Ok BUY
      else if (s1 <? l1)%X && (s2 >=? l2)%X then Ok SELL
      else Ok HOLD
  else if String.eqb strategy_type "rsi" then
    let period := default 14%nat (p_period params) in
    let oversold := default 30%Q (p_oversold params) in
    let overbought := default 70%Q (p_overbought params) in
    if (length df <? period)%nat then Ok HOLD
    else
      let delta := diff (close_series df) in
      let gain := where_ (fun d => (d >? Fin 0)%X) (Fin 0) delta in
      let loss := map xneg (where_ (fun d => (d <? Fin 0)%X) (Fin 0) delta) in
      let avg_gain := rolling_mean period gain in
      let avg_loss := rolling_mean period loss in
      let rs := zip_with xdiv avg_gain avg_loss in
      let rsi := map (fun r => (Fin 100 - Fin 100 / (Fin 1 + r))%X) rs in
      let! r := iloc_neg 1 rsi in
      if (r <? Fin oversold)%X then Ok BUY
      else if (r >? Fin overbought)%X then Ok SELL
      else Ok HOLD
  else if String.eqb strategy_type "macd" then
    let fast_period := default 12%nat (p_fast_period params) in
    let slow_period := default 26%nat (p_slow_period params) in
    let signal_period := default 9%nat (p_signal_period params) in
    if (length df <? slow_period + signal_period)%nat then Ok HOLD
    else
      let! ema_fast := ewm_mean fast_period df in
      let! ema_slow := ewm_mean slow_period df in
      let macd := zip_with Qminus ema_fast ema_slow in
      let! macd_signal := ewm_mean signal_period macd in
      let! m1 := iloc_neg 1 macd in
      let! g1 := iloc_neg 1 macd_signal in
      let! m2 := iloc_neg 2 macd in
      let! g2 := iloc_neg 2 macd_signal in
      if Qltb g1 m1 && Qleb m2 g2 then Ok BUY
      else if Qltb m1 g1 && Qleb g2 m2 then Ok SELL
      else Ok HOLD
  else Ok HOLD.

Record Trade : Set := {
  t_date : nat;
  t_type : action;
  t_price : Q;
  t_shares : Z;
  t_value : Q;
  t_commission : Q
}.

Record Snapshot : Set := {
  h_date : nat;
  h_portfolio_value : Q;
  h_cash : Q;
  h_shares : Z;
  h_price : Q
}.

(** The variables of the loop of [run_backtest]. *)
Record State : Set := {
  cash : Q;
  shares : Z;
  trades : list Trade;
  portfolio_history : list Snapshot
}.

Definition initial_state (initial_capital : Q) : State :=
  {| cash := initial_capital; shares := 0; trades := [];
     portfolio_history := [] |}.

(** One iteration of the loop, at bar [i]. *)
Definition bar_step (df : Prices) (strategy_type : string)
    (params : StrategyParams) (position_size commission : Q)
    (st : State) (i : nat) : result State :=
  let! current_price := iloc i df in
  let! sig := _generate_signal (firstn (i + 1) df) strategy_type params in
  let portfolio_value := (cash st + inject_Z (shares st) * current_price)%Q in
  let history :=
    (portfolio_history st ++
      [{| h_date := i; h_portfolio_value := portfolio_value;
          h_cash := cash st; h_shares := shares st;
          h_price := current_price |}])%list in
  if action_eqb sig BUY && (shares st =? 0)%Z && Qltb current_price (cash st) then
    let! max_shares :=
      xint (Fin (cash st * position_size) / Fin current_price)%X in
    if (0 <? max_shares)%Z then
      let cost := (inject_Z max_shares * current_price + commission)%Q in
      Ok {| cash := (cash st - cost)%Q;
            shares := max_shares;
            trades := (trades st ++
              [{| t_date := i; t_type := BUY; t_price := current_price;
                  t_shares := max_shares;
                  t_value := (inject_Z max_shares * current_price)%Q;
                  t_commission := commission |}])%list;
            portfolio_history := history |}
    else
      Ok {| cash := cash st; shares := shares st; trades := trades st;
            portfolio_history := history |}
  else if action_eqb sig SELL && (0 <? shares st)%Z then
    let proceeds := (inject_Z (shares st) * current_price - commission)%Q in
    Ok {| cash := (cash st + proceeds)%Q;
          shares := 0;
          trades := (trades st ++
            [{| t_date := i; t_type := SELL; t_price := current_price;
                t_shares := shares st;
                t_value := (inject_Z (shares st) * current_price)%Q;
                t_commission := commission |}])%list;
          portfolio_history := history |}
  else
    Ok {| cash := cash st; shares := shares st; trades := trades st;
          portfolio_history := history |}.

(** [for i in <bars>]: the iterations in order, stopping at an exception. *)
Fixpoint run_bars (df : Prices) (strategy_type : string)
    (params : StrategyParams) (position_size commission : Q)
    (bars : list nat) (st : State) : result State :=
  match bars with
  | [] => Ok st
  | i :: rest =>
      let! st' := bar_step df strategy_type params position_size commission st i in
      run_bars df strategy_type params position_size commission rest st'
  end.

Record Report : Set := {
  initial_capital : Q;
  final_value : Q;
  total_return : xnum;
  total_trades : nat;
  winning_trades : nat;
  losing_trades : nat;
  avg_win : Q;
  avg_loss : Q;
  largest_win : Q;
  largest_loss : Q;
  sharpe_ratio : xnum;
  max_drawdown : xnum;
  volatility : xnum
}.

Record Results : Set := {
  report : Report;
  r_trades : list Trade;
  r_portfolio_history : list Snapshot
}.

(** Python's [max(xs, default=d)] and [min(xs, default=d)]. *)
Definition py_max (xs : list Q) (d : Q) : Q :=
  match xs with
  | [] => d
  | x :: xs' => fold_left (fun m y => if Qltb m y then y else m) xs' x
  end.

Definition py_min (xs : list Q) (d : Q) : Q :=
  match xs with
  | [] => d
  | x :: xs' => fold_left (fun m y => if Qltb y m then y else m) xs' x
  end.

Definition x_max (a b : xnum) : xnum := if (a <? b)%X then b else a.

Definition x_min_list (xs : list xnum) (d : xnum) : xnum :=
  match xs with
  | [] => d
  | x :: xs' => fold_left (fun m y => if (y <? m)%X then y else m) xs' x
  end.

Definition is_buy (t : Trade) : bool := action_eqb (t_type t) BUY.
Definition is_sell (t : Trade) : bool := action_eqb (t_type t) SELL.

(** (sell price - buy price) * shares of the i-th BUY and the i-th SELL. *)
Definition pair_profits (trades : list Trade) : list Q :=
  let buy_trades := List.filter is_buy trades in
  let sell_trades := List.filter is_sell trades in
  zip_with (fun b s => ((t_price s - t_price b) * inject_Z (t_shares b))%Q)
           buy_trades sell_trades.

(** Bar-over-bar returns of the equity curve. *)
Fixpoint curve_returns (values : list Q) : list xnum :=
  match values with
  | v0 :: ((v1 :: _) as rest) => (Fin (v1 - v0) / Fin v0)%X :: curve_returns rest
  | _ => []
  end.

Fixpoint cumulate (prev : xnum) (returns : list xnum) : list xnum :=
  match returns with
  | [] => []
  | r :: rest =>
      let c := (prev * (Fin 1 + r))%X in
      c :: cumulate c rest
  end.

Fixpoint running_max_from (prev : xnum) (vals : list xnum) : list xnum :=
  match vals with
  | [] => []
  | v :: rest =>
      let m := x_max prev v in
      m :: running_max_from m rest
  end.

Section Sqrt.
Variable sqrt : Q -> Q.

(** The Sharpe ratio of the equity-curve returns. *)
Definition returns_sharpe (returns : list xnum) : xnum :=
  if (np_std sqrt returns >? Fin 0)%X
  then (mean returns / np_std sqrt returns * Fin (sqrt 252))%X
  else Fin 0.

Definition _calculate_backtest_metrics (initial_capital final_value : Q)
    (trades : list Trade) (portfolio_history : list Snapshot) : Report :=
  let total_return :=
    (Fin (final_value - initial_capital) / Fin initial_capital * Fin 100)%X in
  let total_trades := length trades in
  let profits := pair_profits trades in
  let wins := List.filter (fun p => Qltb 0 p) profits in
  let losses := List.filter (fun p => negb (Qltb 0 p)) profits in
  let winning_trades := length wins in
  let losing_trades := length losses in
  let total_profit := fold_left Qplus wins 0%Q in
  let total_loss := fold_left Qplus (map Qabs losses) 0%Q in
  let avg_win :=
    if (0 <? winning_trades)%nat
    then (total_profit / inject_Z (Z.of_nat winning_trades))%Q else 0%Q in
  let avg_loss :=
    if (0 <? losing_trades)%nat
    then (total_loss / inject_Z (Z.of_nat losing_trades))%Q else 0%Q in
  let largest_win := py_max (map Qabs profits) 0%Q in
  let largest_loss := py_min profits 0%Q in
  let values := map h_portfolio_value portfolio_history in
  let returns := curve_returns values in
  let risk :=
    match values, returns with
    | v0 :: _, _ :: _ =>
        let cumulative := Fin v0 :: cumulate (Fin v0) returns in
        let running_max := Fin v0 :: running_max_from (Fin v0) (cumulate (Fin v0) returns) in
        let drawdowns :=
          zip_with (fun c m => ((c - m) / m * Fin 100)%X) cumulative running_max in
        (returns_sharpe returns,
         x_min_list drawdowns (Fin 0),
         (np_std sqrt returns * Fin (sqrt 252) * Fin 100)%X)
    | _, _ => (Fin 0, Fin 0, Fin 0)
    end in
  {| initial_capital := initial_capital;
     final_value := final_value;
     total_return := total_return;
     total_trades := total_trades;
     winning_trades := winning_trades;
     losing_trades := losing_trades;
     avg_win := avg_win;
     avg_loss := avg_loss;
     largest_win := largest_win;
     largest_loss := largest_loss;
     sharpe_ratio := fst (fst risk);
     max_drawdown := snd (fst risk);
     volatility := snd risk |}.

Definition run_backtest (df : Prices) (strategy_params : StrategyParams)
    (backtest_config : BacktestConfig) : result Results :=
  let initial_capital := default 10000%Q (c_initial_capital backtest_config) in
  let position_size := default 1%Q (c_position_size backtest_config) in
  let commission := default 1%Q (c_commission backtest_config) in
  let strategy_type := default "ma_crossover" (p_type strategy_params) in
  let! st := run_bars df strategy_type strategy_params position_size commission
               (seq 1 (length df - 1)) (initial_state initial_capital) in
  let! last_close := iloc_neg 1 df in
  let final_value := (cash st + inject_Z (shares st) * last_close)%Q in
  let results :=
    _calculate_backtest_metrics initial_capital final_value
      (trades st) (portfolio_history st) in
  Ok {| report := results; r_trades := trades st;
        r_portfolio_history := portfolio_history st |}.

End Sqrt.

End BacktestingEngine.

(** ** Vocabulary for the statements about the backtest *)

Module BacktestSpec.
Import BacktestingEngine.
Local Open Scope string_scope.
Local Open Scope list_scope.

(** pandas accepts the spans of the MACD rule only from 1 on. *)
Definition params_ok (strategy_type : string) (params : StrategyParams) : Prop :=
  strategy_type = "macd" ->
  (1 <= default 12 (p_fast_period params))%nat
  /\ (1 <= default 26 (p_slow_period params))%nat
  /\ (1 <= default 9 (p_signal_period params))%nat.

(** The snapshot and the trades the loop records at bar [i]. *)
Definition snapshot_at (st : State) (i : nat) (price : Q) : Snapshot :=
  {| h_date := i;
     h_portfolio_value := (cash st + inject_Z (shares st) * price)%Q;
     h_cash := cash st; h_shares := shares st; h_price := price |}.

Definition buy_trade (commission : Q) (i : nat) (price : Q) (n : Z) : Trade :=
  {| t_date := i; t_type := BUY; t_price := price; t_shares := n;
     t_value := (inject_Z n * price)%Q; t_commission := commission |}.

Definition sell_trade (commission : Q) (i : nat) (price : Q) (n : Z) : Trade :=
  {| t_date := i; t_type := SELL; t_price := price; t_shares := n;
     t_value := (inject_Z n * price)%Q; t_commission := commission |}.

(** What one iteration does to the ledger, case by case. *)
Inductive step_outcome (position_size commission : Q)
  (st : State) (i : nat) (price : Q) (sig : action) (st' : State) : Prop :=
| outcome_buy (n : Z) :
    sig = BUY -> shares st = 0%Z -> (price < cash st)%Q ->
    xint (Fin (cash st * position_size) / Fin price)%X = Ok n ->
    (0 < n)%Z ->
    cash st' = (cash st - (inject_Z n * price + commission))%Q ->
    shares st' = n ->
    trades st' = trades st ++ [buy_trade commission i price n] ->
    step_outcome position_size commission st i price sig st'
| outcome_sell :
    sig = SELL -> (0 < shares st)%Z ->
    cash st' = (cash st + (inject_Z (shares st) * price - commission))%Q ->
    shares st' = 0%Z ->
    trades st' = trades st ++ [sell_trade commission i price (shares st)] ->
    step_outcome position_size commission st i price sig st'
| outcome_idle :
    cash st' = cash st -> shares st' = shares st -> trades st' = trades st ->
    step_outcome position_size commission st i price sig st'.

(** The 20-bar and 50-bar simple moving averages of the whole series at
    bar [i], and their crossings. *)
Definition sma (w : nat) (df : Prices) (i : nat) : xnum :=
  window_mean w (close_series df) i.

Definition golden_cross (df : Prices) (i : nat) : bool :=
  (sma 20 df i >? sma 50 df i)%X
  && (sma 20 df (i - 1) <=? sma 50 df (i - 1))%X.

Definition death_cross (df : Prices) (i : nat) : bool :=
  (sma 20 df i <? sma 50 df i)%X
  && (sma 20 df (i - 1) >=? sma 50 df (i - 1))%X.

Definition dated_from_49 (ts : list Trade) : Prop :=
  Forall (fun t => (49 <= t_date t)%nat) ts.

(** The loop of a run, with the configuration defaults applied. *)
Definition run_loop (df : Prices) (params : StrategyParams)
    (cfg : BacktestConfig) (bars : list nat) : result State :=
  run_bars df (default "ma_crossover" (p_type params)) params
    (default 1%Q (c_position_size cfg)) (default 1%Q (c_commission cfg))
    bars (initial_state (default 10000%Q (c_initial_capital cfg))).

End BacktestSpec.

(** ** Concrete runs used to exercise the statements *)

Module Examples.
Import BacktestingEngine.
Local Open Scope string_scope.

Definition with_type (ty : string) : StrategyParams :=
  {| p_type := Some ty; p_short_window := None; p_long_window := None;
     p_period := None; p_oversold := None; p_overbought := None;
     p_fast_period := None; p_slow_period := None; p_signal_period := None |}.

(** initial_capital=10000, commission=1, position_size left to its
    default 1.0 *)
Definition config_10000 : BacktestConfig :=
  {| c_initial_capital := Some 10000%Q; c_position_size := None;
     c_commission := Some 1%Q |}.

(** 60 bars falling by 1 from 200: the RSI is 0 as soon as it is read. *)
Definition falling : Prices :=
  map (fun i => inject_Z (200 - Z.of_nat i)) (seq 0 60).

(** 252 bars: falling by 1 to bar 84, rising by 3 to bar 177, falling by 3
    after; scaled by [k]. *)
Definition wave (k : Z) : Prices :=
  map (fun i : nat =>
         inject_Z (k * (if (i <? 84)%nat then 1000 - Z.of_nat i
                        else if (i <? 177)%nat
                             then 916 + 3 * (Z.of_nat i - 84)
                             else 1195 - 3 * (Z.of_nat i - 177))))
      (seq 0 252).

End Examples.

(** A decision procedure for the frames the bounds are stated for. *)
Module FrameCheck.
Local Open Scope string_scope.

Definition is_pos (x : xnum) : bool :=
  match x with Fin q => Qltb 0 q | _ => false end.

Definition is_nan (x : xnum) : bool :=
  match x with NaN => true | _ => false end.

Definition column_all (df : DataFrame) (c : string) (p : xnum -> bool) : bool :=
  match columns df !! c with
  | Some xs => forallb p xs
  | None => true
  end.

Definition frame_okb (df : DataFrame) : bool :=
  (2 <=? nrows df)%nat
  && has_column df "Close"
  && bool_decide
       (map_Forall (fun _ xs => length xs = nrows df
                                /\ Forall (fun x => is_inf x = false) xs)
                   (columns df))
  && column_all df "Close" is_pos
  && column_all df "BB_Upper" (fun x => is_nan x || is_pos x)
  && implb (has_column df "BB_Upper" && has_column df "BB_Lower")
           (has_column df "BB_Middle").

End FrameCheck.

(** ** Vocabulary for the statements about the signal generator *)

Module SignalSpec.
Import SignalGenerator.
Local Open Scope string_scope.

(** A returned signal that is HOLD with confidence 50 and strength 5. *)
Definition neutral_hold (r : result Signal) : Prop :=
  exists s, r = Ok s /\ signal s = HOLD /\ confidence s = 50%Z /\ strength s = 5%Z.

(** The frames the bounds are stated for: well formed, at least two bars,
    no infinite cell (NaN cells are allowed), positive finite closes,
    a Bollinger upper band that is positive where it is defined, and the
    middle band present whenever the outer bands are. *)
Record frame_ok (df : DataFrame) : Prop := {
  ok_wf : wf_frame df;
  ok_rows : (2 <= nrows df)%nat;
  ok_close : has_column df "Close" = true;
  ok_no_inf : forall c xs x,
      columns df !! c = Some xs -> In x xs -> is_inf x = false;
  ok_close_pos : forall xs x,
      columns df !! "Close" = Some xs -> In x xs ->
      exists q, x = Fin q /\ (0 < q)%Q;
  ok_upper_pos : forall xs x,
      columns df !! "BB_Upper" = Some xs -> In x xs ->
      x = NaN \/ exists q, x = Fin q /\ (0 < q)%Q;
  ok_middle : has_column df "BB_Upper" = true ->
      has_column df "BB_Lower" = true -> has_column df "BB_Middle" = true
}.

Definition bounded (lo : Z) (r : result Signal) : Prop :=
  exists s, r = Ok s
    /\ (lo <= strength s <= 10)%Z /\ (0 <= confidence s <= 100)%Z.

(** Whatever is returned has its strength capped at 10 and its confidence
    in [0,100]. *)
Definition capped (r : result Signal) : Prop :=
  forall s, r = Ok s -> (strength s <= 10)%Z /\ (0 <= confidence s <= 100)%Z.

(** Frames with a single bar, and frames with two. *)
Definition one_bar_rsi : DataFrame :=
  {| nrows := 1;
     columns := <["RSI" := [Fin 10]]> (<["Close" := [Fin 100]]> ∅) |}.

Definition one_bar_macd : DataFrame :=
  {| nrows := 1;
     columns := <["MACD" := [Fin 1]]> (<["MACD_Signal" := [Fin 0]]>
                (<["Close" := [Fin 100]]> ∅)) |}.

Definition one_bar_plain : DataFrame :=
  {| nrows := 1; columns := <["Close" := [Fin 100]]> ∅ |}.

Definition one_bar_bands : DataFrame :=
  {| nrows := 1;
     columns := <["RSI" := [Fin 10]]> (<["BB_Upper" := [Fin 120]]>
                (<["BB_Middle" := [Fin 115]]> (<["BB_Lower" := [Fin 110]]>
                (<["Close" := [Fin 100]]> ∅)))) |}.


(** A two-bar frame whose last RSI reading, 29, is just below the
    Moderate oversold threshold 30. *)
Definition two_bar_rsi : DataFrame :=
  {| nrows := 2;
     columns := <["RSI" := [Fin 50; Fin 29]]>
                (<["Close" := [Fin 100; Fin 100]]> ∅) |}.

(** A two-bar frame with the outer Bollinger bands but no BB_Middle. *)
Definition two_bar_no_middle : DataFrame :=
  {| nrows := 2;
     columns := <["BB_Upper" := [Fin 110; Fin 110]]>
                (<["BB_Lower" := [Fin 90; Fin 90]]>
                (<["Close" := [Fin 100; Fin 100]]> ∅)) |}.

(** A frame of two bars, closing at 100 and 101. *)
Definition two_bar_close : DataFrame :=
  {| nrows := 2; columns := <["Close" := [Fin 100; Fin 101]]> ∅ |}.

End SignalSpec.

(** ** Python arithmetic on plain numbers *)

Module PyArith.
Local Open Scope Q_scope.

(** A computation on Python floats: it returns, or the division raises. *)
Inductive py (A : Type) : Type :=
| Val (a : A)
| ZeroDivisionError.
Arguments Val {A} a.
Arguments ZeroDivisionError {A}.

Definition py_bind {A B : Type} (c : py A) (k : A -> py B) : py B :=
  match c with
  | Val a => k a
  | ZeroDivisionError => ZeroDivisionError
  end.

(** [a / b] on Python floats and ints. *)
Definition py_div (a b : Q) : py Q :=
  if Qeqb b 0 then ZeroDivisionError else Val (a / b).

(** The builtins [min(a, b)] and [max(a, b)]: the first argument unless
    the second is strictly smaller (larger). *)
Definition py_min2 (a b : Q) : Q := if Qltb b a then b else a.
Definition py_max2 (a b : Q) : Q := if Qltb a b then b else a.

(** Rounding to the nearest integer, ties to the even one. *)
Definition round_half_even (q : Q) : Z :=
  let f := Qfloor q in
  let r := q - inject_Z f in
  if Qltb r (1 # 2) then f
  else if Qltb (1 # 2) r then (f + 1)%Z
  else if Z.even f then f else (f + 1)%Z.

(** [round(q, ndigits)] *)
Definition py_round (q : Q) (ndigits : nat) : Q :=
  inject_Z (round_half_even (q * inject_Z (10 ^ Z.of_nat ndigits)))
  / inject_Z (10 ^ Z.of_nat ndigits).

(** [sum(xs)] *)
Definition py_sum (xs : list Q) : Q := fold_left Qplus xs 0.

Fixpoint py_map {A B : Type} (f : A -> py B) (xs : list A) : py (list B) :=
  match xs with
  | [] => Val []
  | x :: rest =>
      py_bind (f x) (fun y => py_bind (py_map f rest) (fun ys => Val (y :: ys)))
  end.

End PyArith.
Export PyArith.

Notation "'let?' x ':=' c 'in' k" := (py_bind c (fun x => k))
  (at level 10, x name, c at level 100, k at level 200) : py_scope.

(** ** Binary64 arithmetic

    Python's floats are the IEEE 754 binary64 numbers, and so are Rocq's
    primitive floats, with the same correctly rounded [+], [-], [*], [/]
    and the same comparisons (false on NaN); a decimal literal stands for
    the nearest float in both.  The functions whose answer turns on how
    one operation rounds are embedded over them. *)

#[local] Set Warnings "-inexact-float".

Module Binary64.

(** [int(x)] on a float: truncation toward zero; an infinity raises
    OverflowError and NaN raises ValueError. *)
Definition float_int (x : float) : result Z :=
  match Prim2SF x with
  | S754_zero _ => Ok 0%Z
  | S754_finite s m e =>
      let magnitude :=
        if (0 <=? e)%Z then (Zpos m * 2 ^ e)%Z else (Zpos m / 2 ^ (- e))%Z in
      Ok (if s then (- magnitude)%Z else magnitude)
  | S754_infinity _ => Raise OverflowError
  | S754_nan => Raise ValueError
  end.

(** [a / b] on Python floats: a zero divisor raises. *)
Definition float_div (a b : float) : py float :=
  if (b =? 0)%float then ZeroDivisionError else Val (a / b)%float.

(** The rational a finite float stands for (0 for the infinities and NaN). *)
Definition float_Q (x : float) : Q :=
  match Prim2SF x with
  | S754_finite s m e =>
      let magnitude :=
        if (0 <=? e)%Z then inject_Z (Zpos m * 2 ^ e)
        else Zpos m # Pos.pow 2 (Z.to_pos (- e)) in
      if s then Qopp magnitude else magnitude
  | _ => 0%Q
  end.

End Binary64.

(** ** src/trading_signals/position_sizer.py on binary64 *)

Module PositionSizerBinary64.
Import Binary64.
Local Open Scope float_scope.
Local Open Scope py_scope.

(** app/config.py: MAX_POSITION_SIZE_PCT = 20.0 *)
Definition MAX_POSITION_SIZE_PCT : float := 20.

Definition calculate_position_size
    (portfolio_value entry_price stop_loss_price risk_per_trade_pct : float)
  : result Z :=
  if (portfolio_value <=? 0) || (entry_price <=? 0) then Ok 0%Z
  else
    let risk_amount := portfolio_value * (risk_per_trade_pct / 100) in
    let risk_per_share := abs (entry_price - stop_loss_price) in
    if risk_per_share =? 0 then Ok 0%Z
    else
      let shares := risk_amount / risk_per_share in
      let position_value := shares * entry_price in
      let max_position_value := portfolio_value * (MAX_POSITION_SIZE_PCT / 100) in
      let shares :=
        if max_position_value <? position_value
        then max_position_value / entry_price
        else shares in
      float_int shares.

(** The messages of [validate_position_size], carrying the percentage
    they print. *)
Inductive size_message : Set :=
| ExceedsMaximum (position_pct : float)
| LargePosition (position_pct : float)
| VerySmallPosition (position_pct : float)
| HighExposure (exposure_pct : float).

Record size_validations : Set := {
  size_is_valid : bool;
  size_warnings : list size_message;
  size_errors : list size_message
}.

(** [number_of_positions] is the float the product converts the count to. *)
Definition validate_position_size
    (portfolio_value position_value number_of_positions : float)
  : py size_validations :=
  let? ratio := float_div position_value portfolio_value in
  let position_pct := ratio * 100 in
  let '(valid, errors) :=
    if MAX_POSITION_SIZE_PCT <? position_pct
    then (false, [ExceedsMaximum position_pct]) else (true, []) in
  let warnings1 :=
    if 15 <? position_pct then [LargePosition position_pct] else [] in
  let warnings2 :=
    if position_pct <? 1
    then (warnings1 ++ [VerySmallPosition position_pct])%list else warnings1 in
  let total_exposure := position_value * number_of_positions in
  let? exposure_ratio := float_div total_exposure portfolio_value in
  let exposure_pct := exposure_ratio * 100 in
  let warnings3 :=
    if 80 <? exposure_pct
    then (warnings2 ++ [HighExposure exposure_pct])%list else warnings2 in
  Val {| size_is_valid := valid; size_warnings := warnings3;
         size_errors := errors |}.

End PositionSizerBinary64.

(** ** src/trading_signals/stop_loss_calculator.py, validation, on binary64 *)

Module StopLossCalculator.
Import Binary64.
Local Open Scope float_scope.
Local Open Scope py_scope.

(** The messages of [validate_stop_loss]; a formatted message carries the
    number it prints. *)
Inductive message : Set :=
| MustBeBelowEntry              (* "Stop loss must be below entry price ..." *)
| MustBePositive                (* "Stop loss must be a positive value" *)
| TooWide (loss_pct : float)    (* "Stop loss too wide (..%). Risk exceeds 20% ..." *)
| Wide (loss_pct : float)       (* "Stop loss is wide (..%). ..." *)
| VeryTight (loss_pct : float)  (* "Stop loss very tight (..%). May trigger prematurely ..." *)
| ConsiderWidening              (* "Consider widening stop loss to at least 1-2% ..." *)
| BelowTypicalRange             (* "Stop loss below typical range. ..." *)
| AboveTypicalRange             (* "Stop loss above typical range. ..." *)
| WithinOptimalRange.           (* "Stop loss is within optimal range ..." *)

Record validations : Set := {
  is_valid : bool;
  errors : list message;
  warnings : list message;
  suggestions : list message
}.

Definition validate_stop_loss (entry_price stop_loss : float) : py validations :=
  if entry_price <=? stop_loss then
    Val {| is_valid := false; errors := [MustBeBelowEntry];
           warnings := []; suggestions := [] |}
  else if stop_loss <=? 0 then
    Val {| is_valid := false; errors := [MustBePositive];
           warnings := []; suggestions := [] |}
  else
    let? ratio := float_div (entry_price - stop_loss) entry_price in
    let loss_pct := ratio * 100 in
    let '(valid1, errors1, warnings1) :=
      if 20 <? loss_pct then (false, [TooWide loss_pct], [])
      else if 10 <? loss_pct then (true, [], [Wide loss_pct])
      else (true, [], []) in
    let '(warnings2, suggestions2) :=
      if loss_pct <? 0.5
      then ((warnings1 ++ [VeryTight loss_pct])%list, [ConsiderWidening])
      else (warnings1, []) in
    let optimal_range := (2, 8) in
    let suggestions3 :=
      if loss_pct <? fst optimal_range
      then (suggestions2 ++ [BelowTypicalRange])%list
      else if snd optimal_range <? loss_pct
      then (suggestions2 ++ [AboveTypicalRange])%list
      else (suggestions2 ++ [WithinOptimalRange])%list in
    Val {| is_valid := valid1; errors := errors1;
           warnings := warnings2; suggestions := suggestions3 |}.

End StopLossCalculator.

(** ** src/trading_signals/position_sizer.py, the other sizing rules *)

Module PositionSizerRules.
Import PositionSizer.
Local Open Scope Q_scope.
Local Open Scope py_scope.

Definition calculate_kelly_criterion (win_rate avg_win avg_loss : Q) : py Q :=
  if negb (Qleb 0 win_rate && Qleb win_rate 1) then Val 0
  else if Qeqb avg_loss 0 then Val 0
  else
    let win_loss_ratio := Qabs (avg_win / avg_loss) in
    let? kelly_fraction :=
      py_div (win_rate * win_loss_ratio - (1 - win_rate)) win_loss_ratio in
    let kelly_fraction := py_max2 0 (py_min2 kelly_fraction (25 # 100)) in
    Val (kelly_fraction * 100).

Definition calculate_fixed_fractional (portfolio_value risk_pct : Q) : Q :=
  portfolio_value * (risk_pct / 100).

Definition calculate_volatility_based_size
    (portfolio_value volatility target_volatility : Q) : Q :=
  if Qleb volatility 0 then portfolio_value * (1 # 10)
  else
    let volatility_ratio := target_volatility / volatility in
    let position_fraction :=
      py_min2 (volatility_ratio * (1 # 10)) (MAX_POSITION_SIZE_PCT / 100) in
    portfolio_value * position_fraction.

Definition calculate_equal_weight (portfolio_value : Q) (number_of_positions : Z)
  : Q :=
  if (number_of_positions <=? 0)%Z then 0
  else
    let position_size := portfolio_value / inject_Z number_of_positions in
    let max_size := portfolio_value * (MAX_POSITION_SIZE_PCT / 100) in
    py_min2 position_size max_size.

Definition calculate_risk_parity (portfolio_value : Q) (asset_volatilities : list Q)
  : py (list Q) :=
  match asset_volatilities with
  | [] => Val []
  | _ =>
      if Qeqb (py_sum asset_volatilities) 0 then Val []
      else
        let inverse_vols :=
          map (fun vol => if Qltb 0 vol then 1 / vol else 0) asset_volatilities in
        let total_inverse := py_sum inverse_vols in
        let? weights := py_map (fun inv_vol => py_div inv_vol total_inverse)
                               inverse_vols in
        let position_sizes := map (fun weight => portfolio_value * weight) weights in
        let max_size := portfolio_value * (MAX_POSITION_SIZE_PCT / 100) in
        Val (map (fun size => py_min2 size max_size) position_sizes)
  end.

Record scaling_entry : Set := {
  entry_number : Z;
  entry_shares : Z;
  target_price : Q;
  entry_value : Q;
  percentage_of_total : Q
}.

(** [total_shares // number_of_entries] on ints. *)
Definition floor_div (a b : Z) : py Z :=
  if (b =? 0)%Z then ZeroDivisionError else Val (a / b)%Z.

Definition calculate_scaling_strategy
    (portfolio_value entry_price stop_loss_price : Q) (number_of_entries : Z)
  : py (list scaling_entry) :=
  let total_shares :=
    calculate_position_size portfolio_value entry_price stop_loss_price 2 in
  if (total_shares =? 0)%Z then Val []
  else
    let? shares_per_entry := floor_div total_shares number_of_entries in
    Val (map (fun k : nat =>
           let i := Z.of_nat k in
           let entry_shares :=
             if (i =? number_of_entries - 1)%Z
             then (total_shares - shares_per_entry * (number_of_entries - 1))%Z
             else shares_per_entry in
           let price_adjustment := 1 - inject_Z i * (2 # 100) in
           {| entry_number := (i + 1)%Z;
              entry_shares := entry_shares;
              target_price := entry_price * price_adjustment;
              entry_value := inject_Z entry_shares * entry_price * price_adjustment;
              percentage_of_total :=
                inject_Z entry_shares / inject_Z total_shares * 100 |})
         (seq 0 (Z.to_nat number_of_entries))).

Record sizing : Set := {
  rec_shares : Z;
  rec_value : Q
}.

Record recommendations : Set := {
  conservative : sizing;
  moderate : sizing;
  aggressive : sizing;
  volatility_adjusted : option sizing;
  kelly_criterion : option sizing
}.

(** [risk_pct_map.get(risk_tolerance, 2.0)] *)
Definition risk_pct_of (risk_tolerance : string) : Q :=
  if String.eqb risk_tolerance "Low" then 1
  else if String.eqb risk_tolerance "Medium" then 2
  else if String.eqb risk_tolerance "High" then 3
  else 2.

(** An optional number is truthy when it is given and not zero. *)
Definition truthy (o : option Q) : bool :=
  match o with Some q => negb (Qeqb q 0) | None => false end.

Definition get_position_recommendations
    (portfolio_value entry_price stop_loss_price : Q)
    (volatility : option Q) (risk_tolerance : string)
    (win_rate avg_win avg_loss : option Q) : py recommendations :=
  let risk_pct := risk_pct_of risk_tolerance in
  let basic_shares :=
    calculate_position_size portfolio_value entry_price stop_loss_price risk_pct in
  let half := py_int (inject_Z basic_shares * (5 # 10)) in
  let more := py_int (inject_Z basic_shares * (15 # 10)) in
  let? vol_rec :=
    match volatility with
    | Some v =>
        if truthy volatility then
          let vol_based_value :=
            calculate_volatility_based_size portfolio_value v 15 in
          let? per_share := py_div vol_based_value entry_price in
          let vol_shares := py_int per_share in
          Val (Some {| rec_shares := vol_shares;
                       rec_value := inject_Z vol_shares * entry_price |})
        else Val None
    | None => Val None
    end in
  let? kelly_rec :=
    match win_rate, avg_win, avg_loss with
    | Some w, Some aw, Some al =>
        if truthy win_rate && truthy avg_win && truthy avg_loss then
          let? kelly_pct := calculate_kelly_criterion w aw al in
          let kelly_value := portfolio_value * (kelly_pct / 100) * (5 # 10) in
          let? per_share := py_div kelly_value entry_price in
          let kelly_shares := py_int per_share in
          Val (Some {| rec_shares := kelly_shares;
                       rec_value := inject_Z kelly_shares * entry_price |})
        else Val None
    | _, _, _ => Val None
    end in
  Val {| conservative :=
           {| rec_shares := half; rec_value := inject_Z half * entry_price |};
         moderate :=
           {| rec_shares := basic_shares;
              rec_value := inject_Z basic_shares * entry_price |};
         aggressive :=
           {| rec_shares := more; rec_value := inject_Z more * entry_price |};
         volatility_adjusted := vol_rec;
         kelly_criterion := kelly_rec |}.

End PositionSizerRules.

(** ** src/trading_signals/stop_loss_calculator.py, the stop and target rules *)

Module StopLossRules.
Local Open Scope string_scope.
Local Open Scope py_scope.

(** app/config.py *)
Definition DEFAULT_STOP_LOSS_PCT : Q := 5.

(** The builtins [max(a, b)] and [min(a, b)] on floats that may be IEEE
    specials: the first argument unless the comparison with the second
    succeeds. *)
Definition x_max2 (a b : xnum) : xnum := if xgt b a then b else a.
Definition x_min2 (a b : xnum) : xnum := if xlt b a then b else a.

(** [s.tail(n)] *)
Definition tail {A : Type} (n : nat) (s : list A) : list A :=
  skipn (length s - n) s.

(** [s.min()]: NaN cells are skipped, and the result is NaN when nothing
    is left. *)
Definition pd_min (s : list xnum) : xnum :=
  match dropna s with
  | [] => NaN
  | x :: rest => fold_left (fun m y => if xlt y m then y else m) rest x
  end.

Definition _percentage_stop_loss (entry_price : Q) (stop_loss_pct : option Q) : Q :=
  let stop_loss_pct :=
    match stop_loss_pct with Some p => p | None => DEFAULT_STOP_LOSS_PCT end in
  let stop_loss := (entry_price * (1 - stop_loss_pct / 100))%Q in
  py_round stop_loss 2.

Definition calculate_time_based_stop (entry_price days_held max_days : Q) : py Q :=
  if Qleb max_days days_held
  then Val (_percentage_stop_loss entry_price
              (Some (DEFAULT_STOP_LOSS_PCT * (15 # 10))%Q))
  else
    let? time_factor := py_div days_held max_days in
    let adjusted_pct :=
      (DEFAULT_STOP_LOSS_PCT * (1 + time_factor * (5 # 10)))%Q in
    let stop_loss := (entry_price * (1 - adjusted_pct / 100))%Q in
    Val (py_round stop_loss 2).

Inductive exit_description : Set :=
| FirstTarget                      (* "First target - Take initial profits, ..." *)
| FinalTarget                      (* "Final target - Let winners run, ..." *)
| IntermediateTarget (exit_num : Z).

Definition _get_exit_description (exit_num total_exits : Z) : exit_description :=
  if (exit_num =? 1)%Z then FirstTarget
  else if (exit_num =? total_exits)%Z then FinalTarget
  else IntermediateTarget exit_num.

Record exit_target : Set := {
  exit_number : Z;
  exit_target_price : Q;
  position_percentage : Q;
  risk_reward_ratio : Q;
  description : exit_description
}.

Definition calculate_multiple_exit_strategy (entry_price stop_loss : Q)
    (num_exits : Z) : list exit_target :=
  let risk := (entry_price - stop_loss)%Q in
  if Qleb risk 0 then []
  else
    map (fun k : nat =>
           let i := (Z.of_nat k + 1)%Z in
           let target_price :=
             (entry_price + risk * inject_Z i * (15 # 10))%Q in
           let position_pct := (100 / inject_Z num_exits)%Q in
           let position_pct :=
             if (i =? num_exits)%Z
             then (100 - position_pct * (inject_Z num_exits - 1))%Q
             else position_pct in
           {| exit_number := i;
              exit_target_price := py_round target_price 2;
              position_percentage := py_round position_pct 1;
              risk_reward_ratio := py_round (inject_Z i * (15 # 10))%Q 2;
              description := _get_exit_description i num_exits |})
        (seq 0 (Z.to_nat num_exits)).

Definition adjust_stop_loss_after_profit
    (entry_price current_price current_stop profit_threshold : Q) : py Q :=
  let? ratio := py_div (current_price - entry_price)%Q entry_price in
  let profit_pct := (ratio * 100)%Q in
  if Qltb profit_pct profit_threshold then Val current_stop
  else if Qltb current_stop entry_price then
    let new_stop := (entry_price * (1001 # 1000))%Q in
    Val (py_round new_stop 2)
  else
    let trailing_pct := (DEFAULT_STOP_LOSS_PCT * (5 # 10))%Q in
    let new_trailing_stop := (current_price * (1 - trailing_pct / 100))%Q in
    let adjusted_stop := py_max2 current_stop new_trailing_stop in
    Val (py_round adjusted_stop 2).

End StopLossRules.

(** ** src/trading_signals/risk_analyzer.py, position value and risk/reward *)

Module RiskAnalyzerRules.
Local Open Scope string_scope.
Local Open Scope Q_scope.

(** [risk_per_trade.get(risk_tolerance, 0.02)] *)
Definition risk_per_trade (risk_tolerance : string) : Q :=
  if String.eqb risk_tolerance "Low" then 1 # 100
  else if String.eqb risk_tolerance "Medium" then 2 # 100
  else if String.eqb risk_tolerance "High" then 3 # 100
  else 2 # 100.

(** The value returned is [position_value]; the capped [shares] is
    computed and dropped. *)
Definition calculate_position_size
    (portfolio_size current_price stop_loss : Q) (risk_tolerance : string) : Q :=
  let risk_amount := portfolio_size * risk_per_trade risk_tolerance in
  let risk_per_share := current_price - stop_loss in
  if Qleb risk_per_share 0 then 0
  else
    let shares := risk_amount / risk_per_share in
    let position_value := shares * current_price in
    let max_position := portfolio_size * (2 # 10) in
    let shares :=
      if Qltb max_position position_value then max_position / current_price
      else shares in
    position_value.

Inductive assessment_label : Set := Invalid | Excellent | Good | Acceptable | Poor.

Record risk_reward : Set := {
  rr_ratio : Q;
  risk_amount : Q;
  reward_amount : Q;
  assessment : assessment_label
}.

Definition assess_risk_reward (entry_price stop_loss take_profit : Q) : risk_reward :=
  let risk := entry_price - stop_loss in
  let reward := take_profit - entry_price in
  if Qleb risk 0 then
    {| rr_ratio := 0; risk_amount := 0; reward_amount := 0; assessment := Invalid |}
  else
    let ratio := reward / risk in
    let assessment :=
      if Qleb 3 ratio then Excellent
      else if Qleb 2 ratio then Good
      else if Qleb 1 ratio then Acceptable
      else Poor in
    {| rr_ratio := ratio; risk_amount := risk; reward_amount := reward;
       assessment := assessment |}.

End RiskAnalyzerRules.

(** ** Predicates used to state the properties of the stop and target rules *)

Module RulesSpec.
Local Open Scope Q_scope.

(** A finite float between [lo] and [hi]. *)
Definition within (lo hi : Q) (x : xnum) : Prop :=
  match x with
  | Fin s => lo <= s <= hi
  | _ => False
  end.

(** An amount in whole cents. *)
Definition cents (q : Q) : Prop := exists z : Z, q * 100 == inject_Z z.

(** The grades of [assess_risk_reward], from worst to best. *)
Definition grade (a : RiskAnalyzerRules.assessment_label) : nat :=
  match a with
  | RiskAnalyzerRules.Invalid => 0
  | RiskAnalyzerRules.Poor => 1
  | RiskAnalyzerRules.Acceptable => 2
  | RiskAnalyzerRules.Good => 3
  | RiskAnalyzerRules.Excellent => 4
  end.

End RulesSpec.

(** ** The ledgers a backtest builds *)

Module LedgerSpec.
Import BacktestingEngine BacktestSpec.
Local Open Scope list_scope.

(** [ledger commission ts open ps]: the ledger [ts] is a sequence of round
    trips, a BUY followed by the SELL of the shares bought; [open] is the
    BUY not sold yet, if any, and [ps] the profits of the closed round
    trips, oldest first. *)
Inductive ledger (commission : Q) : list Trade -> option Trade -> list Q -> Prop :=
| ledger_nil : ledger commission [] None []
| ledger_buy (ts : list Trade) (ps : list Q) (i : nat) (price : Q) (n : Z) :
    ledger commission ts None ps -> (0 < n)%Z ->
    ledger commission (ts ++ [buy_trade commission i price n])
      (Some (buy_trade commission i price n)) ps
| ledger_sell (ts : list Trade) (ps : list Q) (b : Trade) (i : nat) (price : Q) :
    ledger commission ts (Some b) ps ->
    ledger commission (ts ++ [sell_trade commission i price (t_shares b)]) None
      (ps ++ [((price - t_price b) * inject_Z (t_shares b))%Q]).

(** The shares held, and what was paid for them. *)
Definition held (open : option Trade) : Z :=
  match open with Some b => t_shares b | None => 0%Z end.

Definition open_value (open : option Trade) : Q :=
  match open with Some b => t_value b | None => 0%Q end.

(** A state of the loop whose ledger is such a sequence, with the cash in
    step with it: the capital, less one commission per trade, plus the
    profits of the closed round trips, less what the open BUY paid. *)
Definition ledger_state (commission capital : Q) (st : State)
    (open : option Trade) (ps : list Q) : Prop :=
  ledger commission (trades st) open ps
  /\ shares st = held open
  /\ (cash st == capital
                 - commission * inject_Z (Z.of_nat (length (trades st)))
                 + py_sum ps - open_value open)%Q.

(** 80 bars: falling by 1 from 200 to bar 51, then rising by 3. *)
Definition dip : Prices :=
  map (fun i : nat =>
         inject_Z (if (i <? 52)%nat then 200 - Z.of_nat i
                   else 149 + 3 * (Z.of_nat i - 51)))
      (seq 0 80).

End LedgerSpec.

(** ** Vocabulary for the votes of the composite signal *)

Module VoteSpec.

(** How many of the sub-rules answered [a]. *)
Definition votes (a : action) (answers : list action) : nat :=
  length (List.filter (action_eqb a) answers).

(** A sensitivity that is neither Conservative nor Aggressive selects the
    configured thresholds. *)
Definition moderate (sensitivity : string) : Prop :=
  String.eqb sensitivity "Conservative" = false
  /\ String.eqb sensitivity "Aggressive" = false.

End VoteSpec.

(** ** src/trading_signals/risk_analyzer.py, volatility, drawdown and risk score *)

Module RiskAnalyzerMetrics.
Import StopLossRules.
Local Open Scope string_scope.
Local Open Scope py_scope.

(** [s.cumprod()]: a NaN cell stays NaN and is left out of the product. *)
Fixpoint cumprod_from (acc : xnum) (s : list xnum) : list xnum :=
  match s with
  | [] => []
  | NaN :: rest => NaN :: cumprod_from acc rest
  | x :: rest =>
      let a := (acc * x)%X in
      a :: cumprod_from a rest
  end.

Definition cumprod (s : list xnum) : list xnum := cumprod_from (Fin 1) s.

(** [s.expanding().max()]: the largest cell so far, NaN cells skipped; NaN
    while there is none. *)
Fixpoint expanding_max_from (acc : option xnum) (s : list xnum) : list xnum :=
  match s with
  | [] => []
  | x :: rest =>
      let acc' :=
        match x, acc with
        | NaN, _ => acc
        | _, None => Some x
        | _, Some m => Some (if (x >? m)%X then x else m)
        end in
      match acc' with Some m => m | None => NaN end
      :: expanding_max_from acc' rest
  end.

Definition expanding_max (s : list xnum) : list xnum := expanding_max_from None s.

Section Sqrt.
Variable sqrt : Q -> Q.

Definition _calculate_volatility (df : DataFrame) (period : nat) : result xnum :=
  let! cl := column df "Close" in
  let returns := dropna (pct_change 1 cl) in
  let period := if (length returns <? period)%nat then length returns else period in
  Ok (pd_std sqrt (tail period returns) * Fin (sqrt 252) * Fin 100)%X.

Definition _calculate_max_drawdown (df : DataFrame) : result xnum :=
  let! cl := column df "Close" in
  let cumulative := cumprod (map (fun r => (Fin 1 + r)%X) (pct_change 1 cl)) in
  let running_max := expanding_max cumulative in
  let drawdown :=
    zip_with (fun c m => ((c - m) / m * Fin 100)%X) cumulative running_max in
  Ok (pd_min drawdown).

Definition _calculate_risk_score (df : DataFrame) (risk_tolerance : string)
  : result xnum :=
  let! volatility := _calculate_volatility df 30 in
  let! drawdown := _calculate_max_drawdown df in
  let max_dd := xabs drawdown in
  let base_score := (volatility * Fin (6 # 10) + max_dd * Fin (4 # 10))%X in
  let risk_score :=
    if String.eqb risk_tolerance "Low"
    then x_min2 (Fin 10) (base_score * Fin (12 # 10))%X
    else if String.eqb risk_tolerance "High"
    then x_max2 (Fin 1) (base_score * Fin (8 # 10))%X
    else base_score in
  Ok (x_min2 (Fin 10) (x_max2 (Fin 1) risk_score)).

End Sqrt.

(** A cell that is NaN, or finite and positive; and two series that are
    NaN at the same places. *)
Definition nan_or_pos (x : xnum) : Prop :=
  x = NaN \/ exists q, x = Fin q /\ (0 < q)%Q.

Definition drawdown_cell (x : xnum) : Prop :=
  x = NaN \/ exists d, x = Fin d /\ (- (100) < d)%Q /\ (d <= 0)%Q.

(** A frame holding only the Close column. *)
Definition close_frame (closes : list Q) : DataFrame :=
  {| nrows := length closes; columns := <["Close" := map Fin closes]> ∅ |}.

End RiskAnalyzerMetrics.

(** ** src/trading_signals/risk_analyzer.py, the risk of a portfolio *)

Module RiskAnalyzerPortfolio.
Local Open Scope Q_scope.
Local Open Scope py_scope.

(** A holding: the ['shares'] and ['purchase_price'] of one entry. *)
Record holding : Set := {
  held_shares : Q;
  purchase_price : Q
}.

Record portfolio_risk : Set := {
  beta : Q;
  portfolio_sharpe_ratio : Q;
  portfolio_volatility : Q
}.

Definition calculate_portfolio_risk (portfolio : list holding) : py portfolio_risk :=
  match portfolio with
  | [] =>
      Val {| beta := 1; portfolio_sharpe_ratio := 0; portfolio_volatility := 0 |}
  | _ =>
      let total_value :=
        py_sum (map (fun p => held_shares p * purchase_price p) portfolio) in
      let? weights :=
        py_map (fun p => py_div (held_shares p * purchase_price p) total_value)
               portfolio in
      let portfolio_beta := py_sum (map (fun w => w * 1) weights) in
      Val {| beta := portfolio_beta; portfolio_sharpe_ratio := 5 # 10;
             portfolio_volatility := 15 |}
  end.

End RiskAnalyzerPortfolio.

(* ===================================================================== *)
(** * Part II: properties                                                 *)
(* ===================================================================== *)

Section NumFacts.
Local Open Scope Q_scope.

Lemma Qltb_lt (a b : Q) : Qltb a b = true <-> a < b.
Proof. unfold Qltb, Qlt. apply Z.ltb_lt. Qed.

Lemma Qleb_le (a b : Q) : Qleb a b = true <-> a <= b.
Proof. unfold Qleb, Qle. apply Z.leb_le. Qed.

Lemma Qeqb_eq (a b : Q) : Qeqb a b = true <-> a == b.
Proof. unfold Qeqb, Qeq. apply Z.eqb_eq. Qed.

Lemma Qltb_ge (a b : Q) : Qltb a b = false <-> b <= a.
Proof. unfold Qltb, Qle. apply Z.ltb_ge. Qed.

Lemma Qleb_gt (a b : Q) : Qleb a b = false <-> b < a.
Proof. unfold Qleb, Qlt. apply Z.leb_gt. Qed.

Lemma Qeqb_neq (a b : Q) : Qeqb a b = false <-> ~ a == b.
Proof. unfold Qeqb, Qeq. apply Z.eqb_neq. Qed.

Lemma cap_nonneg (pv : Q) : 0 < pv -> 0 <= pv * (20 / 100).
Proof.
  intros H. apply Qmult_le_0_compat; [apply Qlt_le_weak; exact H | discriminate].
Qed.

Lemma py_int_floor (q : Q) : 0 <= q -> py_int q = Qfloor q.
Proof.
  destruct q as [n d]. unfold Qle, py_int, Qfloor. simpl. intros H.
  apply Z.quot_div_nonneg; lia.
Qed.

End NumFacts.

(** ** Binary64 comparisons *)

Section Binary64Facts.
Local Open Scope float_scope.

(** Swapping the arguments of a comparison reverses its outcome. *)
Lemma SFcompare_flip (x y : spec_float) :
  SFcompare y x = option_map CompOpp (SFcompare x y).
Proof.
  destruct x as [sx | sx | | sx mx ex], y as [sy | sy | | sy my ey];
    try reflexivity;
    try (destruct sx; reflexivity); try (destruct sy; reflexivity);
    try (destruct sx, sy; reflexivity).
  cbn [SFcompare option_map]. f_equal.
  destruct sx, sy; try reflexivity;
    rewrite (Z.compare_antisym ex ey);
    destruct (ex ?= ey)%Z; cbn [CompOpp]; try reflexivity.
  - f_equal. symmetry. exact (Pos.compare_cont_antisym mx my Eq).
  - symmetry. exact (Pos.compare_cont_antisym mx my Eq).
Qed.

(** [x < y] excludes [y <= x]. *)
Lemma ltb_not_geb (x y : float) : (x <? y) = true -> (y <=? x) = false.
Proof.
  rewrite FloatAxioms.ltb_spec, FloatAxioms.leb_spec. unfold SFltb, SFleb.
  rewrite (SFcompare_flip (Prim2SF x) (Prim2SF y)).
  destruct (SFcompare (Prim2SF x) (Prim2SF y)) as [[| |] |];
    cbn [option_map CompOpp]; congruence.
Qed.

Lemma Prim2SF_zero : Prim2SF 0 = S754_zero false.
Proof. reflexivity. Qed.

(** Above a positive number is not zero. *)
Lemma above_positive_nonzero (x y : float) :
  (0 <? x) = true -> (x <? y) = true -> (y =? 0) = false.
Proof.
  rewrite !FloatAxioms.ltb_spec, FloatAxioms.eqb_spec, Prim2SF_zero. unfold SFltb, SFeqb.
  destruct (Prim2SF x) as [sx | sx | | sx mx ex], (Prim2SF y) as [sy | sy | | sy my ey];
    cbn [SFcompare]; try discriminate; try reflexivity;
    try (destruct sx; discriminate); try (destruct sy; discriminate || reflexivity);
    try (destruct sx, sy; discriminate || reflexivity).
Qed.

(** Below one half is not above twenty. *)
Lemma below_half_not_above_20 (x : float) :
  (x <? 0.5) = true -> (20 <? x) = false.
Proof.
  rewrite !FloatAxioms.ltb_spec.
  change (Prim2SF 0.5) with (S754_finite false 4503599627370496 (-53)).
  change (Prim2SF 20) with (S754_finite false 5629499534213120 (-48)).
  unfold SFltb.
  destruct (Prim2SF x) as [sx | sx | | sx mx ex]; cbn [SFcompare];
    try reflexivity; try (destruct sx; discriminate || reflexivity).
  destruct sx; [reflexivity |].
  destruct (ex ?= -53)%Z eqn:E.
  - apply Z.compare_eq in E. subst ex. intros _. reflexivity.
  - rewrite Z.compare_lt_iff in E. intros _.
    replace (-48 ?= ex)%Z with Gt; [reflexivity |].
    symmetry. apply Z.compare_gt_iff. lia.
  - discriminate.
Qed.

End Binary64Facts.

(** ** Position sizing *)

Section PositionSizerFacts.
Import Binary64 PositionSizerBinary64.
Local Open Scope float_scope.

(** C5, at the documented example and at the failing input.  A portfolio
    of 10000 at entry 50 and stop 48 is capped to 40 shares, worth exactly
    the cap of 2000.  The cap does not hold in general: for a portfolio of
    7700 at entry 1.1 and stop 1.0 the capped quotient 1540.0 / 1.1 rounds
    up to 1400.0, so 1400 shares are returned where the floor of the exact
    quotient is 1399; they are worth 1540.0000000000002, above the cap of
    1540.0 (and above 20 percent of 7700 also when the product is taken
    exactly), and the sizer's own [validate_position_size] computes
    20.000000000000004 percent and rejects the position.  For a portfolio
    of 1100 the same prices give 199 shares. *)
Theorem position_size_cap_exceeded :
  calculate_position_size 10000 50 48 2 = Ok 40%Z /\
  40 * 50 = 10000 * (MAX_POSITION_SIZE_PCT / 100) /\
  calculate_position_size 7700 1.1 1 2 = Ok 1400%Z /\
  7700 * (MAX_POSITION_SIZE_PCT / 100) = 1540 /\
  1400 * 1.1 = 1540.0000000000002 /\
  (7700 * (MAX_POSITION_SIZE_PCT / 100) <? 1400 * 1.1) = true /\
  (float_Q 7700 * (20 # 100) < float_Q 1400 * float_Q 1.1)%Q /\
  Qfloor (float_Q 7700 * (20 # 100) / float_Q 1.1) = 1399%Z /\
  validate_position_size 7700 (1400 * 1.1) 1 =
    Val {| size_is_valid := false;
           size_warnings := [LargePosition 20.000000000000004];
           size_errors := [ExceedsMaximum 20.000000000000004] |} /\
  calculate_position_size 1100 1.1 1 2 = Ok 199%Z.
Proof. repeat split; vm_compute; reflexivity. Qed.

End PositionSizerFacts.

(** ** Stop-loss validation *)

Section StopLossFacts.
Import Binary64 StopLossCalculator.
Local Open Scope float_scope.

Lemma validate_guards_pass (entry_price stop_loss : float) :
  (0 <? stop_loss) = true -> (stop_loss <? entry_price) = true ->
  validate_stop_loss entry_price stop_loss =
    (let loss_pct := (entry_price - stop_loss) / entry_price * 100 in
     let '(valid1, errors1, warnings1) :=
       if 20 <? loss_pct then (false, [TooWide loss_pct], [])
       else if 10 <? loss_pct then (true, [], [Wide loss_pct])
       else (true, [], []) in
     let '(warnings2, suggestions2) :=
       if loss_pct <? 0.5
       then ((warnings1 ++ [VeryTight loss_pct])%list, [ConsiderWidening])
       else (warnings1, []) in
     let suggestions3 :=
       if loss_pct <? 2 then (suggestions2 ++ [BelowTypicalRange])%list
       else if 8 <? loss_pct then (suggestions2 ++ [AboveTypicalRange])%list
       else (suggestions2 ++ [WithinOptimalRange])%list in
     Val {| is_valid := valid1; errors := errors1;
            warnings := warnings2; suggestions := suggestions3 |}).
Proof.
  intros Hpos Hlt. unfold validate_stop_loss, float_div.
  rewrite (ltb_not_geb _ _ Hlt), (ltb_not_geb _ _ Hpos),
    (above_positive_nonzero _ _ Hpos Hlt).
  reflexivity.
Qed.

(** C6, the counterexample: at entry 100 and stop 80 the loss percentage
    is computed as exactly 20.0, and the result is valid, with the 'wide'
    warning and no error. *)
Lemma validate_stop_loss_100_80 :
  (100 - 80) / 100 * 100 = 20 /\
  validate_stop_loss 100 80 =
    Val {| is_valid := true; errors := []; warnings := [Wide 20];
           suggestions := [AboveTypicalRange] |}.
Proof. split; vm_compute; reflexivity. Qed.

(** C6 (amended).  For 0 < stop < entry the validation returns, and it
    decides on the loss percentage as computed in binary64,
    [((entry - stop) / entry) * 100]: the result is invalid, with the
    'too wide' error, exactly when that number is above 20, and has no
    error otherwise; when it is below 0.5 the result is valid and carries
    the premature-trigger warning.  The computed number is not the
    percentage of the decimal figures: at entry 3 and stop 2.4, which
    read as a loss of 20 percent, it is 20.000000000000004 and the stop
    is rejected. *)
Theorem validate_stop_loss_thresholds (entry_price stop_loss : float) :
  (0 <? stop_loss) = true -> (stop_loss <? entry_price) = true ->
  let loss_pct := (entry_price - stop_loss) / entry_price * 100 in
  (exists v, validate_stop_loss entry_price stop_loss = Val v /\
     is_valid v = negb (20 <? loss_pct) /\
     ((20 <? loss_pct) = true -> errors v = [TooWide loss_pct]) /\
     ((20 <? loss_pct) = false -> errors v = []) /\
     ((loss_pct <? 0.5) = true ->
        is_valid v = true /\ In (VeryTight loss_pct) (warnings v))) /\
  (3 - 2.4) / 3 * 100 = 20.000000000000004 /\
  validate_stop_loss 3 2.4 =
    Val {| is_valid := false; errors := [TooWide 20.000000000000004];
           warnings := []; suggestions := [AboveTypicalRange] |}.
Proof.
  intros Hpos Hlt loss_pct. split; [| split; vm_compute; reflexivity].
  rewrite (validate_guards_pass _ _ Hpos Hlt). cbv zeta. fold loss_pct.
  destruct (20 <? loss_pct) eqn:Hwide.
  - destruct (loss_pct <? 0.5) eqn:Htight.
    + rewrite (below_half_not_above_20 _ Htight) in Hwide. discriminate.
    + eexists. split; [reflexivity |]. cbn.
      repeat split; try reflexivity; try discriminate.
  - destruct (10 <? loss_pct), (loss_pct <? 0.5);
      (eexists; split; [reflexivity |]); cbn;
      repeat split; try reflexivity; try discriminate; cbn; auto.
Qed.

Lemma validate_stop_loss_thresholds_witness :
  (0 <? 99.6) = true /\ (99.6 <? 100) = true /\
  exists v, validate_stop_loss 100 99.6 = Val v /\
    is_valid v = true /\
    In (VeryTight ((100 - 99.6) / 100 * 100)) (warnings v).
Proof.
  split; [reflexivity |]. split; [reflexivity |].
  destruct (validate_stop_loss_thresholds 100 99.6 eq_refl eq_refl)
    as [(v & Hv & _ & _ & _ & Htight) _].
  exists v. split; [exact Hv |]. apply Htight. reflexivity.
Defined.

End StopLossFacts.

(** ** Signal generator *)

Section SignalGeneratorFacts.
Import SignalGenerator SignalSpec.
Local Open Scope string_scope.

Lemma neutral_hold_signal (rs : list reason) : neutral_hold (Ok (hold_signal rs)).
Proof. exists (hold_signal rs). repeat split. Qed.

Lemma wf_frame_lookup (df : DataFrame) :
  map_Forall (fun _ xs => length xs = nrows df) (columns df) -> wf_frame df.
Proof. intros H c xs Hc. exact (H c xs Hc). Qed.

Lemma one_bar_rsi_wf : wf_frame one_bar_rsi.
Proof. apply wf_frame_lookup. apply (bool_decide_unpack _). vm_compute. exact I. Qed.

Lemma one_bar_macd_wf : wf_frame one_bar_macd.
Proof. apply wf_frame_lookup. apply (bool_decide_unpack _). vm_compute. exact I. Qed.

Lemma one_bar_plain_wf : wf_frame one_bar_plain.
Proof. apply wf_frame_lookup. apply (bool_decide_unpack _). vm_compute. exact I. Qed.

Lemma one_bar_bands_wf : wf_frame one_bar_bands.
Proof. apply wf_frame_lookup. apply (bool_decide_unpack _). vm_compute. exact I. Qed.

(** On a one-bar frame the RSI rule reads the bar's RSI and may answer BUY,
    the composite follows two agreeing rules, and the MACD rule fails
    reading the previous bar. *)
Lemma short_frame_not_neutral :
  ((nrows one_bar_rsi < 2)%nat /\ wf_frame one_bar_rsi
   /\ _generate_rsi_signal one_bar_rsi "Moderate"
      = Ok {| signal := BUY; strength := 6; confidence := 90;
              reasons := [RsiOversold (Fin 10)] |}
   /\ ~ neutral_hold (_generate_rsi_signal one_bar_rsi "Moderate"))
  /\ ((nrows one_bar_bands < 2)%nat /\ wf_frame one_bar_bands
      /\ generate_signal one_bar_bands "AI Composite" "Moderate"
         = Ok {| signal := BUY; strength := 7; confidence := 50;
                 reasons := [RsiOversold (Fin 10); BelowLowerBand] |}
      /\ ~ neutral_hold (generate_signal one_bar_bands "AI Composite" "Moderate"))
  /\ ((nrows one_bar_macd < 2)%nat /\ wf_frame one_bar_macd
      /\ _generate_macd_signal one_bar_macd "Moderate" = Raise IndexError
      /\ ~ neutral_hold (_generate_macd_signal one_bar_macd "Moderate")).
Proof.
  assert (E1 : _generate_rsi_signal one_bar_rsi "Moderate"
     = Ok {| signal := BUY; strength := 6; confidence := 90;
             reasons := [RsiOversold (Fin 10)] |}) by (vm_compute; reflexivity).
  assert (E2 : _generate_macd_signal one_bar_macd "Moderate" = Raise IndexError)
    by (vm_compute; reflexivity).
  assert (E3 : generate_signal one_bar_bands "AI Composite" "Moderate"
     = Ok {| signal := BUY; strength := 7; confidence := 50;
             reasons := [RsiOversold (Fin 10); BelowLowerBand] |})
    by (vm_compute; reflexivity).
  split; [| split]; (split; [simpl; lia |]).
  - split; [exact one_bar_rsi_wf |]. split; [exact E1 |].
    rewrite E1. intros (s & Hs & Hh & _). inversion Hs; subst s. discriminate Hh.
  - split; [exact one_bar_bands_wf |]. split; [exact E3 |].
    rewrite E3. intros (s & Hs & Hh & _). inversion Hs; subst s. discriminate Hh.
  - split; [exact one_bar_macd_wf |]. split; [exact E2 |].
    rewrite E2. intros (s & Hs & _). discriminate Hs.
Qed.

Lemma rsi_absent (df : DataFrame) (sens : string) :
  has_column df "RSI" = false ->
  _generate_rsi_signal df sens = Ok (hold_signal []).
Proof. intros H. unfold _generate_rsi_signal. rewrite H. reflexivity. Qed.

Lemma macd_absent (df : DataFrame) (sens : string) :
  has_column df "MACD" = false \/ has_column df "MACD_Signal" = false ->
  _generate_macd_signal df sens = Ok (hold_signal []).
Proof.
  intros [H | H]; unfold _generate_macd_signal; rewrite H; simpl;
    [| rewrite orb_true_r]; reflexivity.
Qed.

Lemma ma_absent (df : DataFrame) (sens : string) :
  has_column df "SMA_20" = false \/ has_column df "SMA_50" = false ->
  _generate_ma_signal df sens = Ok (hold_signal []).
Proof.
  intros [H | H]; unfold _generate_ma_signal; rewrite H; simpl;
    [| rewrite orb_true_r]; reflexivity.
Qed.

Lemma bb_absent (df : DataFrame) (sens : string) :
  has_column df "BB_Upper" = false \/ has_column df "BB_Lower" = false ->
  _generate_bb_signal df sens = Ok (hold_signal []).
Proof.
  intros [H | H]; unfold _generate_bb_signal; rewrite H; simpl;
    [| rewrite orb_true_r]; reflexivity.
Qed.

Lemma composite_absent (df : DataFrame) (sens : string) :
  has_column df "RSI" = false ->
  has_column df "MACD" = false \/ has_column df "MACD_Signal" = false ->
  has_column df "SMA_20" = false \/ has_column df "SMA_50" = false ->
  has_column df "BB_Upper" = false \/ has_column df "BB_Lower" = false ->
  _generate_composite_signal df sens = Ok (hold_signal [NoClearSignal]).
Proof.
  intros H1 H2 H3 H4. unfold _generate_composite_signal.
  rewrite (rsi_absent df sens H1), (macd_absent df sens H2),
    (ma_absent df sens H3), (bb_absent df sens H4).
  reflexivity.
Qed.

Lemma column_one_bar (df : DataFrame) (c : string) :
  wf_frame df -> nrows df = 1%nat -> has_column df c = true ->
  exists x, column df c = Ok [x].
Proof.
  intros Hwf Hn Hc. unfold has_column in Hc. unfold column.
  destruct (columns df !! c) as [xs |] eqn:E; [| discriminate Hc].
  specialize (Hwf c xs E). rewrite Hn in Hwf.
  destruct xs as [| x [| y xs]]; try discriminate Hwf.
  exists x. reflexivity.
Qed.

Lemma momentum_one_bar (df : DataFrame) (sens : string) :
  wf_frame df -> nrows df = 1%nat -> has_column df "Close" = true ->
  _generate_momentum_signal df sens = Ok (hold_signal [WeakMomentum]).
Proof.
  intros Hwf Hn Hc. unfold _generate_momentum_signal.
  destruct (column_one_bar df "Close" Hwf Hn Hc) as [x ->].
  cbn [bind pct_change length seq map Nat.ltb Nat.leb iloc_neg].
  destruct (has_column df "Volume_Ratio") eqn:Hv.
  - destruct (column_one_bar df "Volume_Ratio" Hwf Hn Hv) as [v ->].
    reflexivity.
  - reflexivity.
Qed.

(** C4 (amended). On a frame with fewer than 2 bars, each of the RSI,
    MACD, moving-average and Bollinger rules returns HOLD with confidence
    50 and strength 5, without raising, when the frame lacks a column the
    rule reads first; the composite, and generate_signal under every
    strategy but Momentum, do so when all four rules lack a column; the
    momentum rule does so on a frame of exactly one bar. *)
Theorem short_frame_neutral (df : DataFrame) (sensitivity : string) :
  wf_frame df -> (nrows df < 2)%nat ->
  (has_column df "RSI" = false ->
     neutral_hold (_generate_rsi_signal df sensitivity))
  /\ (has_column df "MACD" = false \/ has_column df "MACD_Signal" = false ->
     neutral_hold (_generate_macd_signal df sensitivity))
  /\ (has_column df "SMA_20" = false \/ has_column df "SMA_50" = false ->
     neutral_hold (_generate_ma_signal df sensitivity))
  /\ (has_column df "BB_Upper" = false \/ has_column df "BB_Lower" = false ->
     neutral_hold (_generate_bb_signal df sensitivity))
  /\ (nrows df = 1%nat -> has_column df "Close" = true ->
     neutral_hold (_generate_momentum_signal df sensitivity))
  /\ (has_column df "RSI" = false ->
      has_column df "MACD" = false \/ has_column df "MACD_Signal" = false ->
      has_column df "SMA_20" = false \/ has_column df "SMA_50" = false ->
      has_column df "BB_Upper" = false \/ has_column df "BB_Lower" = false ->
      neutral_hold (_generate_composite_signal df sensitivity)
      /\ forall strategy : string, strategy <> "Momentum" ->
           neutral_hold (generate_signal df strategy sensitivity)).
Proof.
  intros Hwf Hlt.
  split; [intros H; rewrite rsi_absent by exact H; apply neutral_hold_signal |].
  split; [intros H; rewrite macd_absent by exact H; apply neutral_hold_signal |].
  split; [intros H; rewrite ma_absent by exact H; apply neutral_hold_signal |].
  split; [intros H; rewrite bb_absent by exact H; apply neutral_hold_signal |].
  split; [intros Hn Hc; rewrite momentum_one_bar by assumption;
          apply neutral_hold_signal |].
  intros H1 H2 H3 H4.
  assert (Hc : neutral_hold (_generate_composite_signal df sensitivity)).
  { rewrite composite_absent by assumption. apply neutral_hold_signal. }
  split; [exact Hc |]. intros strategy Hs. unfold generate_signal.
  repeat match goal with
  | |- context [String.eqb ?a ?b] =>
      let E := fresh "E" in
      destruct (String.eqb a b) eqn:E; [apply String.eqb_eq in E |]
  end; try exact Hc.
  - rewrite rsi_absent by exact H1. apply neutral_hold_signal.
  - rewrite macd_absent by exact H2. apply neutral_hold_signal.
  - rewrite ma_absent by exact H3. apply neutral_hold_signal.
  - rewrite bb_absent by exact H4. apply neutral_hold_signal.
  - contradiction.
Qed.

(** *** Bounds on strength and confidence *)

Lemma bounded_hold (lo : Z) (rs : list reason) :
  (lo <= 5)%Z -> bounded lo (Ok (hold_signal rs)).
Proof. intros H. exists (hold_signal rs). simpl. repeat split; lia. Qed.

Lemma iloc_neg_ok (xs : list xnum) (k : nat) :
  (1 <= k <= length xs)%nat -> exists x, iloc_neg k xs = Ok x /\ In x xs.
Proof.
  intros Hk. unfold iloc_neg.
  destruct (xs !! (length xs - k)%nat) as [x |] eqn:E.
  - exists x. replace (k <=? length xs)%nat with true
      by (symmetry; apply Nat.leb_le; lia).
    split; [reflexivity |]. apply list_elem_of_In. eapply list_elem_of_lookup_2. exact E.
  - apply lookup_ge_None in E. lia.
Qed.

Lemma py_int_nonneg (q : Q) : (0 <= q)%Q -> (0 <= py_int q)%Z.
Proof.
  intros H. rewrite (py_int_floor q H).
  change 0%Z with (Qfloor 0). apply Qfloor_resp_le. exact H.
Qed.

(** Reading a present column, and its last or previous cell. *)
Lemma read_column (df : DataFrame) (c : string) :
  has_column df c = true ->
  exists xs, columns df !! c = Some xs /\ column df c = Ok xs.
Proof.
  unfold has_column, column. intros Hc.
  destruct (columns df !! c) as [xs |]; [| discriminate Hc].
  exists xs. split; reflexivity.
Qed.

Lemma read_cell (df : DataFrame) (c : string) (xs : list xnum) (k : nat) :
  frame_ok df -> columns df !! c = Some xs -> (1 <= k <= 2)%nat ->
  exists x, iloc_neg k xs = Ok x /\ In x xs /\ is_inf x = false.
Proof.
  intros Hok E Hk.
  pose proof (ok_wf df Hok c xs E) as Hlen.
  pose proof (ok_rows df Hok) as Hrows.
  destruct (iloc_neg_ok xs k) as (x & Hx & Hin); [lia |].
  exists x. repeat split; try assumption.
  exact (ok_no_inf df Hok c xs x E Hin).
Qed.

Ltac open_column Hc xs E :=
  let Hcol := fresh "Hcol" in
  destruct (read_column _ _ Hc) as (xs & E & Hcol);
  rewrite Hcol; cbn [bind].

Ltac open_cell Hok E k x Hin Hinf :=
  let Hil := fresh "Hil" in
  destruct (read_cell _ _ _ k Hok E) as (x & Hil & Hin & Hinf); [lia |];
  rewrite Hil; cbn [bind].

Lemma rsi_bounded (df : DataFrame) (sens : string) :
  frame_ok df -> bounded 0 (_generate_rsi_signal df sens).
Proof.
  intros Hok. unfold _generate_rsi_signal.
  destruct (has_column df "RSI") eqn:Hc; simpl negb; cbv iota;
    [| apply bounded_hold; lia].
  open_column Hc xs E. open_cell Hok E 1%nat rsi Hin Hinf.
  assert (Hth : exists lo hi : Q,
     (if String.eqb sens "Conservative" then (25%Q, 75%Q)
      else if String.eqb sens "Aggressive" then (35%Q, 65%Q)
      else (RSI_OVERSOLD, RSI_OVERBOUGHT)) = (lo, hi)).
  { destruct (String.eqb sens "Conservative"); [eauto |].
    destruct (String.eqb sens "Aggressive"); eauto. }
  destruct Hth as (lo & hi & ->).
  destruct rsi as [r | | |]; try discriminate Hinf;
    [| apply bounded_hold; lia].
  cbn [xlt xgt].
  destruct (Qltb r lo) eqn:E1.
  - apply Qltb_lt in E1. cbn.
    eexists; split; [reflexivity |]. cbn [strength confidence].
    assert (0 <= py_int ((lo + - r) / 3))%Z.
    { apply py_int_nonneg. apply Qle_shift_div_l; [reflexivity | lra]. }
    assert (0 <= py_int (70 + (lo + - r)))%Z by (apply py_int_nonneg; lra).
    lia.
  - destruct (Qltb hi r) eqn:E2; [| apply bounded_hold; lia].
    apply Qltb_lt in E2. cbn.
    eexists; split; [reflexivity |]. cbn [strength confidence].
    assert (0 <= py_int ((r + - hi) / 3))%Z.
    { apply py_int_nonneg. apply Qle_shift_div_l; [reflexivity | lra]. }
    assert (0 <= py_int (70 + (r + - hi)))%Z by (apply py_int_nonneg; lra).
    lia.
Qed.

Lemma xsub_no_inf (a b : xnum) :
  is_inf a = false -> is_inf b = false -> is_inf (a - b)%X = false.
Proof. destruct a, b; simpl; intros; try discriminate; reflexivity. Qed.

Ltac close_bounded :=
  eexists; split; [reflexivity |]; cbn [strength confidence]; lia.

Lemma macd_bounded (df : DataFrame) (sens : string) :
  frame_ok df -> bounded 0 (_generate_macd_signal df sens).
Proof.
  intros Hok. unfold _generate_macd_signal.
  destruct (has_column df "MACD") eqn:Hc1; cbn [negb orb];
    [| apply bounded_hold; lia].
  destruct (has_column df "MACD_Signal") eqn:Hc2; cbn [negb orb];
    [| apply bounded_hold; lia].
  open_column Hc1 m E1. open_cell Hok E1 1%nat macd Hin1 Hinf1.
  open_column Hc2 ms E2. open_cell Hok E2 1%nat msig Hin2 Hinf2.
  open_cell Hok E1 2%nat macd_prev Hin3 Hinf3.
  open_cell Hok E2 2%nat signal_prev Hin4 Hinf4.
  pose proof (xsub_no_inf macd msig Hinf1 Hinf2) as Hd.
  generalize dependent (macd - msig)%X. intros diff Hd.
  generalize (macd_prev - signal_prev)%X. intros prev_diff.
  destruct diff as [d | | |]; try discriminate Hd.
  - cbn [xabs xmul xadd xint bind].
    assert (0 <= py_int (Qabs d * 10))%Z.
    { apply py_int_nonneg. pose proof (Qabs_nonneg d). nra. }
    assert (0 <= py_int (65 + Qabs d * 20))%Z.
    { apply py_int_nonneg. pose proof (Qabs_nonneg d). nra. }
    destruct (_ && _); [close_bounded |].
    destruct (_ && _); [close_bounded |].
    destruct (xgt _ _); [close_bounded |].
    destruct (xlt _ _); [close_bounded |].
    apply bounded_hold; lia.
  - cbn [xgt xlt]. rewrite !andb_false_r.
    destruct prev_diff; apply bounded_hold; lia.
Qed.

Lemma ma_bounded (df : DataFrame) (sens : string) :
  frame_ok df -> bounded 0 (_generate_ma_signal df sens).
Proof.
  intros Hok. unfold _generate_ma_signal.
  destruct (has_column df "SMA_20") eqn:Hc1; cbn [negb orb];
    [| apply bounded_hold; lia].
  destruct (has_column df "SMA_50") eqn:Hc2; cbn [negb orb];
    [| apply bounded_hold; lia].
  open_column Hc1 s20 E1. open_cell Hok E1 1%nat sma_20 Hin1 Hinf1.
  open_column Hc2 s50 E2. open_cell Hok E2 1%nat sma_50 Hin2 Hinf2.
  open_cell Hok E1 2%nat sma_20_prev Hin3 Hinf3.
  open_cell Hok E2 2%nat sma_50_prev Hin4 Hinf4.
  pose proof (ok_close df Hok) as Hc3.
  open_column Hc3 cl E3. open_cell Hok E3 1%nat price Hin5 Hinf5.
  destruct (_ && _); [close_bounded |].
  destruct (_ && _); [close_bounded |].
  destruct (_ && _); [close_bounded |].
  destruct (_ && _); [close_bounded |].
  apply bounded_hold; lia.
Qed.

Lemma bb_bounded (df : DataFrame) (sens : string) :
  frame_ok df -> bounded 0 (_generate_bb_signal df sens).
Proof.
  intros Hok. unfold _generate_bb_signal.
  destruct (has_column df "BB_Upper") eqn:Hc1; cbn [negb orb];
    [| apply bounded_hold; lia].
  destruct (has_column df "BB_Lower") eqn:Hc2; cbn [negb orb];
    [| apply bounded_hold; lia].
  pose proof (ok_close df Hok) as Hc3.
  pose proof (ok_middle df Hok Hc1 Hc2) as Hc4.
  open_column Hc3 cl E3. open_cell Hok E3 1%nat price Hin3 Hinf3.
  open_column Hc1 up E1. open_cell Hok E1 1%nat bb_upper Hin1 Hinf1.
  open_column Hc2 lo E2. open_cell Hok E2 1%nat bb_lower Hin2 Hinf2.
  open_column Hc4 mid E4. open_cell Hok E4 1%nat bb_middle Hin4 Hinf4.
  destruct (ok_close_pos df Hok cl price E3 Hin3) as (p & -> & Hp).
  destruct (xlt (Fin p) bb_lower) eqn:C1.
  - destruct bb_lower as [l | | |]; try discriminate.
    cbn [xlt] in C1. apply Qltb_lt in C1.
    assert (Hl : Qeqb l 0 = false) by (apply Qeqb_neq; lra).
    cbn [xsub xneg xadd xdiv xmul]. rewrite Hl. cbn [xmul xint bind].
    assert (0 <= py_int ((l + - p) / l * 100))%Z.
    { apply py_int_nonneg.
      assert (0 <= (l + - p) / l)%Q by (apply Qle_shift_div_l; lra). nra. }
    close_bounded.
  - destruct (xgt (Fin p) bb_upper) eqn:C2; [| apply bounded_hold; lia].
    destruct (ok_upper_pos df Hok up bb_upper E1 Hin1) as [-> | (u & -> & Hu)];
      [discriminate C2 |].
    cbn [xgt xlt] in C2. apply Qltb_lt in C2.
    assert (Hl : Qeqb u 0 = false) by (apply Qeqb_neq; lra).
    cbn [xsub xneg xadd xdiv xmul]. rewrite Hl. cbn [xmul xint bind].
    assert (0 <= py_int ((p + - u) / u * 100))%Z.
    { apply py_int_nonneg.
      assert (0 <= (p + - u) / u)%Q by (apply Qle_shift_div_l; lra). nra. }
    close_bounded.
Qed.

Lemma pct_change_length (n : nat) (s : list xnum) :
  length (pct_change n s) = length s.
Proof. unfold pct_change. rewrite length_map, length_seq. reflexivity. Qed.

Lemma momentum_bounded (df : DataFrame) (sens : string) :
  frame_ok df -> bounded 0 (_generate_momentum_signal df sens).
Proof.
  intros Hok. unfold _generate_momentum_signal.
  pose proof (ok_close df Hok) as Hc.
  open_column Hc cl E.
  pose proof (ok_wf df Hok _ _ E) as Hlen. pose proof (ok_rows df Hok) as Hrows.
  destruct (iloc_neg_ok (pct_change 5 cl) 1) as (r & -> & _).
  { rewrite pct_change_length. lia. }
  cbn [bind].
  destruct (has_column df "Volume_Ratio") eqn:Hv.
  - open_column Hv v Ev. open_cell Hok Ev 1%nat vr Hin Hinf.
    destruct (_ && _); [close_bounded |].
    destruct (_ && _); [close_bounded |].
    apply bounded_hold; lia.
  - cbn [bind].
    destruct (_ && _); [close_bounded |].
    destruct (_ && _); [close_bounded |].
    apply bounded_hold; lia.
Qed.

Lemma composite_bounded (df : DataFrame) (sens : string) :
  frame_ok df -> bounded 0 (_generate_composite_signal df sens).
Proof.
  intros Hok. unfold _generate_composite_signal.
  destruct (rsi_bounded df sens Hok) as (s1 & -> & _).
  destruct (macd_bounded df sens Hok) as (s2 & -> & _).
  destruct (ma_bounded df sens Hok) as (s3 & -> & _).
  destruct (bb_bounded df sens Hok) as (s4 & -> & _).
  cbn [bind].
  destruct s1 as [a1 ? ? ?], s2 as [a2 ? ? ?], s3 as [a3 ? ? ?], s4 as [a4 ? ? ?].
  destruct a1, a2, a3, a4; cbn.
  all: try (apply bounded_hold; lia).
  all: eexists; (split; [reflexivity |]); cbn [strength confidence].
  all: try lia.
  all: vm_compute; split; split; discriminate.
Qed.

(** *** The caps hold on every frame *)

Lemma capped_raise (e : exn) : capped (@Raise Signal e).
Proof. intros s H. discriminate H. Qed.

Lemma capped_hold (rs : list reason) : capped (Ok (hold_signal rs)).
Proof. intros s H. inversion H; subst s. simpl. lia. Qed.

Ltac close_capped :=
  let s := fresh "s" in let H := fresh "H" in
  intros s H; inversion H; subst s; cbn [strength confidence]; lia.

Ltac step_read :=
  match goal with
  | |- capped (bind ?c _) =>
      let x := fresh "x" in let e := fresh "e" in
      destruct c as [x | e]; cbn [bind]; [| apply capped_raise]
  end.

Lemma rsi_capped (df : DataFrame) (sens : string) :
  capped (_generate_rsi_signal df sens).
Proof.
  unfold _generate_rsi_signal.
  destruct (negb _); [apply capped_hold |].
  step_read. step_read.
  destruct (if String.eqb sens "Conservative" then _ else _) as [lo hi].
  rename x0 into rsi.
  destruct (rsi <? Fin lo)%X eqn:E1.
  - step_read. destruct (xint _) as [j |] eqn:Ej; cbn [bind];
      [| apply capped_raise].
    assert (0 <= j)%Z.
    { destruct rsi as [r | | |]; try discriminate E1; try discriminate Ej.
      cbn [xlt] in E1. apply Qltb_lt in E1. cbn in Ej. inversion Ej; subst j.
      apply py_int_nonneg. lra. }
    close_capped.
  - destruct (rsi >? Fin hi)%X eqn:E2; [| apply capped_hold].
    step_read. destruct (xint _) as [j |] eqn:Ej; cbn [bind];
      [| apply capped_raise].
    assert (0 <= j)%Z.
    { destruct rsi as [r | | |]; try discriminate E2; try discriminate Ej.
      cbn [xgt xlt] in E2. apply Qltb_lt in E2. cbn in Ej. inversion Ej; subst j.
      apply py_int_nonneg. lra. }
    close_capped.
Qed.

Lemma macd_confidence_nonneg (diff : xnum) (j : Z) :
  xint (Fin 65 + xabs diff * Fin 20)%X = Ok j -> (0 <= j)%Z.
Proof.
  destruct diff as [d | | |]; try discriminate.
  cbn [xabs xmul xadd xint]. intros H. inversion H; subst j.
  apply py_int_nonneg. pose proof (Qabs_nonneg d). nra.
Qed.

Lemma macd_capped (df : DataFrame) (sens : string) :
  capped (_generate_macd_signal df sens).
Proof.
  unfold _generate_macd_signal.
  destruct (_ || _); [apply capped_hold |].
  do 6 step_read.
  destruct (_ && _).
  { step_read. destruct (xint _) as [j |] eqn:Ej; cbn [bind];
      [| apply capped_raise].
    pose proof (macd_confidence_nonneg _ _ Ej). close_capped. }
  destruct (_ && _).
  { step_read. destruct (xint _) as [j |] eqn:Ej; cbn [bind];
      [| apply capped_raise].
    pose proof (macd_confidence_nonneg _ _ Ej). close_capped. }
  destruct (_ >? _)%X; [close_capped |].
  destruct (_ <? _)%X; [close_capped |].
  apply capped_hold.
Qed.

Lemma ma_capped (df : DataFrame) (sens : string) :
  capped (_generate_ma_signal df sens).
Proof.
  unfold _generate_ma_signal.
  destruct (_ || _); [apply capped_hold |].
  do 8 step_read.
  destruct (_ && _); [close_capped |].
  destruct (_ && _); [close_capped |].
  destruct (_ && _); [close_capped |].
  destruct (_ && _); [close_capped |].
  apply capped_hold.
Qed.

Lemma bb_capped (df : DataFrame) (sens : string) :
  capped (_generate_bb_signal df sens).
Proof.
  unfold _generate_bb_signal.
  destruct (_ || _); [apply capped_hold |].
  do 8 step_read.
  destruct (_ <? _)%X; [step_read; close_capped |].
  destruct (_ >? _)%X; [step_read; close_capped |].
  apply capped_hold.
Qed.

Lemma momentum_capped (df : DataFrame) (sens : string) :
  capped (_generate_momentum_signal df sens).
Proof.
  unfold _generate_momentum_signal.
  do 2 step_read.
  destruct (has_column df "Volume_Ratio").
  - destruct (column df "Volume_Ratio") as [v |]; cbn [bind];
      [| apply capped_raise].
    destruct (iloc_neg 1 v) as [vr |]; cbn [bind]; [| apply capped_raise].
    destruct (_ && _); [close_capped |].
    destruct (_ && _); [close_capped |]. apply capped_hold.
  - cbn [bind].
    destruct (_ && _); [close_capped |].
    destruct (_ && _); [close_capped |]. apply capped_hold.
Qed.

Lemma composite_capped (df : DataFrame) (sens : string) :
  capped (_generate_composite_signal df sens).
Proof.
  unfold _generate_composite_signal.
  destruct (_generate_rsi_signal df sens) as [s1 |]; cbn [bind];
    [| apply capped_raise].
  destruct (_generate_macd_signal df sens) as [s2 |]; cbn [bind];
    [| apply capped_raise].
  destruct (_generate_ma_signal df sens) as [s3 |]; cbn [bind];
    [| apply capped_raise].
  destruct (_generate_bb_signal df sens) as [s4 |]; cbn [bind];
    [| apply capped_raise].
  destruct s1 as [a1 ? ? ?], s2 as [a2 ? ? ?], s3 as [a3 ? ? ?], s4 as [a4 ? ? ?].
  destruct a1, a2, a3, a4; cbn.
  all: try apply capped_hold.
  all: intros s H; inversion H; subst s; cbn [strength confidence];
    first [lia | vm_compute; repeat split; discriminate].
Qed.

(** On every frame, whatever generate_signal returns has its strength
    capped at 10 and its confidence in [0,100]. *)
Lemma generate_signal_capped (df : DataFrame) (strategy sensitivity : string) :
  capped (generate_signal df strategy sensitivity).
Proof.
  unfold generate_signal.
  repeat match goal with
  | |- context [String.eqb ?a ?b] => destruct (String.eqb a b)
  end;
  first [ apply composite_capped | apply rsi_capped | apply macd_capped
        | apply ma_capped | apply bb_capped | apply momentum_capped ].
Qed.

Lemma frame_okb_sound (df : DataFrame) :
  FrameCheck.frame_okb df = true -> frame_ok df.
Proof.
  unfold FrameCheck.frame_okb. rewrite !andb_true_iff.
  intros [[[[[H1 H2] H3] H4] H5] H6].
  apply Nat.leb_le in H1. apply bool_decide_eq_true in H3.
  constructor.
  - intros c xs E. exact (proj1 (H3 c xs E)).
  - exact H1.
  - exact H2.
  - intros c xs x E Hin. pose proof (proj2 (H3 c xs E)) as HF.
    rewrite Forall_forall in HF. apply HF. apply list_elem_of_In. exact Hin.
  - intros xs x E Hin. unfold FrameCheck.column_all in H4. rewrite E in H4.
    rewrite forallb_forall in H4. specialize (H4 x Hin).
    destruct x as [q | | |]; try discriminate H4.
    exists q. split; [reflexivity | apply Qltb_lt; exact H4].
  - intros xs x E Hin. unfold FrameCheck.column_all in H5. rewrite E in H5.
    rewrite forallb_forall in H5. specialize (H5 x Hin).
    destruct x as [q | | |]; try discriminate H5.
    + right. exists q. split; [reflexivity | apply Qltb_lt; exact H5].
    + left. reflexivity.
  - intros Hu Hl. rewrite Hu, Hl in H6. exact H6.
Qed.

(** The RSI strategy answers BUY with strength int((30 - 29) / 3) = 0:
    the strength is only capped from above.  And the Bollinger rule reads
    BB_Middle without testing for it. *)
Lemma rsi_strength_zero :
  (frame_ok two_bar_rsi
   /\ generate_signal two_bar_rsi "RSI Strategy" "Moderate"
      = Ok {| signal := BUY; strength := 0; confidence := 71;
              reasons := [RsiOversold (Fin 29)] |}
   /\ ~ bounded 1 (generate_signal two_bar_rsi "RSI Strategy" "Moderate"))
  /\ (wf_frame two_bar_no_middle /\ nrows two_bar_no_middle = 2%nat
      /\ generate_signal two_bar_no_middle "Bollinger Bands" "Moderate"
         = Raise KeyError).
Proof.
  assert (E : generate_signal two_bar_rsi "RSI Strategy" "Moderate"
     = Ok {| signal := BUY; strength := 0; confidence := 71;
             reasons := [RsiOversold (Fin 29)] |}) by (vm_compute; reflexivity).
  split.
  - split; [apply frame_okb_sound; vm_compute; reflexivity |].
    split; [exact E |].
    rewrite E. intros (s & Hs & [Hlo _] & _). inversion Hs; subst s.
    simpl in Hlo. lia.
  - split; [| split; [reflexivity | vm_compute; reflexivity]].
    apply wf_frame_lookup. apply (bool_decide_unpack _). vm_compute. exact I.
Qed.

(** C7 (amended). For every well-formed frame with at least 2 bars (no
    infinite cell, positive closes, positive upper band, middle band
    present with the outer bands), every strategy identifier and every
    sensitivity, generate_signal returns a Signal whose strength lies in
    [0,10] and whose confidence lies in [0,100]. *)
Theorem generate_signal_bounded (df : DataFrame) (strategy sensitivity : string) :
  frame_ok df -> bounded 0 (generate_signal df strategy sensitivity).
Proof.
  intros Hok. unfold generate_signal.
  repeat match goal with
  | |- context [String.eqb ?a ?b] => destruct (String.eqb a b)
  end;
  first [ apply composite_bounded | apply rsi_bounded | apply macd_bounded
        | apply ma_bounded | apply bb_bounded | apply momentum_bounded ];
  exact Hok.
Qed.

Lemma generate_signal_bounded_witness :
  frame_ok two_bar_rsi
  /\ bounded 0 (generate_signal two_bar_rsi "RSI Strategy" "Moderate").
Proof.
  assert (Hok : frame_ok two_bar_rsi)
    by (apply frame_okb_sound; vm_compute; reflexivity).
  split; [exact Hok |].
  exact (generate_signal_bounded two_bar_rsi "RSI Strategy" "Moderate" Hok).
Defined.

Lemma short_frame_neutral_witness :
  (wf_frame one_bar_plain /\ (nrows one_bar_plain < 2)%nat)
  /\ neutral_hold (_generate_rsi_signal one_bar_plain "Moderate")
  /\ neutral_hold (_generate_macd_signal one_bar_plain "Moderate")
  /\ neutral_hold (_generate_ma_signal one_bar_plain "Moderate")
  /\ neutral_hold (_generate_bb_signal one_bar_plain "Moderate")
  /\ neutral_hold (_generate_momentum_signal one_bar_plain "Moderate")
  /\ neutral_hold (_generate_composite_signal one_bar_plain "Moderate")
  /\ neutral_hold (generate_signal one_bar_plain "AI Composite" "Moderate").
Proof.
  assert (Hlt : (nrows one_bar_plain < 2)%nat) by (simpl; lia).
  split; [split; [exact one_bar_plain_wf | exact Hlt] |].
  destruct (short_frame_neutral one_bar_plain "Moderate" one_bar_plain_wf Hlt)
    as (H1 & H2 & H3 & H4 & H5 & H6).
  split; [apply H1; reflexivity |].
  split; [apply H2; left; reflexivity |].
  split; [apply H3; left; reflexivity |].
  split; [apply H4; left; reflexivity |].
  split; [apply H5; reflexivity |].
  destruct H6 as [Hc Hg]; try (left; reflexivity); try reflexivity.
  split; [exact Hc | apply Hg; discriminate].
Defined.

End SignalGeneratorFacts.

(** ** Series operations *)

Section SeriesFacts.

Lemma iloc_neg_lookup {A : Type} (k : nat) (s : list A) :
  (1 <= k <= length s)%nat ->
  exists x, iloc_neg k s = Ok x /\ s !! (length s - k)%nat = Some x.
Proof.
  intros Hk. unfold iloc_neg.
  destruct (s !! (length s - k)%nat) as [x |] eqn:E.
  - exists x. replace (k <=? length s)%nat with true
      by (symmetry; apply Nat.leb_le; lia).
    split; reflexivity.
  - apply lookup_ge_None in E. lia.
Qed.

Lemma rolling_mean_length (w : nat) (s : list xnum) :
  length (rolling_mean w s) = length s.
Proof. unfold rolling_mean. rewrite length_map, length_seq. reflexivity. Qed.

Lemma rolling_mean_lookup (w : nat) (s : list xnum) (k : nat) :
  (k < length s)%nat -> rolling_mean w s !! k = Some (window_mean w s k).
Proof.
  intros Hk. unfold rolling_mean. rewrite list_lookup_fmap.
  rewrite lookup_seq_lt by exact Hk. reflexivity.
Qed.

Lemma iloc_neg_rolling (w k : nat) (s : list xnum) :
  (1 <= k <= length s)%nat ->
  iloc_neg k (rolling_mean w s) = Ok (window_mean w s (length s - k)).
Proof.
  intros Hk.
  destruct (iloc_neg_lookup k (rolling_mean w s)) as (x & Hx & Hl).
  { rewrite rolling_mean_length. exact Hk. }
  rewrite Hx. rewrite rolling_mean_length, rolling_mean_lookup in Hl by lia.
  congruence.
Qed.

Lemma zip_with_length {A B C : Type} (f : A -> B -> C) (s : list A) (t : list B) :
  length (zip_with f s t) = Nat.min (length s) (length t).
Proof.
  revert t. induction s as [| x s IH]; intros [| y t]; simpl; try reflexivity.
  rewrite IH. reflexivity.
Qed.

Lemma diff_length (s : list xnum) : length (diff s) = length s.
Proof. unfold diff. rewrite length_map, length_seq. reflexivity. Qed.

Lemma where_length (c : xnum -> bool) (o : xnum) (s : list xnum) :
  length (where_ c o s) = length s.
Proof. unfold where_. apply length_map. Qed.

Lemma ewm_from_length (alpha prev : Q) (s : list Q) :
  length (ewm_from alpha prev s) = length s.
Proof.
  revert prev. induction s as [| x s IH]; intros prev; simpl;
    [| rewrite IH]; reflexivity.
Qed.

Lemma ewm_mean_ok (span : nat) (s : list Q) :
  (1 <= span)%nat ->
  exists t, ewm_mean span s = Ok t /\ length t = length s.
Proof.
  intros Hs. unfold ewm_mean.
  replace (span <? 1)%nat with false by (symmetry; apply Nat.ltb_ge; exact Hs).
  destruct s as [| x s]; eexists; (split; [reflexivity |]); simpl;
    [| rewrite ewm_from_length]; reflexivity.
Qed.

End SeriesFacts.

(** ** Backtesting engine: the loop *)

Section BacktestLoop.
Import BacktestingEngine BacktestSpec.
Local Open Scope string_scope.
Local Open Scope list_scope.

Variables (df : Prices) (strategy_type : string) (params : StrategyParams).
Variables (position_size commission : Q).

Local Abbreviation step := (bar_step df strategy_type params position_size commission).
Local Abbreviation run := (run_bars df strategy_type params position_size commission).

Lemma bar_step_inv (st st' : State) (i : nat) :
  step st i = Ok st' ->
  exists price sig,
    df !! i = Some price
    /\ _generate_signal (firstn (i + 1) df) strategy_type params = Ok sig
    /\ portfolio_history st' = portfolio_history st ++ [snapshot_at st i price]
    /\ step_outcome position_size commission st i price sig st'.
Proof.
  unfold bar_step, iloc.
  destruct (df !! i) as [price |] eqn:Ep; cbn [bind]; [| discriminate].
  destruct (_generate_signal _ _ _) as [sig | e] eqn:Es; cbn [bind];
    [| discriminate].
  intros H.
  exists price, sig. split; [reflexivity |]. split; [reflexivity |].
  revert H.
  destruct (action_eqb sig BUY && (shares st =? 0)%Z && Qltb price (cash st)) eqn:Eb.
  - apply andb_true_iff in Eb. destruct Eb as [Eb E3].
    apply andb_true_iff in Eb. destruct Eb as [E1 E2].
    destruct sig; try discriminate E1.
    apply Z.eqb_eq in E2. apply Qltb_lt in E3.
    destruct (xint _) as [n | e] eqn:En; cbn [bind]; [| discriminate].
    destruct (0 <? n)%Z eqn:E0; intros H.
    + apply Z.ltb_lt in E0. inversion H; subst st'; clear H. cbn.
      split; [reflexivity |].
      eapply outcome_buy; eauto.
    + inversion H; subst st'; clear H. cbn. split; [reflexivity |].
      apply outcome_idle; reflexivity.
  - destruct (action_eqb sig SELL && (0 <? shares st)%Z) eqn:Ec; intros H.
    + apply andb_true_iff in Ec. destruct Ec as [E1 E2].
      destruct sig; try discriminate E1. apply Z.ltb_lt in E2.
      inversion H; subst st'; clear H. cbn. split; [reflexivity |].
      apply outcome_sell; auto.
    + inversion H; subst st'; clear H. cbn. split; [reflexivity |].
      apply outcome_idle; reflexivity.
Qed.

Lemma run_bars_app (bars1 bars2 : list nat) (st : State) :
  run (bars1 ++ bars2) st = bind (run bars1 st) (run bars2).
Proof.
  revert st. induction bars1 as [| i bars1 IH]; intros st; [reflexivity |].
  cbn [app run_bars]. destruct (step st i) as [st1 | e]; cbn [bind];
    [apply IH | reflexivity].
Qed.

Lemma run_bars_app_inv (bars1 bars2 : list nat) (st st' : State) :
  run (bars1 ++ bars2) st = Ok st' ->
  exists mid, run bars1 st = Ok mid /\ run bars2 mid = Ok st'.
Proof.
  rewrite run_bars_app. destruct (run bars1 st) as [mid | e]; cbn [bind];
    [| discriminate]. intros H. exists mid. split; [reflexivity | exact H].
Qed.

(** The equity curve grows by one snapshot per bar. *)
Lemma run_bars_history (bars : list nat) (st st' : State) :
  run bars st = Ok st' ->
  exists added, portfolio_history st' = portfolio_history st ++ added
    /\ length added = length bars.
Proof.
  revert st. induction bars as [| i bars IH]; intros st H.
  - inversion H; subst. exists []. rewrite app_nil_r. split; reflexivity.
  - cbn [run_bars] in H. destruct (step st i) as [st1 |] eqn:E1; [| discriminate H].
    cbn [bind] in H. destruct (IH st1 H) as (added & Ha & Hl).
    destruct (bar_step_inv st st1 i E1) as (price & sig & _ & _ & Hh & _).
    exists (snapshot_at st i price :: added). rewrite Ha, Hh, <- app_assoc.
    split; [reflexivity | simpl; rewrite Hl; reflexivity].
Qed.

End BacktestLoop.

(** ** Backtesting engine: the per-bar signal rule *)

Section BacktestSignal.
Import BacktestingEngine BacktestSpec.
Local Open Scope string_scope.
Local Open Scope list_scope.

Lemma close_series_length (df : Prices) : length (close_series df) = length df.
Proof. unfold close_series. apply length_map. Qed.

(** The first guard of the rule: fewer than 50 bars, HOLD. *)
Lemma signal_hold_below_50 (w : Prices) (strategy_type : string)
    (params : StrategyParams) :
  (length w < 50)%nat -> _generate_signal w strategy_type params = Ok HOLD.
Proof.
  intros H. unfold _generate_signal.
  replace (length w <? 50)%nat with true by (symmetry; apply Nat.ltb_lt; exact H).
  reflexivity.
Qed.

Lemma signal_not_hold_50 (w : Prices) (strategy_type : string)
    (params : StrategyParams) (a : action) :
  _generate_signal w strategy_type params = Ok a -> a <> HOLD ->
  (50 <= length w)%nat.
Proof.
  intros H Ha. destruct (Nat.lt_ge_cases (length w) 50) as [Hlt | Hge];
    [| exact Hge].
  rewrite signal_hold_below_50 in H by exact Hlt. congruence.
Qed.

(** The rule returns a signal whenever the MACD spans are admissible. *)
Lemma generate_signal_total (w : Prices) (strategy_type : string)
    (params : StrategyParams) :
  params_ok strategy_type params ->
  exists a, _generate_signal w strategy_type params = Ok a.
Proof.
  intros Hp. unfold _generate_signal.
  destruct (length w <? 50)%nat eqn:E50; [eauto |].
  apply Nat.ltb_ge in E50.
  destruct (String.eqb strategy_type "ma_crossover").
  { destruct (_ <? _)%nat; [eauto |].
    rewrite !iloc_neg_rolling by (rewrite close_series_length; lia).
    cbn [bind]. destruct (_ && _); [eauto |]. destruct (_ && _); eauto. }
  destruct (String.eqb strategy_type "rsi").
  { destruct (_ <? _)%nat; [eauto |].
    match goal with |- context [iloc_neg 1 ?s] =>
      destruct (iloc_neg_lookup 1 s) as (r & -> & _) end.
    { rewrite length_map, zip_with_length, !rolling_mean_length, length_map,
        !where_length, diff_length, close_series_length. lia. }
    cbn [bind]. destruct (_ <? _)%X; [eauto |]. destruct (_ >? _)%X; eauto. }
  destruct (String.eqb strategy_type "macd") eqn:Em; [| eauto].
  apply String.eqb_eq in Em. destruct (Hp Em) as (Hf & Hs & Hg).
  destruct (_ <? _)%nat; [eauto |].
  destruct (ewm_mean_ok _ w Hf) as (ef & -> & Lf).
  destruct (ewm_mean_ok _ w Hs) as (es & -> & Ls). cbn [bind].
  assert (Lm : length (zip_with Qminus ef es) = length w).
  { rewrite zip_with_length. lia. }
  destruct (ewm_mean_ok _ (zip_with Qminus ef es) Hg) as (eg & -> & Lg).
  cbn [bind].
  destruct (iloc_neg_lookup 1 (zip_with Qminus ef es)) as (m1 & -> & _); [lia |].
  destruct (iloc_neg_lookup 1 eg) as (g1 & -> & _); [lia |].
  destruct (iloc_neg_lookup 2 (zip_with Qminus ef es)) as (m2 & -> & _); [lia |].
  destruct (iloc_neg_lookup 2 eg) as (g2 & -> & _); [lia |].
  cbn [bind]. destruct (_ && _); [eauto |]. destruct (_ && _); eauto.
Qed.

End BacktestSignal.

Section BacktestTotal.
Import BacktestingEngine BacktestSpec.
Local Open Scope string_scope.
Local Open Scope list_scope.

Variables (df : Prices) (strategy_type : string) (params : StrategyParams).
Variables (position_size commission : Q).
Hypothesis prices_nonzero : Forall (fun p => ~ (p == 0)%Q) df.
Hypothesis spans_ok : params_ok strategy_type params.

Lemma bar_step_total (st : State) (i : nat) :
  (i < length df)%nat ->
  exists st', bar_step df strategy_type params position_size commission st i = Ok st'.
Proof using prices_nonzero spans_ok.
  intros Hi. unfold bar_step, iloc.
  destruct (lookup_lt_is_Some_2 df i Hi) as [price Ep]. rewrite Ep. cbn [bind].
  destruct (generate_signal_total (firstn (i + 1) df) strategy_type params spans_ok)
    as [sig ->].
  cbn [bind].
  assert (Hnz : Qeqb price 0 = false).
  { apply Qeqb_neq. rewrite Forall_forall in prices_nonzero.
    apply prices_nonzero. eapply list_elem_of_lookup_2. exact Ep. }
  destruct (_ && _ && _).
  - cbn [xdiv]. rewrite Hnz. cbn [xint bind]. destruct (_ <? _)%Z; eauto.
  - destruct (_ && _); eauto.
Qed.

Lemma run_bars_total (bars : list nat) (st : State) :
  Forall (fun i => (i < length df)%nat) bars ->
  exists st', run_bars df strategy_type params position_size commission bars st = Ok st'.
Proof using prices_nonzero spans_ok.
  revert st. induction bars as [| i bars IH]; intros st Hb; [eexists; reflexivity |].
  apply Forall_cons_1 in Hb. destruct Hb as [Hi Hb].
  cbn [run_bars]. destruct (bar_step_total st i Hi) as [st1 ->]. cbn [bind].
  apply IH. exact Hb.
Qed.

End BacktestTotal.

(** ** Backtesting engine: whole runs *)

Section BacktestRun.
Import BacktestingEngine BacktestSpec.
Local Open Scope string_scope.
Local Open Scope list_scope.

Variable sqrt : Q -> Q.

Lemma run_backtest_inv (df : Prices) (params : StrategyParams)
    (cfg : BacktestConfig) (r : Results) :
  run_backtest sqrt df params cfg = Ok r ->
  exists st last,
    run_loop df params cfg (seq 1 (length df - 1)) = Ok st
    /\ iloc_neg 1 df = Ok last
    /\ r_trades r = trades st
    /\ r_portfolio_history r = portfolio_history st
    /\ report r = _calculate_backtest_metrics sqrt
         (default 10000%Q (c_initial_capital cfg))
         (cash st + inject_Z (shares st) * last)%Q
         (trades st) (portfolio_history st).
Proof.
  unfold run_backtest, run_loop.
  destruct (run_bars _ _ _ _ _ _ _) as [st |]; cbn [bind]; [| discriminate].
  destruct (iloc_neg 1 df) as [last |]; cbn [bind]; [| discriminate].
  intros H. inversion H; subst r; clear H. exists st, last.
  repeat split; reflexivity.
Qed.

Lemma run_backtest_ok (df : Prices) (params : StrategyParams)
    (cfg : BacktestConfig) (st : State) (last : Q) :
  run_loop df params cfg (seq 1 (length df - 1)) = Ok st ->
  iloc_neg 1 df = Ok last ->
  run_backtest sqrt df params cfg
  = Ok {| report := _calculate_backtest_metrics sqrt
            (default 10000%Q (c_initial_capital cfg))
            (cash st + inject_Z (shares st) * last)%Q
            (trades st) (portfolio_history st);
          r_trades := trades st;
          r_portfolio_history := portfolio_history st |}.
Proof.
  unfold run_backtest, run_loop. intros -> ->. reflexivity.
Qed.

(** A run over a non-empty series of non-zero prices returns. *)
Lemma run_backtest_total (df : Prices) (params : StrategyParams)
    (cfg : BacktestConfig) :
  df <> [] -> Forall (fun p => ~ (p == 0)%Q) df ->
  params_ok (default "ma_crossover" (p_type params)) params ->
  exists r, run_backtest sqrt df params cfg = Ok r.
Proof.
  intros Hne Hnz Hp.
  destruct (run_bars_total df _ params (default 1%Q (c_position_size cfg))
              (default 1%Q (c_commission cfg)) Hnz Hp
              (seq 1 (length df - 1))
              (initial_state (default 10000%Q (c_initial_capital cfg))))
    as [st Hst].
  { apply Forall_forall. intros i Hi. apply elem_of_seq in Hi. lia. }
  destruct (iloc_neg_lookup 1 df) as (last & Hl & _).
  { destruct df; [congruence | simpl; lia]. }
  eexists. apply run_backtest_ok; [exact Hst | exact Hl].
Qed.

Lemma seq_split_at (n i : nat) :
  (1 <= i < n)%nat ->
  seq 1 (n - 1) = seq 1 (i - 1) ++ i :: seq (i + 1) (n - 1 - i).
Proof.
  intros Hi.
  assert (G : forall a b : nat,
             seq 1 (a + S b) = seq 1 a ++ S a :: seq (S a + 1) b).
  { intros a b. rewrite seq_app. cbn [seq Nat.add].
    replace (S (a + 1)) with (S (S a)) by lia. reflexivity. }
  specialize (G (i - 1)%nat (n - 1 - i)%nat).
  replace (i - 1 + S (n - 1 - i))%nat with (n - 1)%nat in G by lia.
  replace (S (i - 1)) with i in G by lia. exact G.
Qed.

End BacktestRun.

(** ** Backtesting engine: no trade before bar 49 *)

Section BacktestEarlyBars.
Import BacktestingEngine BacktestSpec Examples.
Local Open Scope string_scope.
Local Open Scope list_scope.

Lemma bar_step_dates (df : Prices) (ty : string) (params : StrategyParams)
    (ps cm : Q) (st st' : State) (i : nat) :
  bar_step df ty params ps cm st i = Ok st' ->
  dated_from_49 (trades st) -> dated_from_49 (trades st').
Proof.
  intros H Hd.
  destruct (bar_step_inv df ty params ps cm st st' i H)
    as (price & sig & _ & Hs & _ & Ho).
  assert (Hi : sig <> HOLD -> (49 <= i)%nat).
  { intros Hn. pose proof (signal_not_hold_50 _ _ _ _ Hs Hn) as H50.
    rewrite length_take in H50. lia. }
  destruct Ho as [n -> _ _ _ _ _ _ Ht | -> _ _ _ Ht | _ _ Ht]; rewrite Ht.
  - apply Forall_app. split; [exact Hd |].
    constructor; [| constructor]. simpl. apply Hi. discriminate.
  - apply Forall_app. split; [exact Hd |].
    constructor; [| constructor]. simpl. apply Hi. discriminate.
  - exact Hd.
Qed.

Lemma run_bars_dates (df : Prices) (ty : string) (params : StrategyParams)
    (ps cm : Q) (bars : list nat) (st st' : State) :
  run_bars df ty params ps cm bars st = Ok st' ->
  dated_from_49 (trades st) -> dated_from_49 (trades st').
Proof.
  revert st. induction bars as [| i bars IH]; intros st H Hd.
  - inversion H; subst; exact Hd.
  - cbn [run_bars] in H.
    destruct (bar_step df ty params ps cm st i) as [st1 |] eqn:E1;
      [| discriminate H].
    cbn [bind] in H. apply (IH st1 H). eapply bar_step_dates; eauto.
Qed.

(** C10. Whatever the strategy type and the parameter record, the per-bar
    signal rule returns HOLD on a window of fewer than 50 bars; hence no
    backtest records a trade at a bar index below 49. *)
Theorem no_trade_before_bar_49 (sqrt : Q -> Q) (window df : Prices)
    (strategy_type : string) (params : StrategyParams)
    (cfg : BacktestConfig) (r : Results) :
  ((length window < 50)%nat ->
     _generate_signal window strategy_type params = Ok HOLD)
  /\ (run_backtest sqrt df params cfg = Ok r ->
      Forall (fun t => (49 <= t_date t)%nat) (r_trades r)).
Proof.
  split; [apply signal_hold_below_50 |].
  intros H. destruct (run_backtest_inv sqrt df params cfg r H)
    as (st & last & Hrun & _ & -> & _).
  unfold run_loop in Hrun. eapply run_bars_dates; [exact Hrun |].
  constructor.
Qed.

(** The bound is reached: on 60 falling bars the RSI rule buys at bar 49. *)
Lemma falling_run_trades :
  exists st, run_loop falling (with_type "rsi") config_10000 (seq 1 59) = Ok st
    /\ trades st = [buy_trade 1 49 151 66].
Proof. eexists. split; vm_compute; reflexivity. Qed.

Lemma no_trade_before_bar_49_witness :
  _generate_signal (firstn 49 falling) "rsi" (with_type "rsi") = Ok HOLD
  /\ exists r,
       run_backtest sqrt_approx falling (with_type "rsi") config_10000 = Ok r
       /\ r_trades r = [buy_trade 1 49 151 66]
       /\ Forall (fun t => (49 <= t_date t)%nat) (r_trades r).
Proof.
  destruct falling_run_trades as (st & Hst & Ht).
  destruct (iloc_neg_lookup 1 falling) as (last & Hl & _); [simpl; lia |].
  pose proof (run_backtest_ok sqrt_approx falling (with_type "rsi")
                config_10000 st last Hst Hl) as Hr.
  match type of Hr with _ = Ok ?r =>
    destruct (no_trade_before_bar_49 sqrt_approx (firstn 49 falling) falling
                "rsi" (with_type "rsi") config_10000 r) as [W1 W2] end.
  split; [apply W1; simpl; lia |].
  eexists. split; [exact Hr |]. split; [exact Ht | exact (W2 Hr)].
Defined.

End BacktestEarlyBars.

(** ** Backtesting engine: the equity curve *)

Section BacktestEquity.
Import BacktestingEngine BacktestSpec Examples.
Local Open Scope string_scope.
Local Open Scope list_scope.

Lemma run_loop_history_length (df : Prices) (params : StrategyParams)
    (cfg : BacktestConfig) (bars : list nat) (st : State) :
  run_loop df params cfg bars = Ok st ->
  length (portfolio_history st) = length bars.
Proof.
  unfold run_loop. intros H.
  destruct (run_bars_history _ _ _ _ _ _ _ _ H) as (added & Ha & Hl).
  rewrite Ha. simpl. exact Hl.
Qed.

(** C2. In a run that returns, the value recorded in the equity curve at
    bar i >= 1 is cash + sharesHeld * close(i) on the state reached after
    the bars before i, that is before the signal of bar i is acted on; and
    final_value is cash + sharesHeld * (last close) on the final state. *)
Theorem equity_curve_marks_to_market (sqrt : Q -> Q) (df : Prices)
    (params : StrategyParams) (cfg : BacktestConfig) (r : Results) (i : nat) :
  run_backtest sqrt df params cfg = Ok r ->
  ((1 <= i < length df)%nat ->
     exists st price h,
       run_loop df params cfg (seq 1 (i - 1)) = Ok st
       /\ df !! i = Some price
       /\ r_portfolio_history r !! (i - 1)%nat = Some h
       /\ h_date h = i
       /\ h_portfolio_value h = (cash st + inject_Z (shares st) * price)%Q)
  /\ (exists st last,
       run_loop df params cfg (seq 1 (length df - 1)) = Ok st
       /\ iloc_neg 1 df = Ok last
       /\ final_value (report r) = (cash st + inject_Z (shares st) * last)%Q).
Proof.
  intros H. destruct (run_backtest_inv sqrt df params cfg r H)
    as (st & last & Hrun & Hlast & _ & Hh & Hrep).
  split.
  - intros Hi. pose proof Hrun as Hrun'. unfold run_loop in Hrun'.
    rewrite (seq_split_at (length df) i Hi) in Hrun'.
    apply run_bars_app_inv in Hrun'. destruct Hrun' as (st0 & H0 & Hrest).
    cbn [run_bars] in Hrest.
    destruct (bar_step _ _ _ _ _ st0 i) as [st1 |] eqn:E1; [| discriminate Hrest].
    cbn [bind] in Hrest.
    destruct (bar_step_inv _ _ _ _ _ _ _ _ E1) as (price & sig & Hp & _ & Hh1 & _).
    destruct (run_bars_history _ _ _ _ _ _ _ _ Hrest) as (added & Ha & _).
    exists st0, price, (snapshot_at st0 i price).
    split; [exact H0 |]. split; [exact Hp |]. split; [| split; reflexivity].
    rewrite Hh, Ha, Hh1, <- app_assoc.
    assert (Hlen : length (portfolio_history st0) = (i - 1)%nat).
    { rewrite (run_loop_history_length df params cfg _ st0 H0), length_seq.
      reflexivity. }
    rewrite lookup_app_r by lia. rewrite Hlen, Nat.sub_diag. reflexivity.
  - exists st, last. split; [exact Hrun |]. split; [exact Hlast |].
    rewrite Hrep. reflexivity.
Qed.

Lemma equity_curve_marks_to_market_witness :
  exists r,
    run_backtest sqrt_approx falling (with_type "rsi") config_10000 = Ok r
    /\ (exists st price h,
         run_loop falling (with_type "rsi") config_10000 (seq 1 49) = Ok st
         /\ falling !! 50%nat = Some price
         /\ r_portfolio_history r !! 49%nat = Some h
         /\ h_date h = 50%nat
         /\ h_portfolio_value h = (cash st + inject_Z (shares st) * price)%Q)
    /\ (exists st last,
         run_loop falling (with_type "rsi") config_10000 (seq 1 59) = Ok st
         /\ iloc_neg 1 falling = Ok last
         /\ final_value (report r) = (cash st + inject_Z (shares st) * last)%Q).
Proof.
  destruct falling_run_trades as (st & Hst & _).
  destruct (iloc_neg_lookup 1 falling) as (last & Hl & _); [simpl; lia |].
  pose proof (run_backtest_ok sqrt_approx falling (with_type "rsi")
                config_10000 st last Hst Hl) as Hr.
  eexists. split; [exact Hr |].
  destruct (equity_curve_marks_to_market sqrt_approx falling (with_type "rsi")
              config_10000 _ 50 Hr) as [H1 H2].
  split; [apply H1; simpl; lia | exact H2].
Defined.

End BacktestEquity.

(** ** Backtesting engine: bars without a signal *)

Section BacktestQuietBars.
Import BacktestingEngine BacktestSpec.
Local Open Scope string_scope.
Local Open Scope list_scope.

Variables (df : Prices) (strategy_type : string) (params : StrategyParams).
Variables (position_size commission : Q).

Local Abbreviation step := (bar_step df strategy_type params position_size commission).
Local Abbreviation run := (run_bars df strategy_type params position_size commission).
Local Abbreviation signal_at :=
  (fun i : nat => _generate_signal (firstn (i + 1) df) strategy_type params).

Lemma bar_step_hold (st : State) (i : nat) (price : Q) :
  df !! i = Some price -> signal_at i = Ok HOLD ->
  step st i
  = Ok {| cash := cash st; shares := shares st; trades := trades st;
          portfolio_history := portfolio_history st ++ [snapshot_at st i price] |}.
Proof.
  intros Hp Hs. unfold bar_step, iloc. rewrite Hp. cbn [bind].
  rewrite Hs. cbn [bind]. reflexivity.
Qed.

(** Over bars whose signal is HOLD the ledger does not move, and every
    snapshot taken shows the same cash and shares. *)
Lemma run_bars_hold (bars : list nat) (st : State) :
  Forall (fun i => (i < length df)%nat /\ signal_at i = Ok HOLD) bars ->
  exists st',
    run bars st = Ok st'
    /\ cash st' = cash st /\ shares st' = shares st /\ trades st' = trades st
    /\ exists added,
         portfolio_history st' = portfolio_history st ++ added
         /\ Forall (fun h => h_cash h = cash st /\ h_shares h = shares st) added.
Proof.
  revert st. induction bars as [| i bars IH]; intros st Hb.
  - exists st. repeat split; try reflexivity. exists []. rewrite app_nil_r.
    split; [reflexivity | constructor].
  - apply Forall_cons_1 in Hb. destruct Hb as [[Hi Hs] Hb].
    destruct (lookup_lt_is_Some_2 df i Hi) as [price Hp].
    cbn [run_bars]. rewrite (bar_step_hold st i price Hp Hs). cbn [bind].
    match goal with |- context [run bars ?s] =>
      destruct (IH s Hb) as (st' & Hr & Hc & Hsh & Ht & added & Ha & Hf) end.
    cbn [cash shares trades portfolio_history] in *.
    exists st'. split; [exact Hr |]. repeat (split; [assumption |]).
    exists (snapshot_at st i price :: added). split.
    + rewrite Ha, <- app_assoc. reflexivity.
    + constructor; [split; reflexivity | exact Hf].
Qed.





End BacktestQuietBars.

(** ** Backtesting engine: a flat series gives no signal *)

Section FlatSeries.
Import BacktestingEngine BacktestSpec.
Local Open Scope string_scope.
Local Open Scope list_scope.

(** A cell that is the finite value [c] (up to [==]). *)
Local Abbreviation is_val c := (fun x : xnum => exists q : Q, x = Fin q /\ (q == c)%Q).
(** A cell that is NaN or the finite value [c]. *)
Local Abbreviation nan_or c := (fun x : xnum => x = NaN \/ exists q : Q, x = Fin q /\ (q == c)%Q).

Lemma map_replicate {A B : Type} (f : A -> B) (n : nat) (x : A) :
  map f (replicate n x) = replicate n (f x).
Proof. induction n as [| n IH]; simpl; [| rewrite IH]; reflexivity. Qed.

Lemma of_nat_nonzero (w : nat) :
  (1 <= w)%nat -> Qeqb (inject_Z (Z.of_nat w)) 0 = false.
Proof. intros H. apply Qeqb_neq. unfold Qeq. simpl. lia. Qed.

Lemma xsum_const (c : Q) (xs : list xnum) :
  Forall (is_val c) xs ->
  exists q, xsum xs = Fin q /\ (q == inject_Z (Z.of_nat (length xs)) * c)%Q.
Proof.
  induction 1 as [| x xs (q & -> & Hq) _ (s & Hs & Hsq)].
  - exists 0%Q. split; [reflexivity |]. simpl. ring.
  - exists (q + s)%Q.
    change (xsum (Fin q :: xs)) with (Fin q + xsum xs)%X. rewrite Hs.
    split; [reflexivity |]. cbn [length].
    rewrite Nat2Z.inj_succ. unfold Z.succ.
    setoid_rewrite inject_Z_plus. setoid_rewrite Hq. setoid_rewrite Hsq. ring.
Qed.

Lemma window_mean_const (c : Q) (s : list xnum) (w k : nat) :
  Forall (is_val c) s -> (k < length s)%nat -> nan_or c (window_mean w s k).
Proof.
  intros Hs Hk. unfold window_mean.
  destruct (w =? 0)%nat eqn:E0; [left; reflexivity |].
  destruct (k + 1 <? w)%nat eqn:E1; [left; reflexivity |].
  apply Nat.eqb_neq in E0. apply Nat.ltb_ge in E1. cbn [orb].
  destruct (xsum_const c (firstn w (skipn (k + 1 - w) s))) as (q & -> & Hq).
  { apply Forall_take, Forall_drop. exact Hs. }
  rewrite length_take, length_drop in Hq.
  replace (w `min` (length s - (k + 1 - w)))%nat with w in Hq by lia.
  right. cbn [xdiv]. rewrite of_nat_nonzero by lia.
  eexists. split; [reflexivity |]. rewrite Hq. field.
  intros H0. apply Qeqb_eq in H0. rewrite of_nat_nonzero in H0 by lia.
  discriminate H0.
Qed.

Lemma rolling_mean_const (c : Q) (s : list xnum) (w : nat) :
  Forall (is_val c) s -> Forall (nan_or c) (rolling_mean w s).
Proof.
  intros Hs. apply Forall_forall. intros x Hx.
  apply list_elem_of_lookup in Hx. destruct Hx as [k Hk].
  assert (Hlt : (k < length s)%nat).
  { apply lookup_lt_Some in Hk. rewrite rolling_mean_length in Hk. exact Hk. }
  rewrite rolling_mean_lookup in Hk by exact Hlt. inversion Hk; subst x.
  apply window_mean_const; assumption.
Qed.

Lemma iloc_neg_elem {A : Type} (k : nat) (s : list A) (x : A) :
  iloc_neg k s = Ok x -> x ∈ s.
Proof.
  unfold iloc_neg. destruct (s !! (length s - k)%nat) as [y |] eqn:E;
    [| discriminate].
  destruct (k <=? length s)%nat; [| discriminate].
  intros H. inversion H; subst y. eapply list_elem_of_lookup_2. exact E.
Qed.

Lemma close_series_flat (c : Q) (m : nat) :
  Forall (is_val c) (close_series (replicate m c)).
Proof.
  unfold close_series. rewrite map_replicate. apply Forall_replicate.
  exists c. split; reflexivity.
Qed.

(** Comparing two cells that are NaN or the same value. *)
Lemma nan_or_not_lt (c : Q) (a b : xnum) :
  nan_or c a -> nan_or c b -> (a <? b)%X = false.
Proof.
  intros [-> | (p & -> & Hp)] [-> | (q & -> & Hq)]; try reflexivity.
  cbn [xlt]. apply Qltb_ge. rewrite Hp, Hq. apply Qle_refl.
Qed.

Lemma ma_signal_flat (c : Q) (m : nat) (params : StrategyParams) :
  _generate_signal (replicate m c) "ma_crossover" params = Ok HOLD.
Proof.
  unfold _generate_signal.
  destruct (_ <? 50)%nat eqn:E50; [reflexivity |]. apply Nat.ltb_ge in E50.
  cbn [String.eqb Ascii.eqb Bool.eqb]. cbv iota.
  destruct (_ <? _)%nat; [reflexivity |].
  rewrite !iloc_neg_rolling by (rewrite close_series_length; lia).
  cbn [bind].
  pose proof (close_series_flat c m) as Hf.
  assert (Hw : forall w k, (k < length (close_series (replicate m c)))%nat ->
     nan_or c (window_mean w (close_series (replicate m c)) k)).
  { intros w k Hk. apply window_mean_const; assumption. }
  rewrite close_series_length in *.
  unfold xgt. rewrite !(nan_or_not_lt c) by (apply Hw; lia).
  reflexivity.
Qed.

Lemma diff_flat (c : Q) (m : nat) :
  Forall (fun d => d = NaN \/ d = Fin (c + - c)%Q)
         (diff (replicate m (Fin c))).
Proof.
  unfold diff. apply Forall_forall. intros d Hd.
  apply list_elem_of_In, in_map_iff in Hd. destruct Hd as (k & <- & _).
  destruct k as [| j]; [left; reflexivity |].
  destruct (replicate m (Fin c) !! S j) as [x |] eqn:Ex; [| left; reflexivity].
  destruct (replicate m (Fin c) !! j) as [y |] eqn:Ey; [| left; reflexivity].
  apply lookup_replicate in Ex, Ey. destruct Ex as [-> _], Ey as [-> _].
  right. reflexivity.
Qed.

Lemma gain_loss_flat (c : Q) (m : nat) :
  let delta := diff (close_series (replicate m c)) in
  Forall (is_val 0%Q) (where_ (fun d => (d >? Fin 0)%X) (Fin 0) delta)
  /\ Forall (is_val 0%Q)
       (map xneg (where_ (fun d => (d <? Fin 0)%X) (Fin 0) delta)).
Proof.
  cbv zeta. unfold close_series. rewrite map_replicate.
  pose proof (diff_flat c m) as Hd.
  assert (Hz : (c + - c == 0)%Q) by ring.
  split; apply Forall_forall; intros x Hx; apply list_elem_of_In in Hx.
  - unfold where_ in Hx. apply in_map_iff in Hx. destruct Hx as (d & <- & Hin).
    rewrite Forall_forall in Hd.
    destruct (Hd d) as [-> | ->]; [apply list_elem_of_In; exact Hin | |].
    + exists 0%Q. split; reflexivity.
    + cbn [xgt xlt].
      replace (Qltb 0 (c + - c)) with false
        by (symmetry; apply Qltb_ge; rewrite Hz; apply Qle_refl).
      exists 0%Q. split; reflexivity.
  - apply in_map_iff in Hx. destruct Hx as (y & <- & Hy).
    unfold where_ in Hy. apply in_map_iff in Hy. destruct Hy as (d & <- & Hin).
    rewrite Forall_forall in Hd.
    destruct (Hd d) as [-> | ->]; [apply list_elem_of_In; exact Hin | |].
    + exists (- 0)%Q. split; reflexivity.
    + cbn [xlt].
      replace (Qltb (c + - c) 0) with false
        by (symmetry; apply Qltb_ge; rewrite Hz; apply Qle_refl).
      exists (- 0)%Q. split; reflexivity.
Qed.

Lemma zero_over_zero (a b : xnum) :
  nan_or 0%Q a -> nan_or 0%Q b -> (a / b)%X = NaN.
Proof.
  intros [-> | (p & -> & Hp)] [-> | (q & -> & Hq)]; try reflexivity.
  cbn [xdiv]. apply Qeqb_eq in Hp, Hq. rewrite Hp, Hq. reflexivity.
Qed.

Lemma zip_div_flat (s t : list xnum) :
  Forall (nan_or 0%Q) s -> Forall (nan_or 0%Q) t ->
  Forall (fun r => r = NaN) (zip_with xdiv s t).
Proof.
  intros Hs. revert t. induction Hs as [| a s Ha _ IH]; intros t Ht;
    [constructor |].
  destruct Ht as [| b t Hb Ht]; [constructor |].
  cbn [zip_with]. constructor; [apply zero_over_zero; assumption | apply IH, Ht].
Qed.

Lemma rsi_signal_flat (c : Q) (m : nat) (params : StrategyParams) :
  _generate_signal (replicate m c) "rsi" params = Ok HOLD.
Proof.
  unfold _generate_signal.
  destruct (_ <? 50)%nat eqn:E50; [reflexivity |]. apply Nat.ltb_ge in E50.
  cbn [String.eqb Ascii.eqb Bool.eqb]. cbv iota.
  destruct (_ <? _)%nat; [reflexivity |].
  destruct (gain_loss_flat c m) as [Hg Hl]. cbv zeta in Hg, Hl.
  pose proof (zip_div_flat _ _
    (rolling_mean_const 0 _ (default 14%nat (p_period params)) Hg)
    (rolling_mean_const 0 _ (default 14%nat (p_period params)) Hl)) as Hrs.
  match goal with |- context [iloc_neg 1 ?s] =>
    destruct (iloc_neg_lookup 1 s) as (r & Hr & _) end.
  { rewrite length_map, zip_with_length, !rolling_mean_length, length_map,
      !where_length, diff_length, close_series_length. lia. }
  rewrite Hr. cbn [bind].
  apply iloc_neg_elem, list_elem_of_In, in_map_iff in Hr.
  destruct Hr as (x & <- & Hx). rewrite Forall_forall in Hrs.
  rewrite (Hrs x) by (apply list_elem_of_In; exact Hx).
  reflexivity.
Qed.

Lemma ewm_from_flat (alpha prev c : Q) (s : list Q) :
  (prev == c)%Q -> Forall (fun x => (x == c)%Q) s ->
  Forall (fun y => (y == c)%Q) (ewm_from alpha prev s).
Proof.
  intros Hp Hs. revert prev Hp. induction Hs as [| x s Hx _ IH]; intros prev Hp;
    [constructor |].
  cbn [ewm_from].
  assert (Hy : ((1 - alpha) * prev + alpha * x == c)%Q).
  { setoid_rewrite Hp. setoid_rewrite Hx. ring. }
  constructor; [exact Hy | apply IH, Hy].
Qed.

Lemma ewm_mean_flat (span : nat) (c : Q) (s t : list Q) :
  Forall (fun x => (x == c)%Q) s -> ewm_mean span s = Ok t ->
  Forall (fun y => (y == c)%Q) t.
Proof.
  intros Hs. unfold ewm_mean. destruct (span <? 1)%nat; [discriminate |].
  destruct Hs as [| x s Hx Hs]; intros H; inversion H; subst t;
    constructor; [exact Hx |].
  apply ewm_from_flat; assumption.
Qed.

Lemma zip_minus_flat (c : Q) (s t : list Q) :
  Forall (fun x => (x == c)%Q) s -> Forall (fun x => (x == c)%Q) t ->
  Forall (fun d => (d == 0)%Q) (zip_with Qminus s t).
Proof.
  intros Hs. revert t. induction Hs as [| a s Ha _ IH]; intros t Ht;
    [constructor |].
  destruct Ht as [| b t Hb Ht]; [constructor |].
  cbn [zip_with]. constructor; [| apply IH, Ht].
  setoid_rewrite Ha. setoid_rewrite Hb. ring.
Qed.

Lemma macd_signal_flat (c : Q) (m : nat) (params : StrategyParams) :
  params_ok "macd" params ->
  _generate_signal (replicate m c) "macd" params = Ok HOLD.
Proof.
  intros Hp. destruct (Hp eq_refl) as (Hf & Hs & Hg).
  unfold _generate_signal.
  destruct (_ <? 50)%nat eqn:E50; [reflexivity |]. apply Nat.ltb_ge in E50.
  cbn [String.eqb Ascii.eqb Bool.eqb]. cbv iota.
  destruct (_ <? _)%nat; [reflexivity |].
  assert (Hc : Forall (fun x => (x == c)%Q) (replicate m c)).
  { apply Forall_replicate. reflexivity. }
  rewrite length_replicate in E50.
  destruct (ewm_mean_ok _ (replicate m c) Hf) as (ef & Ef & Lf).
  destruct (ewm_mean_ok _ (replicate m c) Hs) as (es & Es & Ls).
  rewrite Ef, Es. cbn [bind]. rewrite length_replicate in Lf, Ls.
  pose proof (zip_minus_flat c ef es (ewm_mean_flat _ c _ _ Hc Ef)
                (ewm_mean_flat _ c _ _ Hc Es)) as Hm.
  assert (Lm : length (zip_with Qminus ef es) = m).
  { rewrite zip_with_length. lia. }
  destruct (ewm_mean_ok _ (zip_with Qminus ef es) Hg) as (eg & Eg & Lg).
  rewrite Eg. cbn [bind].
  pose proof (ewm_mean_flat _ 0 _ _ Hm Eg) as Hsig.
  destruct (iloc_neg_lookup 1 (zip_with Qminus ef es)) as (m1 & E1 & _); [lia |].
  destruct (iloc_neg_lookup 1 eg) as (g1 & E2 & _); [lia |].
  destruct (iloc_neg_lookup 2 (zip_with Qminus ef es)) as (m2 & E3 & _); [lia |].
  destruct (iloc_neg_lookup 2 eg) as (g2 & E4 & _); [lia |].
  rewrite E1, E2, E3, E4. cbn [bind].
  rewrite Forall_forall in Hm, Hsig.
  pose proof (Hm m1 (iloc_neg_elem _ _ _ E1)) as Z1.
  pose proof (Hsig g1 (iloc_neg_elem _ _ _ E2)) as Z2.
  replace (Qltb g1 m1) with false
    by (symmetry; apply Qltb_ge; setoid_rewrite Z1; setoid_rewrite Z2; apply Qle_refl).
  replace (Qltb m1 g1) with false
    by (symmetry; apply Qltb_ge; setoid_rewrite Z1; setoid_rewrite Z2; apply Qle_refl).
  reflexivity.
Qed.

(** On a flat series every strategy type answers HOLD. *)
Lemma signal_flat (c : Q) (m : nat) (strategy_type : string)
    (params : StrategyParams) :
  params_ok strategy_type params ->
  _generate_signal (replicate m c) strategy_type params = Ok HOLD.
Proof.
  intros Hp.
  destruct (String.eqb strategy_type "ma_crossover") eqn:E1.
  { apply String.eqb_eq in E1. subst. apply ma_signal_flat. }
  destruct (String.eqb strategy_type "rsi") eqn:E2.
  { apply String.eqb_eq in E2. subst. apply rsi_signal_flat. }
  destruct (String.eqb strategy_type "macd") eqn:E3.
  { apply String.eqb_eq in E3. subst. apply macd_signal_flat, Hp. }
  unfold _generate_signal. rewrite E1, E2, E3.
  destruct (_ <? 50)%nat; reflexivity.
Qed.

End FlatSeries.

Section FlatBacktest.
Import BacktestingEngine BacktestSpec Examples.
Local Open Scope string_scope.
Local Open Scope list_scope.

(** C3. On a series whose Close is constant, under every strategy type
    (ma_crossover, rsi, macd or any other), run_backtest returns with an
    empty trade ledger, every snapshot shows the initial cash untouched and
    no shares, and final_value equals initial_capital. *)
Theorem flat_backtest_no_trade (sqrt : Q -> Q) (c : Q) (n : nat)
    (params : StrategyParams) (cfg : BacktestConfig) :
  params_ok (default "ma_crossover" (p_type params)) params ->
  let initial := default 10000%Q (c_initial_capital cfg) in
  exists r,
    run_backtest sqrt (replicate (S n) c) params cfg = Ok r
    /\ r_trades r = []
    /\ total_trades (report r) = 0%nat
    /\ Forall (fun h => h_cash h = initial /\ h_shares h = 0%Z)
              (r_portfolio_history r)
    /\ (final_value (report r) == initial)%Q.
Proof.
  intros Hp initial.
  destruct (run_bars_hold (replicate (S n) c)
              (default "ma_crossover" (p_type params)) params
              (default 1%Q (c_position_size cfg))
              (default 1%Q (c_commission cfg))
              (seq 1 (length (replicate (S n) c) - 1))
              (initial_state initial))
    as (st & Hrun & Hc & Hsh & Ht & added & Ha & Hf).
  { apply Forall_forall. intros i Hi. apply elem_of_seq in Hi.
    rewrite length_replicate in *. split; [lia |].
    rewrite take_replicate. apply signal_flat, Hp. }
  destruct (iloc_neg_lookup 1 (replicate (S n) c)) as (last & Hl & _).
  { rewrite length_replicate. lia. }
  pose proof (run_backtest_ok sqrt (replicate (S n) c) params cfg st last
                Hrun Hl) as Hr.
  eexists. split; [exact Hr |]. cbn [r_trades r_portfolio_history report].
  cbn [initial_state cash shares trades portfolio_history] in *.
  split; [exact Ht |]. split; [cbn; rewrite Ht; reflexivity |].
  split; [rewrite Ha; exact Hf |].
  cbn [final_value _calculate_backtest_metrics]. rewrite Hc, Hsh.
  change (inject_Z 0) with 0%Q. ring.
Qed.

Lemma flat_backtest_no_trade_witness :
  exists r,
    run_backtest sqrt_approx (replicate 60 100%Q) (with_type "macd") config_10000
      = Ok r
    /\ r_trades r = []
    /\ total_trades (report r) = 0%nat
    /\ Forall (fun h => h_cash h = 10000%Q /\ h_shares h = 0%Z)
              (r_portfolio_history r)
    /\ (final_value (report r) == 10000)%Q.
Proof.
  apply (flat_backtest_no_trade sqrt_approx 100 59 (with_type "macd") config_10000).
  intros _. cbn. lia.
Defined.

End FlatBacktest.

(** ** Backtesting engine: the moving-average crossover run *)

Section CrossoverRun.
Import BacktestingEngine BacktestSpec Examples.
Local Open Scope string_scope.
Local Open Scope list_scope.

(** A rolling mean of an expanding window is the rolling mean of the
    whole series at the same bar. *)
Lemma window_mean_prefix (w : nat) (s : list xnum) (m k : nat) :
  (k < m)%nat -> window_mean w (firstn m s) k = window_mean w s k.
Proof.
  intros Hk. unfold window_mean.
  destruct ((w =? 0)%nat || (k + 1 <? w)%nat) eqn:E; [reflexivity |].
  apply orb_false_iff in E. destruct E as [_ E]. apply Nat.ltb_ge in E.
  rewrite !take_drop_commute, take_take.
  replace ((k + 1 - w + w) `min` m)%nat with (k + 1 - w + w)%nat by lia.
  reflexivity.
Qed.

Lemma close_series_prefix (df : Prices) (m : nat) :
  close_series (firstn m df) = firstn m (close_series df).
Proof. unfold close_series. symmetry. apply firstn_map. Qed.

(** From bar 49 on, the rule of the backtest answers BUY exactly at a
    golden cross and SELL exactly at a death cross of the 20/50 averages. *)
Lemma ma_signal_is_cross (df : Prices) (params : StrategyParams) (i : nat) :
  default 20%nat (p_short_window params) = 20%nat ->
  default 50%nat (p_long_window params) = 50%nat ->
  (49 <= i < length df)%nat ->
  _generate_signal (firstn (i + 1) df) "ma_crossover" params
  = Ok (if golden_cross df i then BUY
        else if death_cross df i then SELL else HOLD).
Proof.
  intros Hs Hl Hi. unfold _generate_signal. rewrite Hs, Hl.
  assert (Hlen : length (firstn (i + 1) df) = (i + 1)%nat).
  { rewrite length_take. lia. }
  rewrite Hlen.
  replace (i + 1 <? 50)%nat with false by (symmetry; apply Nat.ltb_ge; lia).
  cbn [String.eqb Ascii.eqb Bool.eqb]. cbv iota.
  rewrite !iloc_neg_rolling by (rewrite close_series_length, Hlen; lia).
  cbn [bind]. rewrite close_series_length, Hlen, close_series_prefix.
  rewrite !window_mean_prefix by lia.
  replace (i + 1 - 1)%nat with i by lia.
  replace (i + 1 - 2)%nat with (i - 1)%nat by lia.
  unfold golden_cross, death_cross, sma.
  destruct (_ && _); [reflexivity |]. destruct (_ && _); reflexivity.
Qed.








End CrossoverRun.

(** ** Sharpe ratios *)

Section Sharpe.
Import BacktestingEngine SignalSpec.
Local Open Scope string_scope.
Local Open Scope list_scope.

Variable sqrt : Q -> Q.

(** Risk Analyzer: a zero volatility gives a Sharpe ratio of 0. *)
Lemma risk_sharpe_zero_volatility (df : DataFrame) (rf : Q) (cl : list xnum) (z : Q) :
  column df "Close" = Ok cl ->
  pd_std sqrt (dropna (pct_change 1 cl)) = Fin z -> (z == 0)%Q ->
  RiskAnalyzer._calculate_sharpe_ratio sqrt df rf = Ok (Fin 0).
Proof.
  intros Hc Hs Hz. unfold RiskAnalyzer._calculate_sharpe_ratio.
  rewrite Hc. cbn [bind]. rewrite Hs. cbn [xmul]. unfold xneb. cbn [xeqb].
  replace (Qeqb (z * sqrt 252) 0) with true
    by (symmetry; apply Qeqb_eq; setoid_rewrite Hz; ring).
  reflexivity.
Qed.

(** Backtest: a standard deviation that is zero (or undefined) gives a
    Sharpe ratio of 0. *)
Lemma returns_sharpe_zero_std (returns : list xnum) :
  (np_std sqrt returns >? Fin 0)%X = false ->
  returns_sharpe sqrt returns = Fin 0.
Proof. intros H. unfold returns_sharpe. rewrite H. reflexivity. Qed.

Lemma returns_sharpe_std_zero (returns : list xnum) (z : Q) :
  np_std sqrt returns = Fin z -> (z == 0)%Q ->
  returns_sharpe sqrt returns = Fin 0.
Proof.
  intros H Hz. apply returns_sharpe_zero_std. rewrite H. cbn [xgt xlt].
  apply Qltb_ge. setoid_rewrite Hz. apply Qle_refl.
Qed.

Lemma xsum_finite (xs : list xnum) :
  Forall (fun x => is_finite x = true) xs -> exists q, xsum xs = Fin q.
Proof.
  induction 1 as [| x xs Hx _ (q & Hq)]; [exists 0%Q; reflexivity |].
  destruct x as [p | | |]; try discriminate Hx.
  exists (p + q)%Q. change (xsum (Fin p :: xs)) with (Fin p + xsum xs)%X.
  rewrite Hq. reflexivity.
Qed.

(** Backtest: on finite returns the Sharpe ratio is finite, whatever the
    standard deviation. *)
Lemma returns_sharpe_finite (returns : list xnum) :
  Forall (fun x => is_finite x = true) returns ->
  is_finite (returns_sharpe sqrt returns) = true.
Proof.
  intros Hf. unfold returns_sharpe.
  destruct (np_std sqrt returns >? Fin 0)%X eqn:E; [| reflexivity].
  destruct returns as [| r0 rest]; [discriminate E |].
  set (rs := r0 :: rest) in *.
  destruct (xsum_finite rs Hf) as (s & Hs).
  assert (Hn : Qeqb (inject_Z (Z.of_nat (length rs))) 0 = false).
  { apply of_nat_nonzero. simpl. lia. }
  assert (Hm : mean rs = Fin (s / inject_Z (Z.of_nat (length rs)))).
  { unfold mean. rewrite Hs. cbn [xdiv]. rewrite Hn. reflexivity. }
  assert (Hd : exists t, sum_sq_dev rs = Fin t).
  { unfold sum_sq_dev. rewrite Hm. apply xsum_finite.
    apply Forall_forall. intros y Hy. apply list_elem_of_In, in_map_iff in Hy.
    destruct Hy as (x & <- & Hx). rewrite Forall_forall in Hf.
    specialize (Hf x (proj2 (list_elem_of_In _ _) Hx)).
    destruct x; try discriminate Hf. reflexivity. }
  destruct Hd as (t & Ht). unfold np_std in *. rewrite Ht in *.
  cbn [xdiv] in *. rewrite Hn in *. cbn [xsqrt] in *.
  destruct (Qltb _ 0); [discriminate E |].
  cbn [xgt xlt] in E. apply Qltb_lt in E. rewrite Hm. cbn [xdiv].
  match goal with |- context [Qeqb ?z 0] =>
    replace (Qeqb z 0) with false by (symmetry; apply Qeqb_neq; lra) end.
  reflexivity.
Qed.

(** C8, at the failing input. With two bars there is a single return, the
    sample standard deviation is NaN, NaN != 0 holds, and the Risk
    Analyzer returns the quotient by NaN: a Sharpe ratio that is NaN. *)
Theorem risk_sharpe_two_bars_nan :
  RiskAnalyzer._calculate_sharpe_ratio sqrt two_bar_close
    RiskAnalyzer.default_risk_free_rate = Ok NaN.
Proof. vm_compute. reflexivity. Qed.

End Sharpe.

(** ** Python arithmetic *)

Section PyArithFacts.
Local Open Scope Q_scope.

Lemma py_min2_le_l (a b : Q) : py_min2 a b <= a.
Proof.
  unfold py_min2. destruct (Qltb b a) eqn:E.
  - apply Qltb_lt in E. lra.
  - lra.
Qed.

Lemma py_min2_le_r (a b : Q) : py_min2 a b <= b.
Proof.
  unfold py_min2. destruct (Qltb b a) eqn:E.
  - lra.
  - apply Qltb_ge in E. exact E.
Qed.

Lemma py_min2_glb (a b c : Q) : c <= a -> c <= b -> c <= py_min2 a b.
Proof. intros Ha Hb. unfold py_min2. destruct (Qltb b a); assumption. Qed.

Lemma py_max2_ge_l (a b : Q) : a <= py_max2 a b.
Proof.
  unfold py_max2. destruct (Qltb a b) eqn:E.
  - apply Qltb_lt in E. lra.
  - lra.
Qed.

Lemma py_max2_ge_r (a b : Q) : b <= py_max2 a b.
Proof.
  unfold py_max2. destruct (Qltb a b) eqn:E.
  - lra.
  - apply Qltb_ge in E. exact E.
Qed.

Lemma py_max2_lub (a b c : Q) : a <= c -> b <= c -> py_max2 a b <= c.
Proof. intros Ha Hb. unfold py_max2. destruct (Qltb a b); assumption. Qed.

Lemma py_sum_from (xs : list Q) (a : Q) :
  fold_left Qplus xs a == a + py_sum xs.
Proof.
  unfold py_sum. revert a. induction xs as [| x rest IH]; intros a; simpl.
  - lra.
  - rewrite (IH (a + x)), (IH (0 + x)). lra.
Qed.

Lemma py_sum_cons (x : Q) (xs : list Q) : py_sum (x :: xs) == x + py_sum xs.
Proof. unfold py_sum at 1. simpl. rewrite py_sum_from. lra. Qed.

Lemma py_sum_nonneg (xs : list Q) :
  Forall (fun x => 0 <= x) xs -> 0 <= py_sum xs.
Proof.
  induction 1 as [| x rest Hx _ IH].
  - unfold py_sum. simpl. lra.
  - rewrite py_sum_cons. lra.
Qed.

Lemma py_map_div (t : Q) (xs : list Q) :
  ~ t == 0 -> py_map (fun x => py_div x t) xs = Val (map (fun x => x / t) xs).
Proof.
  intros Ht. induction xs as [| x rest IH]; [reflexivity |].
  cbn [py_map map]. unfold py_div at 1.
  replace (Qeqb t 0) with false by (symmetry; apply Qeqb_neq; exact Ht).
  cbn [py_bind]. rewrite IH. reflexivity.
Qed.

End PyArithFacts.

(** ** Position sizer: the other sizing rules *)

Section PositionSizerRulesFacts.
Import PositionSizer PositionSizerRules.
Local Open Scope Q_scope.

Lemma kelly_cases (win_rate avg_win avg_loss : Q) :
  match calculate_kelly_criterion win_rate avg_win avg_loss with
  | Val k =>
      0 <= k <= 25
      /\ ~ (0 <= win_rate <= 1 /\ ~ avg_loss == 0 /\ avg_win == 0)
  | ZeroDivisionError =>
      0 <= win_rate <= 1 /\ ~ avg_loss == 0 /\ avg_win == 0
  end.
Proof.
  unfold calculate_kelly_criterion.
  destruct (Qleb 0 win_rate) eqn:E0; cbn [andb negb].
  2:{ apply Qleb_gt in E0. split; [lra |]. intros ((H & _) & _). lra. }
  destruct (Qleb win_rate 1) eqn:E1; cbn [negb].
  2:{ apply Qleb_gt in E1. split; [lra |]. intros ((_ & H) & _). lra. }
  apply Qleb_le in E0, E1.
  destruct (Qeqb avg_loss 0) eqn:El.
  { apply Qeqb_eq in El. split; [lra |]. intros (_ & H & _). contradiction. }
  apply Qeqb_neq in El.
  unfold py_div. destruct (Qeqb (Qabs (avg_win / avg_loss)) 0) eqn:Eb; cbn [py_bind].
  - apply Qeqb_eq in Eb. repeat split; try assumption.
    destruct (Qeq_dec avg_win 0) as [Hw | Hw]; [exact Hw | exfalso].
    assert (Hq : ~ avg_win / avg_loss == 0).
    { intros Hq. apply Hw.
      rewrite <- (Qmult_div_r avg_win avg_loss El). setoid_rewrite Hq. lra. }
    apply Hq. revert Eb. apply Qabs_case; intros; lra.
  - apply Qeqb_neq in Eb. split.
    + set (k := (win_rate * Qabs (avg_win / avg_loss) - (1 - win_rate))
                / Qabs (avg_win / avg_loss)).
      pose proof (py_max2_ge_l 0 (py_min2 k (25 # 100))) as Hlo.
      assert (Hhi : py_max2 0 (py_min2 k (25 # 100)) <= 25 # 100).
      { apply py_max2_lub; [lra | apply py_min2_le_r]. }
      lra.
    + intros (_ & _ & Hw). apply Eb. setoid_rewrite Hw.
      unfold Qdiv. setoid_replace (0 * / avg_loss) with 0%Q using relation Qeq by ring.
      reflexivity.
Qed.

(** X1.  The Kelly percentage is always between 0 and 25, and the call
    fails in exactly one case: a win rate in [0, 1] and a non-zero average
    loss with an average win of zero, where the win/loss ratio is zero
    and the division by it raises ZeroDivisionError. *)
Theorem kelly_criterion_range (win_rate avg_win avg_loss : Q) :
  match calculate_kelly_criterion win_rate avg_win avg_loss with
  | Val k =>
      0 <= k <= 25
      /\ ~ (0 <= win_rate <= 1 /\ ~ avg_loss == 0 /\ avg_win == 0)
  | ZeroDivisionError =>
      0 <= win_rate <= 1 /\ ~ avg_loss == 0 /\ avg_win == 0
  end.
Proof. apply kelly_cases. Qed.

Lemma volatility_size_bounds (pv target v : Q) :
  0 <= pv -> 0 <= target ->
  0 <= calculate_volatility_based_size pv v target
       <= pv * (MAX_POSITION_SIZE_PCT / 100).
Proof.
  intros Hpv Ht. unfold calculate_volatility_based_size.
  assert (Hcap : (0 <= MAX_POSITION_SIZE_PCT / 100)) by discriminate.
  destruct (Qleb v 0) eqn:Ev.
  { unfold MAX_POSITION_SIZE_PCT.
    assert (Hc : (1 # 10) <= 20 / 100) by discriminate.
    split; nra. }
  apply Qleb_gt in Ev.
  assert (Hr1 : 0 <= target / v) by (apply Qle_shift_div_l; lra).
  split.
  - apply Qmult_le_0_compat; [exact Hpv |].
    apply py_min2_glb; [lra | exact Hcap].
  - pose proof (py_min2_le_r (target / v * (1 # 10)) (MAX_POSITION_SIZE_PCT / 100)).
    nra.
Qed.

Lemma volatility_size_capped (pv target v : Q) :
  0 < v -> v <= target / 2 ->
  calculate_volatility_based_size pv v target
  == pv * (MAX_POSITION_SIZE_PCT / 100).
Proof.
  intros Hv Hle. unfold calculate_volatility_based_size, MAX_POSITION_SIZE_PCT.
  replace (Qleb v 0) with false by (symmetry; apply Qleb_gt; exact Hv).
  assert (Hr : 2 <= target / v).
  { apply Qle_shift_div_l; [exact Hv |].
    assert (target / 2 * 2 == target) by field. nra. }
  assert (Hc : (20 / 100 == 2 * (1 # 10))) by reflexivity.
  unfold py_min2. destruct (Qltb _ _) eqn:E; [reflexivity |].
  apply Qltb_ge in E.
  assert (Heq : target / v * (1 # 10) == 20 / 100) by lra.
  rewrite Heq. reflexivity.
Qed.

(** X2.  The volatility-based size of a non-negative portfolio is never
    negative; among positive volatilities a more volatile asset never
    gets a larger position; every volatility of at most half the target
    gets one and the same size, the one the cap on the position fraction
    gives; and without a positive volatility the size is the default
    tenth of the portfolio. *)
Theorem volatility_based_size_monotone (pv target : Q)
    (Hpv : 0 <= pv) (Ht : 0 <= target) :
  (forall v, 0 <= calculate_volatility_based_size pv v target)
  /\ (forall v1 v2, 0 < v1 -> v1 <= v2 ->
        calculate_volatility_based_size pv v2 target
        <= calculate_volatility_based_size pv v1 target)
  /\ (forall v, 0 < v -> v <= target / 2 ->
        calculate_volatility_based_size pv v target
        == calculate_volatility_based_size pv (target / 2) target)
  /\ (forall v, v <= 0 ->
        calculate_volatility_based_size pv v target == pv * (1 # 10)).
Proof.
  split; [intros v; apply volatility_size_bounds; assumption |].
  split.
  { intros v1 v2 Hv1 Hv. unfold calculate_volatility_based_size.
    replace (Qleb v1 0) with false by (symmetry; apply Qleb_gt; exact Hv1).
    replace (Qleb v2 0) with false by (symmetry; apply Qleb_gt; lra).
    assert (Hr : target / v2 <= target / v1).
    { apply Qle_shift_div_l; [exact Hv1 |].
      assert (H2 : target / v2 * v2 == target) by (field; lra).
      assert (0 <= target / v2) by (apply Qle_shift_div_l; lra).
      nra. }
    assert (py_min2 (target / v2 * (1 # 10)) (MAX_POSITION_SIZE_PCT / 100)
            <= py_min2 (target / v1 * (1 # 10)) (MAX_POSITION_SIZE_PCT / 100)).
    { apply py_min2_glb.
      - pose proof (py_min2_le_l (target / v2 * (1 # 10))
                      (MAX_POSITION_SIZE_PCT / 100)).
        lra.
      - apply py_min2_le_r. }
    nra. }
  split.
  { intros v Hv Hle.
    rewrite (volatility_size_capped pv target v Hv Hle).
    rewrite (volatility_size_capped pv target (target / 2)); [reflexivity | lra | lra]. }
  intros v Hv. unfold calculate_volatility_based_size.
  replace (Qleb v 0) with true by (symmetry; apply Qleb_le; exact Hv).
  reflexivity.
Qed.

Lemma volatility_based_size_monotone_witness :
  calculate_volatility_based_size 10000 30 15
  <= calculate_volatility_based_size 10000 10 15
  /\ calculate_volatility_based_size 10000 5 15
     == calculate_volatility_based_size 10000 (15 / 2) 15.
Proof.
  destruct (volatility_based_size_monotone 10000 15) as (_ & Hmono & Hcap & _);
    [discriminate | discriminate |].
  split; [apply Hmono; [reflexivity | discriminate] |].
  apply Hcap; [reflexivity | discriminate].
Defined.

Lemma equal_weight_cases (pv : Q) (n : Z) :
  0 <= pv -> (1 <= n)%Z ->
  ((n <= 4)%Z -> calculate_equal_weight pv n == pv * (MAX_POSITION_SIZE_PCT / 100))
  /\ ((5 <= n)%Z -> calculate_equal_weight pv n == pv / inject_Z n).
Proof.
  intros Hpv Hn. unfold calculate_equal_weight, MAX_POSITION_SIZE_PCT.
  replace (n <=? 0)%Z with false by (symmetry; apply Z.leb_gt; lia).
  assert (Hn1 : 1 <= inject_Z n) by (unfold Qle; simpl; lia).
  assert (Hq : 0 <= pv / inject_Z n) by (apply Qle_shift_div_l; lra).
  assert (Hm : pv / inject_Z n * inject_Z n == pv) by (field; lra).
  assert (H5 : pv * (20 / 100) * 5 == pv) by (field).
  split; intros Hn5.
  - assert (inject_Z n <= inject_Z 4) by (unfold Qle; simpl; lia).
    change (inject_Z 4) with 4 in *.
    unfold py_min2. destruct (Qltb _ _) eqn:E; [reflexivity |].
    apply Qltb_ge in E.
    assert (pv / inject_Z n * 4 >= pv) by nra.
    assert (pv == 0) by nra.
    assert (Hz : pv / inject_Z n == 0).
    { setoid_replace pv with 0%Q using relation Qeq by assumption.
      unfold Qdiv. ring. }
    setoid_rewrite Hz. setoid_replace pv with 0%Q using relation Qeq by assumption.
    reflexivity.
  - assert (inject_Z 5 <= inject_Z n) by (unfold Qle; simpl; lia).
    change (inject_Z 5) with 5 in *.
    unfold py_min2. destruct (Qltb _ _) eqn:E; [| reflexivity].
    apply Qltb_lt in E. exfalso.
    assert (pv * (20 / 100) * inject_Z n < pv) by nra.
    nra.
Qed.

Lemma equal_weight_range (pv : Q) (n : Z) :
  0 <= pv -> (1 <= n)%Z ->
  0 <= calculate_equal_weight pv n <= pv / inject_Z n.
Proof.
  intros Hpv Hn. unfold calculate_equal_weight, MAX_POSITION_SIZE_PCT.
  replace (n <=? 0)%Z with false by (symmetry; apply Z.leb_gt; lia).
  assert (Hn1 : 1 <= inject_Z n) by (unfold Qle; simpl; lia).
  assert (Hq : 0 <= pv / inject_Z n) by (apply Qle_shift_div_l; lra).
  assert (Hc : 0 <= pv * (20 / 100)).
  { apply Qmult_le_0_compat; [exact Hpv | discriminate]. }
  split; [apply py_min2_glb; assumption | apply py_min2_le_l].
Qed.

(** X3.  Equal weighting of a non-negative portfolio.  Without a
    positive number of positions the size is 0.  For n >= 1 positions the
    size is between 0 and the portfolio and never grows with n; from
    five positions on it is the even split portfolio / n; and one to
    four positions all get the same size, the cap of the unsplit
    portfolio. *)
Theorem equal_weight_shape (pv : Q) (Hpv : 0 <= pv) :
  (forall n, (n <= 0)%Z -> calculate_equal_weight pv n == 0)
  /\ (forall n, (1 <= n)%Z -> 0 <= calculate_equal_weight pv n <= pv)
  /\ (forall n1 n2, (1 <= n1)%Z -> (n1 <= n2)%Z ->
        calculate_equal_weight pv n2 <= calculate_equal_weight pv n1)
  /\ (forall n, (5 <= n)%Z -> calculate_equal_weight pv n == pv / inject_Z n)
  /\ (forall n, (1 <= n)%Z -> (n <= 4)%Z ->
        calculate_equal_weight pv n == calculate_equal_weight pv 1).
Proof.
  split.
  { intros n Hn. unfold calculate_equal_weight.
    replace (n <=? 0)%Z with true by (symmetry; apply Z.leb_le; exact Hn).
    reflexivity. }
  split.
  { intros n Hn. destruct (equal_weight_range pv n Hpv Hn) as [H0 H1].
    split; [exact H0 |]. apply Qle_trans with (pv / inject_Z n); [exact H1 |].
    assert (Hn1 : 1 <= inject_Z n) by (unfold Qle; simpl; lia).
    apply Qle_shift_div_r; [lra | nra]. }
  split.
  { intros n1 n2 H1 H12.
    assert (Hq1 : 1 <= inject_Z n1) by (unfold Qle; simpl; lia).
    assert (Hq12 : inject_Z n1 <= inject_Z n2) by (unfold Qle; simpl; lia).
    assert (Hdiv : pv / inject_Z n2 <= pv / inject_Z n1).
    { apply Qle_shift_div_l; [lra |].
      assert (pv / inject_Z n2 * inject_Z n2 == pv) by (field; lra).
      assert (0 <= pv / inject_Z n2) by (apply Qle_shift_div_l; lra).
      nra. }
    unfold calculate_equal_weight.
    replace (n1 <=? 0)%Z with false by (symmetry; apply Z.leb_gt; lia).
    replace (n2 <=? 0)%Z with false by (symmetry; apply Z.leb_gt; lia).
    apply py_min2_glb.
    - apply Qle_trans with (pv / inject_Z n2); [apply py_min2_le_l | exact Hdiv].
    - apply py_min2_le_r. }
  split.
  { intros n Hn. apply (equal_weight_cases pv n Hpv); lia. }
  intros n H1 H4.
  destruct (equal_weight_cases pv n Hpv H1) as [Hn _].
  destruct (equal_weight_cases pv 1 Hpv ltac:(lia)) as [Ho _].
  rewrite (Hn H4), (Ho ltac:(lia)). reflexivity.
Qed.

Lemma equal_weight_shape_witness :
  calculate_equal_weight 1000 15 <= calculate_equal_weight 1000 3
  /\ calculate_equal_weight 1000 15 == 1000 / inject_Z 15
  /\ calculate_equal_weight 1000 3 == calculate_equal_weight 1000 1.
Proof.
  destruct (equal_weight_shape 1000) as (_ & _ & Hmono & Hsplit & Hcap);
    [discriminate |].
  split; [apply Hmono; lia |]. split; [apply Hsplit; lia | apply Hcap; lia].
Defined.

Lemma inverse_vols_nonneg (vols : list Q) :
  Forall (fun x => 0 <= x)
    (map (fun vol => if Qltb 0 vol then 1 / vol else 0) vols).
Proof.
  apply Forall_forall. intros x Hx.
  apply list_elem_of_In, in_map_iff in Hx. destruct Hx as (v & <- & _).
  destruct (Qltb 0 v) eqn:E; [| lra].
  apply Qltb_lt in E. apply Qle_shift_div_l; lra.
Qed.

Lemma inverse_vols_total (vols : list Q) :
  (Forall (fun v => v <= 0) vols
   /\ py_sum (map (fun vol => if Qltb 0 vol then 1 / vol else 0) vols) == 0)
  \/ (~ Forall (fun v => v <= 0) vols
      /\ 0 < py_sum (map (fun vol => if Qltb 0 vol then 1 / vol else 0) vols)).
Proof.
  induction vols as [| v rest IH].
  - left. split; [constructor | reflexivity].
  - cbn [map]. pose proof (inverse_vols_nonneg rest) as Hnn.
    apply py_sum_nonneg in Hnn.
    destruct (Qltb 0 v) eqn:E.
    + apply Qltb_lt in E. right. split.
      * intros H. inversion H; subst. lra.
      * rewrite py_sum_cons.
        assert (0 < 1 / v) by (apply Qlt_shift_div_l; lra). lra.
    + apply Qltb_ge in E. destruct IH as [(Hall & Hs) | (Hnot & Hs)].
      * left. split; [constructor; assumption |]. rewrite py_sum_cons. lra.
      * right. split.
        -- intros H. inversion H; subst. contradiction.
        -- rewrite py_sum_cons. lra.
Qed.

Lemma py_sum_pos (xs : list Q) :
  xs <> [] -> Forall (fun x => 0 < x) xs -> 0 < py_sum xs.
Proof.
  intros Hne Hall. destruct Hall as [| x rest Hx Hrest]; [contradiction |].
  rewrite py_sum_cons.
  assert (0 <= py_sum rest).
  { apply py_sum_nonneg. eapply Forall_impl; [exact Hrest |].
    intros a Ha. simpl in Ha. lra. }
  lra.
Qed.

Lemma py_sum_neg (xs : list Q) :
  xs <> [] -> Forall (fun x => x < 0) xs -> py_sum xs < 0.
Proof.
  intros Hne Hall. induction Hall as [| x rest Hx Hrest IH]; [contradiction |].
  rewrite py_sum_cons. destruct rest as [| y rest'].
  - unfold py_sum. simpl. lra.
  - assert (py_sum (y :: rest') < 0) by (apply IH; discriminate). lra.
Qed.

(** X4.  Risk parity on a non-negative portfolio.  When every volatility
    is positive the call returns one size per asset, in the order of the
    assets, each between 0 and the portfolio, and an asset that is no
    more volatile than another never gets a smaller size.  When every
    volatility is negative no inverse is taken, the total of the inverse
    volatilities is 0, and the call raises ZeroDivisionError. *)
Theorem risk_parity_ordering (pv : Q) (vols : list Q)
    (Hpv : 0 <= pv) (Hne : vols <> []) :
  (Forall (fun v => 0 < v) vols ->
     exists sizes,
       calculate_risk_parity pv vols = Val sizes
       /\ length sizes = length vols
       /\ Forall (fun s => 0 <= s <= pv) sizes
       /\ (forall (i j : nat) (vi vj si sj : Q),
             vols !! i = Some vi -> vols !! j = Some vj ->
             sizes !! i = Some si -> sizes !! j = Some sj ->
             vi <= vj -> sj <= si))
  /\ (Forall (fun v => v < 0) vols ->
        calculate_risk_parity pv vols = ZeroDivisionError).
Proof.
  assert (Hcap : 0 <= pv * (MAX_POSITION_SIZE_PCT / 100)).
  { apply Qmult_le_0_compat; [exact Hpv | discriminate]. }
  assert (Hcap' : pv * (MAX_POSITION_SIZE_PCT / 100) <= pv).
  { unfold MAX_POSITION_SIZE_PCT.
    assert (Hc : 20 / 100 == 1 # 5) by reflexivity. rewrite Hc. lra. }
  unfold calculate_risk_parity. destruct vols as [| v0 rest]; [contradiction |].
  set (vols := v0 :: rest) in *.
  set (inv := map (fun vol => if Qltb 0 vol then 1 / vol else 0) vols).
  pose proof (inverse_vols_total vols) as Ht. fold inv in Ht.
  pose proof (inverse_vols_nonneg vols) as Hnn. fold inv in Hnn.
  split; intros Hall.
  - pose proof (py_sum_pos vols Hne Hall) as Hs.
    replace (Qeqb (py_sum vols) 0) with false by (symmetry; apply Qeqb_neq; lra).
    destruct Ht as [(Hnone & _) | (_ & Hpos)].
    { exfalso. subst vols. inversion Hall; subst. inversion Hnone; subst. lra. }
    rewrite py_map_div by lra. cbn [py_bind].
    eexists. split; [reflexivity |].
    split; [subst inv; rewrite !length_map; reflexivity |].
    split.
    + apply Forall_forall. intros s Hin.
      apply list_elem_of_In in Hin. rewrite !map_map in Hin.
      apply in_map_iff in Hin. destruct Hin as (x & <- & Hx).
      split.
      * apply py_min2_glb; [| exact Hcap].
        apply Qmult_le_0_compat; [exact Hpv |].
        apply Qle_shift_div_l; [exact Hpos |].
        rewrite Forall_forall in Hnn.
        specialize (Hnn x (proj2 (list_elem_of_In _ _) Hx)). lra.
      * apply Qle_trans with (pv * (MAX_POSITION_SIZE_PCT / 100));
          [apply py_min2_le_r | exact Hcap'].
    + intros i j vi vj si sj Hvi Hvj Hsi Hsj Hle.
      subst inv. rewrite !map_map in Hsi, Hsj.
      rewrite list_lookup_fmap, Hvi in Hsi. rewrite list_lookup_fmap, Hvj in Hsj.
      simpl in Hsi, Hsj. injection Hsi as <-. injection Hsj as <-.
      rewrite Forall_forall in Hall.
      assert (Hi : 0 < vi) by (apply Hall; eapply list_elem_of_lookup_2; exact Hvi).
      assert (Hj : 0 < vj) by (apply Hall; eapply list_elem_of_lookup_2; exact Hvj).
      replace (Qltb 0 vi) with true by (symmetry; apply Qltb_lt; exact Hi).
      replace (Qltb 0 vj) with true by (symmetry; apply Qltb_lt; exact Hj).
      set (T := py_sum _) in *.
      assert (Hinv : 1 / vj <= 1 / vi).
      { apply Qle_shift_div_l; [exact Hi |].
        assert (1 / vj * vj == 1) by (field; lra).
        assert (0 < 1 / vj) by (apply Qlt_shift_div_l; lra).
        nra. }
      assert (Hw : 1 / vj / T <= 1 / vi / T).
      { apply Qle_shift_div_l; [exact Hpos |].
        assert (1 / vj / T * T == 1 / vj) by (field; lra). lra. }
      apply py_min2_glb; [| apply py_min2_le_r].
      apply Qle_trans with (pv * (1 / vj / T)); [apply py_min2_le_l | nra].
  - pose proof (py_sum_neg vols Hne Hall) as Hs.
    replace (Qeqb (py_sum vols) 0) with false by (symmetry; apply Qeqb_neq; lra).
    destruct Ht as [(_ & Hz) | (Hsome & _)].
    + subst inv vols. cbn [map py_map]. cbn [map] in Hz. unfold py_div at 1.
      replace (Qeqb _ 0) with true by (symmetry; apply Qeqb_eq; exact Hz).
      reflexivity.
    + exfalso. apply Hsome. eapply Forall_impl; [exact Hall |].
      intros a Ha. simpl in Ha. lra.
Qed.

Lemma risk_parity_ordering_witness :
  exists sizes,
    calculate_risk_parity 1000 [10; 40; 20; 80; 120; 160] = Val sizes
    /\ length sizes = 6%nat
    /\ Forall (fun s => 0 <= s <= 1000) sizes.
Proof.
  destruct (risk_parity_ordering 1000 [10; 40; 20; 80; 120; 160]) as [Hpos _];
    [discriminate | discriminate |].
  destruct Hpos as (sizes & Hs & Hlen & Hrange & _).
  { repeat constructor. }
  exists sizes. split; [exact Hs |]. split; [exact Hlen | exact Hrange].
Defined.

Lemma position_size_nonneg (pv entry stop risk : Q) :
  0 <= risk -> (0 <= calculate_position_size pv entry stop risk)%Z.
Proof.
  intros Hr. unfold calculate_position_size.
  destruct (Qleb pv 0) eqn:Ep; [simpl; lia |].
  destruct (Qleb entry 0) eqn:Ee; [simpl; lia |].
  apply Qleb_gt in Ep, Ee. simpl orb. cbv iota.
  destruct (Qeqb (Qabs (entry - stop)) 0) eqn:Ea; [lia |].
  apply Qeqb_neq in Ea. cbv zeta.
  assert (Hab : 0 < Qabs (entry - stop)).
  { pose proof (Qabs_nonneg (entry - stop)). lra. }
  assert (Hs : 0 <= pv * (risk / 100) / Qabs (entry - stop)).
  { apply Qle_shift_div_l; [exact Hab |].
    assert (0 <= risk / 100) by (apply Qle_shift_div_l; lra). nra. }
  destruct (Qltb _ _); apply py_int_nonneg; [| exact Hs].
  apply Qle_shift_div_l; [exact Ee |].
  pose proof (cap_nonneg pv Ep). unfold MAX_POSITION_SIZE_PCT. lra.
Qed.

Lemma scaling_shares_sum (total per n1 : Z) (m : nat) (f : Z -> Z -> scaling_entry) :
  (forall i sh, entry_shares (f i sh) = sh) ->
  n1 = Z.of_nat m ->
  fold_right Z.add 0%Z
    (map entry_shares
       (map (fun k : nat =>
               let i := Z.of_nat k in
               f i (if (i =? n1)%Z then (total - per * n1)%Z else per))
            (seq 0 (S m))))
  = total.
Proof.
  intros Hf ->. rewrite seq_S, !map_app, fold_right_app. cbn [map fold_right].
  cbv zeta. rewrite Hf, Z.eqb_refl, Z.add_0_r.
  assert (Hgen : forall acc,
    fold_right Z.add acc
      (map entry_shares
         (map (fun k : nat =>
                 f (Z.of_nat k)
                   (if (Z.of_nat k =? Z.of_nat m)%Z
                    then (total - per * Z.of_nat m)%Z else per))
              (seq 0 m)))
    = (per * Z.of_nat m + acc)%Z).
  { intros acc. rewrite !map_map.
    assert (Hk : forall a b, (a + b = m)%nat ->
      fold_right Z.add acc
        (map (fun k : nat =>
                entry_shares
                  (f (Z.of_nat k)
                     (if (Z.of_nat k =? Z.of_nat m)%Z
                      then (total - per * Z.of_nat m)%Z else per)))
             (seq a b))
      = (per * Z.of_nat b + acc)%Z).
    { intros a b. revert a. induction b as [| b IH]; intros a Hab.
      - simpl. lia.
      - cbn [seq map fold_right]. rewrite Hf.
        replace (Z.of_nat a =? Z.of_nat m)%Z with false
          by (symmetry; apply Z.eqb_neq; lia).
        rewrite (IH (S a)) by lia. lia. }
    apply (Hk 0%nat m). lia. }
  rewrite Hgen. lia.
Qed.

(** X6.  The scaling plan.  For a number of entries n >= 1 and a
    non-zero position the plan has n entries, numbered 1..n, whose share
    counts add up exactly to the shares of calculate_position_size (the
    last entry absorbs the remainder of the integer division), each
    entry priced 2 % of the entry price below the previous one.  With a
    position of zero shares, or a negative n, the plan is empty; with
    n = 0 and a non-zero position the call raises ZeroDivisionError. *)
Theorem scaling_plan_covers_position (pv entry stop : Q) (n : Z) :
  let total := calculate_position_size pv entry stop 2 in
  match calculate_scaling_strategy pv entry stop n with
  | Val plan =>
      if (total =? 0)%Z || (n <? 0)%Z then plan = []
      else
        (1 <= n)%Z
        /\ length plan = Z.to_nat n
        /\ fold_right Z.add 0%Z (map entry_shares plan) = total
        /\ forall (k : nat) (e : scaling_entry),
             plan !! k = Some e ->
             entry_number e = (Z.of_nat k + 1)%Z
             /\ target_price e == entry * (1 - inject_Z (Z.of_nat k) * (2 # 100))
  | ZeroDivisionError => n = 0%Z /\ total <> 0%Z
  end.
Proof.
  cbv zeta. unfold calculate_scaling_strategy.
  set (total := calculate_position_size pv entry stop 2).
  destruct (total =? 0)%Z eqn:Et; [reflexivity |].
  apply Z.eqb_neq in Et. unfold floor_div.
  destruct (n =? 0)%Z eqn:En; cbn [py_bind orb].
  { apply Z.eqb_eq in En. split; assumption. }
  apply Z.eqb_neq in En.
  destruct (n <? 0)%Z eqn:Eneg.
  { apply Z.ltb_lt in Eneg. destruct n; try lia. reflexivity. }
  apply Z.ltb_ge in Eneg. split; [lia |].
  split; [rewrite length_map, length_seq; reflexivity |].
  split.
  - destruct (Z.to_nat n) as [| m] eqn:Em; [lia |].
    apply (scaling_shares_sum total (total / n) (n - 1) m
             (fun i sh =>
                {| entry_number := (i + 1)%Z;
                   entry_shares := sh;
                   target_price := entry * (1 - inject_Z i * (2 # 100));
                   entry_value := inject_Z sh * entry * (1 - inject_Z i * (2 # 100));
                   percentage_of_total := inject_Z sh / inject_Z total * 100 |})).
    + intros i sh. reflexivity.
    + lia.
  - intros k e Hk. rewrite list_lookup_fmap in Hk.
    destruct (seq 0 (Z.to_nat n) !! k) as [k' |] eqn:Ek; [| discriminate Hk].
    apply lookup_seq in Ek. destruct Ek as [-> _]. simpl in Hk.
    injection Hk as <-. cbn [entry_number target_price].
    split; reflexivity.
Qed.

(** X7.  The three standard recommendations.  For a positive portfolio
    and entry price the call returns.  The moderate entry holds the
    shares of calculate_position_size at the risk percentage of the
    tolerance, the conservative one half of them and the aggressive one
    one and a half times as many, both rounded down, so that
    0 <= conservative <= moderate <= aggressive; each value is the share
    count times the entry price.  A volatility-adjusted entry is present
    exactly when a non-zero volatility is given, a Kelly entry exactly
    when win rate, average win and average loss are all given and
    non-zero.  The aggressive entry is not held to the 20 percent cap: at
    (10000, 50, 48) it is 60 shares worth 3000, which
    validate_position_size rejects. *)
Theorem recommendations_ordered (pv entry stop : Q)
    (volatility : option Q) (risk_tolerance : string)
    (win_rate avg_win avg_loss : option Q)
    (Hpv : 0 < pv) (He : 0 < entry) :
  (exists r,
    get_position_recommendations pv entry stop volatility risk_tolerance
      win_rate avg_win avg_loss = Val r
    /\ rec_shares (moderate r)
       = calculate_position_size pv entry stop (risk_pct_of risk_tolerance)
    /\ rec_shares (conservative r) = (rec_shares (moderate r) / 2)%Z
    /\ rec_shares (aggressive r) = (3 * rec_shares (moderate r) / 2)%Z
    /\ (0 <= rec_shares (conservative r) <= rec_shares (moderate r))%Z
    /\ (rec_shares (moderate r) <= rec_shares (aggressive r))%Z
    /\ (forall s, In s [conservative r; moderate r; aggressive r] ->
          rec_value s == inject_Z (rec_shares s) * entry)
    /\ (volatility_adjusted r <> None <-> truthy volatility = true)
    /\ (kelly_criterion r <> None
        <-> truthy win_rate && truthy avg_win && truthy avg_loss = true))
  /\ (exists r,
        get_position_recommendations 10000 50 48 None "Medium" None None None
          = Val r
        /\ rec_shares (aggressive r) = 60%Z
        /\ rec_value (aggressive r) == 3000
        /\ PositionSizerBinary64.validate_position_size 10000 (60 * 50) 1
           = Val {| PositionSizerBinary64.size_is_valid := false;
                    PositionSizerBinary64.size_warnings :=
                      [PositionSizerBinary64.LargePosition 30];
                    PositionSizerBinary64.size_errors :=
                      [PositionSizerBinary64.ExceedsMaximum 30] |}).
Proof.
  split.
  2:{ eexists. split; [vm_compute; reflexivity |].
      split; [reflexivity |]. split; [reflexivity |].
      vm_compute. reflexivity. }
  unfold get_position_recommendations.
  set (risk := risk_pct_of risk_tolerance).
  assert (Hrisk : 0 <= risk).
  { subst risk. unfold risk_pct_of.
    repeat (destruct (String.eqb _ _)); discriminate. }
  pose proof (position_size_nonneg pv entry stop risk Hrisk) as Hb.
  set (basic := calculate_position_size pv entry stop risk) in *.
  assert (Hbq : 0 <= inject_Z basic) by (unfold Qle; simpl; lia).
  assert (Hvol : exists vr,
    match volatility with
    | Some v =>
        if truthy volatility then
          py_bind (py_div (calculate_volatility_based_size pv v 15) entry)
            (fun per_share =>
               Val (Some {| rec_shares := py_int per_share;
                            rec_value := inject_Z (py_int per_share) * entry |}))
        else Val None
    | None => Val None
    end = Val vr
    /\ (vr <> None <-> truthy volatility = true)).
  { destruct volatility as [v |];
      [| eexists; split; [reflexivity | split; [congruence | discriminate]]].
    destruct (truthy (Some v));
      [| eexists; split; [reflexivity | split; [congruence | discriminate]]].
    unfold py_div.
    replace (Qeqb entry 0) with false by (symmetry; apply Qeqb_neq; lra).
    cbn [py_bind]. eexists. split; [reflexivity |].
    split; [reflexivity | discriminate]. }
  destruct Hvol as (vr & Hvr & Hvb). rewrite Hvr. cbn [py_bind].
  assert (Hkel : exists kr,
    match win_rate, avg_win, avg_loss with
    | Some w, Some aw, Some al =>
        if truthy win_rate && truthy avg_win && truthy avg_loss then
          py_bind (calculate_kelly_criterion w aw al) (fun kelly_pct =>
          py_bind (py_div (pv * (kelly_pct / 100) * (5 # 10)) entry)
            (fun per_share =>
               Val (Some {| rec_shares := py_int per_share;
                            rec_value := inject_Z (py_int per_share) * entry |})))
        else Val None
    | _, _, _ => Val None
    end = Val kr
    /\ (kr <> None
        <-> truthy win_rate && truthy avg_win && truthy avg_loss = true)).
  { destruct win_rate as [w |];
      [| eexists; split; [reflexivity | split; [congruence | discriminate]]].
    destruct avg_win as [aw |].
    2:{ eexists. split; [reflexivity |]. split; [congruence |].
        cbn [truthy]. rewrite andb_false_r. discriminate. }
    destruct avg_loss as [al |].
    2:{ eexists. split; [reflexivity |]. split; [congruence |].
        cbn [truthy]. rewrite andb_false_r. discriminate. }
    destruct (truthy (Some w) && truthy (Some aw) && truthy (Some al)) eqn:Et;
      [| eexists; split; [reflexivity | split; [congruence | discriminate]]].
    pose proof Et as Et'.
    apply andb_prop in Et. destruct Et as [Et _].
    apply andb_prop in Et. destruct Et as [_ Haw].
    cbn [truthy] in Haw. apply negb_true_iff, Qeqb_neq in Haw.
    pose proof (kelly_cases w aw al) as Hk.
    destruct (calculate_kelly_criterion w aw al) as [k |].
    2:{ exfalso. apply Haw. apply Hk. }
    cbn [py_bind]. unfold py_div.
    replace (Qeqb entry 0) with false by (symmetry; apply Qeqb_neq; lra).
    cbn [py_bind]. eexists. split; [reflexivity |].
    split; [reflexivity | discriminate]. }
  destruct Hkel as (kr & Hkr & Hkb). rewrite Hkr. cbn [py_bind].
  eexists. split; [reflexivity |].
  cbn [conservative moderate aggressive volatility_adjusted kelly_criterion
       rec_shares rec_value].
  assert (Hhalf : py_int (inject_Z basic * (5 # 10)) = (basic / 2)%Z).
  { rewrite py_int_floor by nra. unfold Qfloor, Qmult, inject_Z. simpl.
    change (Z.pos (1 * 10)) with (2 * 5)%Z.
    apply Z.div_mul_cancel_r; lia. }
  assert (Hmore : py_int (inject_Z basic * (15 # 10)) = (3 * basic / 2)%Z).
  { rewrite py_int_floor by nra. unfold Qfloor, Qmult, inject_Z. simpl.
    change (Z.pos (1 * 10)) with (2 * 5)%Z.
    replace (basic * 15)%Z with (3 * basic * 5)%Z by lia.
    apply Z.div_mul_cancel_r; lia. }
  rewrite Hhalf, Hmore.
  split; [reflexivity |]. split; [reflexivity |]. split; [reflexivity |].
  split; [split; [apply Z.div_pos; lia | apply Z.div_le_upper_bound; lia] |].
  split; [apply Z.div_le_lower_bound; lia |].
  split; [| split; assumption].
  intros s [<- | [<- | [<- | []]]]; cbn [rec_value rec_shares]; reflexivity.
Qed.

Lemma recommendations_ordered_witness :
  exists r,
    get_position_recommendations 10000 50 48 (Some 25) "High"
      (Some (6 # 10)) (Some 300) (Some 200) = Val r
    /\ (0 <= rec_shares (conservative r) <= rec_shares (moderate r))%Z
    /\ (rec_shares (moderate r) <= rec_shares (aggressive r))%Z
    /\ volatility_adjusted r <> None
    /\ kelly_criterion r <> None.
Proof.
  destruct (recommendations_ordered 10000 50 48 (Some 25) "High"
              (Some (6 # 10)) (Some 300) (Some 200))
    as [(r & Hr & _ & _ & _ & Hlow & Hhigh & _ & Hvol & Hkelly) _];
    [reflexivity | reflexivity |].
  exists r. split; [exact Hr |]. split; [exact Hlow |]. split; [exact Hhigh |].
  split; [apply Hvol | apply Hkelly]; reflexivity.
Defined.

End PositionSizerRulesFacts.

(** ** Rounding *)

Section RoundFacts.
Local Open Scope Q_scope.

Lemma round_half_even_cases (q : Q) :
  round_half_even q = Qfloor q \/ round_half_even q = (Qfloor q + 1)%Z.
Proof.
  unfold round_half_even.
  destruct (Qltb _ _); [left; reflexivity |].
  destruct (Qltb _ _); [right; reflexivity |].
  destruct (Z.even _); [left | right]; reflexivity.
Qed.

Lemma round_half_even_mono (q1 q2 : Q) :
  q1 <= q2 -> (round_half_even q1 <= round_half_even q2)%Z.
Proof.
  intros H. pose proof (Qfloor_resp_le q1 q2 H) as Hf.
  destruct (Z.eq_dec (Qfloor q1) (Qfloor q2)) as [He | Hne].
  - unfold round_half_even. rewrite <- He.
    set (f := Qfloor q1) in *.
    destruct (Qltb (q1 - inject_Z f) (1 # 2)) eqn:A1.
    + destruct (Qltb (q2 - inject_Z f) (1 # 2)); [lia |].
      destruct (Qltb (1 # 2) (q2 - inject_Z f)); [lia |].
      destruct (Z.even f); lia.
    + apply Qltb_ge in A1.
      replace (Qltb (q2 - inject_Z f) (1 # 2)) with false
        by (symmetry; apply Qltb_ge; lra).
      destruct (Qltb (1 # 2) (q1 - inject_Z f)) eqn:A2.
      * apply Qltb_lt in A2.
        replace (Qltb (1 # 2) (q2 - inject_Z f)) with true
          by (symmetry; apply Qltb_lt; lra).
        lia.
      * destruct (Qltb (1 # 2) (q2 - inject_Z f)); [destruct (Z.even f); lia |].
        lia.
  - destruct (round_half_even_cases q1) as [-> | ->];
      destruct (round_half_even_cases q2) as [-> | ->]; lia.
Qed.

Lemma round_half_even_Z (z : Z) : round_half_even (inject_Z z) = z.
Proof.
  unfold round_half_even. rewrite Qfloor_Z.
  replace (Qltb (inject_Z z - inject_Z z) (1 # 2)) with true; [reflexivity |].
  symmetry. apply Qltb_lt. lra.
Qed.

Lemma round_half_even_eq (q1 q2 : Q) :
  q1 == q2 -> round_half_even q1 = round_half_even q2.
Proof.
  intros H. apply Z.le_antisymm; apply round_half_even_mono; lra.
Qed.

Lemma pow10_pos (n : nat) : 0 < inject_Z (10 ^ Z.of_nat n).
Proof.
  assert (0 < 10 ^ Z.of_nat n)%Z by (apply Z.pow_pos_nonneg; lia).
  unfold Qlt. simpl. lia.
Qed.

Lemma py_round_mono (q1 q2 : Q) (n : nat) :
  q1 <= q2 -> py_round q1 n <= py_round q2 n.
Proof.
  intros H. unfold py_round. pose proof (pow10_pos n) as Hp.
  set (p := inject_Z (10 ^ Z.of_nat n)) in *.
  assert (Hr : (round_half_even (q1 * p) <= round_half_even (q2 * p))%Z).
  { apply round_half_even_mono. nra. }
  assert (Hq : inject_Z (round_half_even (q1 * p))
               <= inject_Z (round_half_even (q2 * p))).
  { unfold Qle. simpl. lia. }
  unfold Qdiv. apply Qmult_le_compat_r; [exact Hq |].
  apply Qlt_le_weak, Qinv_lt_0_compat. exact Hp.
Qed.

(** A value with [ndigits] decimals is left alone. *)
Lemma py_round_fix (q : Q) (n : nat) (z : Z) :
  q * inject_Z (10 ^ Z.of_nat n) == inject_Z z -> py_round q n == q.
Proof.
  intros H. unfold py_round. pose proof (pow10_pos n) as Hp.
  rewrite (round_half_even_eq _ _ H), round_half_even_Z, <- H.
  field. lra.
Qed.

End RoundFacts.

(** ** Stop-loss and take-profit rules *)

Section StopLossRulesFacts.
Import StopLossRules RulesSpec.
Local Open Scope string_scope.
Local Open Scope list_scope.
Local Open Scope Q_scope.

Lemma pct_95 : 1 - DEFAULT_STOP_LOSS_PCT / 100 == 95 # 100.
Proof. reflexivity. Qed.

Lemma pct_925 : 1 - DEFAULT_STOP_LOSS_PCT * (15 # 10) / 100 == 925 # 1000.
Proof. reflexivity. Qed.

Lemma cents_round (q : Q) : cents q -> py_round q 2 == q.
Proof. intros (z & Hz). apply (py_round_fix q 2 z). exact Hz. Qed.

(** X13.  The multiple-exit plan.  With the stop at or above the entry,
    or without a positive number of exits, the plan is empty.  For a stop
    below the entry and n >= 1 exits the plan has n exits, numbered from
    1; exit k carries the risk/reward ratio 1.5 k; the first exit is
    described as the first target, the last of several as the final
    target and the others as intermediate targets; no target is below
    the entry price rounded to cents, and the targets never decrease. *)
Theorem multiple_exits_ladder (entry stop : Q) (n : Z)
    (Hr : stop < entry) (Hn : (1 <= n)%Z) :
  let plan := calculate_multiple_exit_strategy entry stop n in
  length plan = Z.to_nat n
  /\ (forall (k : nat) (e : exit_target),
        plan !! k = Some e ->
        exit_number e = (Z.of_nat k + 1)%Z
        /\ risk_reward_ratio e == inject_Z (Z.of_nat k + 1) * (15 # 10)
        /\ description e
           = (if (k =? 0)%nat then FirstTarget
              else if (Z.of_nat k + 1 =? n)%Z then FinalTarget
              else IntermediateTarget (Z.of_nat k + 1))
        /\ py_round entry 2 <= exit_target_price e)
  /\ (forall (j k : nat) (e1 e2 : exit_target),
        (j <= k)%nat -> plan !! j = Some e1 -> plan !! k = Some e2 ->
        exit_target_price e1 <= exit_target_price e2)
  /\ (forall stop' n', entry <= stop' \/ (n' <= 0)%Z ->
        calculate_multiple_exit_strategy entry stop' n' = []).
Proof.
  cbv zeta.
  assert (Hlook : forall (k : nat) (e : exit_target),
    calculate_multiple_exit_strategy entry stop n !! k = Some e ->
    exit_number e = (Z.of_nat k + 1)%Z
    /\ exit_target_price e
       = py_round (entry + (entry - stop) * inject_Z (Z.of_nat k + 1) * (15 # 10)) 2
    /\ risk_reward_ratio e = py_round (inject_Z (Z.of_nat k + 1) * (15 # 10)) 2
    /\ description e = _get_exit_description (Z.of_nat k + 1) n).
  { intros k e Hk. unfold calculate_multiple_exit_strategy in Hk.
    replace (Qleb (entry - stop) 0) with false in Hk
      by (symmetry; apply Qleb_gt; lra).
    rewrite list_lookup_fmap in Hk.
    destruct (seq 0 (Z.to_nat n) !! k) as [k' |] eqn:Ek; [| discriminate Hk].
    apply lookup_seq in Ek. destruct Ek as [-> _]. simpl in Hk.
    injection Hk as <-.
    cbn [exit_number exit_target_price risk_reward_ratio description].
    repeat split; reflexivity. }
  split.
  { unfold calculate_multiple_exit_strategy.
    replace (Qleb (entry - stop) 0) with false by (symmetry; apply Qleb_gt; lra).
    rewrite length_map, length_seq. reflexivity. }
  split.
  { intros k e Hk. destruct (Hlook k e Hk) as (H1 & H2 & H3 & H4).
    split; [exact H1 |]. split; [| split].
    - rewrite H3. apply (py_round_fix _ 2 (150 * (Z.of_nat k + 1))).
      rewrite inject_Z_mult. change (inject_Z (10 ^ Z.of_nat 2)) with 100.
      change (inject_Z 150) with 150. ring.
    - rewrite H4. unfold _get_exit_description.
      destruct k as [| k]; [reflexivity |].
      replace (Z.of_nat (S k) + 1 =? 1)%Z with false
        by (symmetry; apply Z.eqb_neq; lia).
      reflexivity.
    - rewrite H2. apply py_round_mono.
      assert (0 <= inject_Z (Z.of_nat k + 1)) by (unfold Qle; simpl; lia).
      nra. }
  split.
  { intros j k e1 e2 Hjk H1 H2.
    destruct (Hlook j e1 H1) as (_ & -> & _).
    destruct (Hlook k e2 H2) as (_ & -> & _).
    apply py_round_mono.
    assert (inject_Z (Z.of_nat j + 1) <= inject_Z (Z.of_nat k + 1))
      by (unfold Qle; simpl; lia).
    nra. }
  intros stop' n' [Hs | Hn']; unfold calculate_multiple_exit_strategy.
  - replace (Qleb (entry - stop') 0) with true by (symmetry; apply Qleb_le; lra).
    reflexivity.
  - destruct (Qleb (entry - stop') 0); [reflexivity |].
    replace (Z.to_nat n') with 0%nat by lia. reflexivity.
Qed.

Lemma multiple_exits_ladder_witness :
  length (calculate_multiple_exit_strategy 100 95 3) = 3%nat
  /\ map description (calculate_multiple_exit_strategy 100 95 3)
     = [FirstTarget; IntermediateTarget 2; FinalTarget]
  /\ calculate_multiple_exit_strategy 100 100 3 = [].
Proof.
  destruct (multiple_exits_ladder 100 95 3) as (Hlen & _ & _ & Hempty);
    [reflexivity | lia |].
  split; [exact Hlen |]. split; [reflexivity |].
  apply Hempty. left. discriminate.
Defined.

(** X14.  Adjusting a stop never lowers it.  For a positive entry price
    and a current stop in whole cents the call returns, and the returned
    stop is at least the current one, in each of its three branches
    (unchanged below the profit threshold, moved to breakeven, trailed).
    With an entry price of zero the call raises ZeroDivisionError. *)
Theorem adjusted_stop_never_lowered (entry price stop threshold : Q)
    (He : 0 < entry) (Hc : cents stop) :
  (exists s,
     adjust_stop_loss_after_profit entry price stop threshold = Val s
     /\ stop <= s)
  /\ adjust_stop_loss_after_profit 0 price stop threshold = ZeroDivisionError.
Proof.
  split; [| reflexivity].
  unfold adjust_stop_loss_after_profit, py_div.
  replace (Qeqb entry 0) with false by (symmetry; apply Qeqb_neq; lra).
  cbn [py_bind].
  destruct (Qltb _ threshold); [exists stop; split; [reflexivity | lra] |].
  pose proof (cents_round stop Hc) as Hfix.
  destruct (Qltb stop entry) eqn:E.
  - apply Qltb_lt in E. eexists. split; [reflexivity |].
    rewrite <- Hfix at 1. apply py_round_mono. lra.
  - eexists. split; [reflexivity |].
    rewrite <- Hfix at 1. apply py_round_mono. apply py_max2_ge_l.
Qed.

Lemma adjusted_stop_never_lowered_witness :
  (exists s,
     adjust_stop_loss_after_profit 100 110 95 5 = Val s /\ 95 <= s)
  /\ adjust_stop_loss_after_profit 0 110 95 5 = ZeroDivisionError.
Proof.
  apply (adjusted_stop_never_lowered 100 110 95 5);
    [reflexivity | exists 9500%Z; reflexivity].
Defined.

(** X15.  The time-based stop widens with the holding time.  For a
    non-negative entry price, a positive max_days and holding times
    0 <= d1 <= d2, both calls return and the later stop is not above the
    earlier one; neither is above the default percentage stop, nor below
    the percentage stop at one and a half times the default percentage,
    which is the stop from max_days on. *)
Theorem time_based_stop_widens (entry d1 d2 max_days : Q)
    (He : 0 <= entry) (Hm : 0 < max_days) (H1 : 0 <= d1) (H2 : d1 <= d2) :
  (exists s1 s2,
    calculate_time_based_stop entry d1 max_days = Val s1
    /\ calculate_time_based_stop entry d2 max_days = Val s2
    /\ _percentage_stop_loss entry (Some (DEFAULT_STOP_LOSS_PCT * (15 # 10))) <= s2
    /\ s2 <= s1
    /\ s1 <= _percentage_stop_loss entry None)
  /\ (max_days <= d2 ->
        calculate_time_based_stop entry d2 max_days
        = Val (_percentage_stop_loss entry
                 (Some (DEFAULT_STOP_LOSS_PCT * (15 # 10))))).
Proof.
  split.
  2:{ intros Hd. unfold calculate_time_based_stop.
      replace (Qleb max_days d2) with true by (symmetry; apply Qleb_le; exact Hd).
      reflexivity. }
  pose (f := fun d : Q => if Qleb max_days d then 1 else d / max_days).
  assert (Hcalc : forall d, exists s,
    calculate_time_based_stop entry d max_days = Val (py_round s 2)
    /\ s == entry * ((95 # 100) - (25 # 1000) * f d)).
  { intros d. unfold calculate_time_based_stop, f, py_div, _percentage_stop_loss.
    destruct (Qleb max_days d).
    - eexists. split; [reflexivity |]. unfold DEFAULT_STOP_LOSS_PCT. field.
    - replace (Qeqb max_days 0) with false by (symmetry; apply Qeqb_neq; lra).
      cbn [py_bind]. eexists. split; [reflexivity |].
      unfold DEFAULT_STOP_LOSS_PCT. field. lra. }
  assert (Hf : forall d, 0 <= d -> 0 <= f d <= 1).
  { intros d Hd. unfold f. destruct (Qleb max_days d) eqn:E; [lra |].
    apply Qleb_gt in E. split.
    - apply Qle_shift_div_l; lra.
    - apply Qle_shift_div_r; lra. }
  assert (Hmono : f d1 <= f d2).
  { unfold f. destruct (Qleb max_days d2) eqn:E2.
    - apply (Hf d1 H1).
    - apply Qleb_gt in E2.
      replace (Qleb max_days d1) with false by (symmetry; apply Qleb_gt; lra).
      apply Qle_shift_div_l; [exact Hm |].
      assert (d1 / max_days * max_days == d1) by (field; lra). lra. }
  destruct (Hcalc d1) as (u1 & Hc1 & Hu1).
  destruct (Hcalc d2) as (u2 & Hc2 & Hu2).
  destruct (Hf d1 H1) as [Hf1 Hf1']. destruct (Hf d2 ltac:(lra)) as [Hf2 Hf2'].
  exists (py_round u1 2), (py_round u2 2).
  split; [exact Hc1 |]. split; [exact Hc2 |].
  unfold _percentage_stop_loss.
  split; [| split]; apply py_round_mono.
  - rewrite pct_925. nra.
  - nra.
  - rewrite pct_95. nra.
Qed.

Lemma time_based_stop_widens_witness :
  exists s1 s2,
    calculate_time_based_stop 100 10 30 = Val s1
    /\ calculate_time_based_stop 100 40 30 = Val s2
    /\ _percentage_stop_loss 100 (Some (DEFAULT_STOP_LOSS_PCT * (15 # 10))) <= s2
    /\ s2 <= s1
    /\ s1 <= _percentage_stop_loss 100 None.
Proof.
  apply (time_based_stop_widens 100 10 40 30); discriminate || reflexivity.
Defined.

End StopLossRulesFacts.

(** ** Risk analyzer: position value *)

Section RiskAnalyzerRulesFacts.
Import RiskAnalyzerRules RulesSpec.
Local Open Scope string_scope.
Local Open Scope Q_scope.




(** X12.  Grading a trade by risk and reward.  With the stop at or above
    the entry the answer is Invalid, with ratio, risk and reward all 0.
    With the stop below the entry the answer is never Invalid, the risk
    and the reward are the distances of the entry to the stop and of the
    target to the entry, a target at or below the entry is graded Poor,
    and a higher target never gets a lower ratio or a worse grade. *)
Theorem risk_reward_grade_monotone (entry stop tp1 tp2 : Q)
    (Hs : stop < entry) (Ht : tp1 <= tp2) :
  let a1 := assess_risk_reward entry stop tp1 in
  let a2 := assess_risk_reward entry stop tp2 in
  assessment a1 <> Invalid
  /\ risk_amount a1 = entry - stop
  /\ reward_amount a1 = tp1 - entry
  /\ rr_ratio a1 <= rr_ratio a2
  /\ (grade (assessment a1) <= grade (assessment a2))%nat
  /\ (tp1 <= entry -> assessment a1 = Poor)
  /\ (forall stop' tp, entry <= stop' ->
        assess_risk_reward entry stop' tp
        = {| rr_ratio := 0; risk_amount := 0; reward_amount := 0;
             assessment := Invalid |}).
Proof.
  cbv zeta. unfold assess_risk_reward.
  replace (Qleb (entry - stop) 0) with false by (symmetry; apply Qleb_gt; lra).
  cbn [assessment risk_amount reward_amount rr_ratio].
  assert (Hr : (tp1 - entry) / (entry - stop) <= (tp2 - entry) / (entry - stop)).
  { apply Qle_shift_div_l; [lra |].
    assert ((tp1 - entry) / (entry - stop) * (entry - stop) == tp1 - entry)
      by (field; lra).
    lra. }
  set (r1 := (tp1 - entry) / (entry - stop)) in *.
  set (r2 := (tp2 - entry) / (entry - stop)) in *.
  split.
  { destruct (Qleb 3 r1), (Qleb 2 r1), (Qleb 1 r1); discriminate. }
  split; [reflexivity |]. split; [reflexivity |]. split; [exact Hr |].
  split.
  { destruct (Qleb 3 r1) eqn:E3; [apply Qleb_le in E3 | apply Qleb_gt in E3];
    destruct (Qleb 2 r1) eqn:E2; [apply Qleb_le in E2 | apply Qleb_gt in E2 | apply Qleb_le in E2 | apply Qleb_gt in E2];
    destruct (Qleb 1 r1) eqn:E1;
    try apply Qleb_le in E1; try apply Qleb_gt in E1;
    destruct (Qleb 3 r2) eqn:F3; try apply Qleb_le in F3; try apply Qleb_gt in F3;
    destruct (Qleb 2 r2) eqn:F2; try apply Qleb_le in F2; try apply Qleb_gt in F2;
    destruct (Qleb 1 r2) eqn:F1; try apply Qleb_le in F1; try apply Qleb_gt in F1;
    cbn [grade]; try lia; exfalso; lra. }
  split.
  { intros Hle.
    assert (r1 <= 0).
    { subst r1. apply Qle_shift_div_r; lra. }
    replace (Qleb 3 r1) with false by (symmetry; apply Qleb_gt; lra).
    replace (Qleb 2 r1) with false by (symmetry; apply Qleb_gt; lra).
    replace (Qleb 1 r1) with false by (symmetry; apply Qleb_gt; lra).
    reflexivity. }
  intros stop' tp Hge.
  replace (Qleb (entry - stop') 0) with true by (symmetry; apply Qleb_le; lra).
  reflexivity.
Qed.

Lemma risk_reward_grade_monotone_witness :
  (grade (assessment (assess_risk_reward 50 48 53))
   <= grade (assessment (assess_risk_reward 50 48 56)))%nat
  /\ assessment (assess_risk_reward 50 48 53) = Acceptable
  /\ assessment (assess_risk_reward 50 48 56) = Excellent.
Proof.
  destruct (risk_reward_grade_monotone 50 48 53 56) as (_ & _ & _ & _ & Hg & _);
    [reflexivity | discriminate |].
  split; [exact Hg |]. split; reflexivity.
Defined.

End RiskAnalyzerRulesFacts.

(** ** Backtesting engine: the ledger and the report *)

Section BacktestLedger.
Import BacktestingEngine BacktestSpec LedgerSpec Examples.
Local Open Scope string_scope.
Local Open Scope list_scope.

Lemma ledger_parity (c : Q) (ts : list Trade) (o : option Trade) (ps : list Q) :
  ledger c ts o ps ->
  Nat.even (length ts) = match o with None => true | Some _ => false end
  /\ (forall b, o = Some b -> last ts = Some b /\ (0 < t_shares b)%Z
                /\ t_type b = BUY /\ t_value b = (inject_Z (t_shares b) * t_price b)%Q)
  /\ length ts = (2 * length ps + match o with None => 0 | Some _ => 1 end)%nat.
Proof.
  induction 1 as [| ts ps i price n _ (IH1 & IH2 & IH3) Hn
                  | ts ps b i price _ (IH1 & IH2 & IH3)].
  - split; [reflexivity |]. split; [intros b Hb; discriminate Hb | reflexivity].
  - rewrite length_app, Nat.add_1_r, Nat.even_succ, <- Nat.negb_even, IH1.
    split; [reflexivity |]. split; [| cbn [length]; lia].
    intros b [= <-]. rewrite last_snoc. repeat split. exact Hn.
  - rewrite !length_app, Nat.add_1_r, Nat.even_succ, <- Nat.negb_even, IH1.
    split; [reflexivity |]. split; [discriminate | cbn [length]; lia].
Qed.

Lemma ledger_positions (c : Q) (ts : list Trade) (o : option Trade) (ps : list Q) :
  ledger c ts o ps ->
  (forall k t, ts !! k = Some t ->
     t_type t = (if Nat.even k then BUY else SELL)
     /\ (0 < t_shares t)%Z
     /\ t_value t = (inject_Z (t_shares t) * t_price t)%Q
     /\ t_commission t = c)
  /\ (forall k b s, Nat.even k = true ->
        ts !! k = Some b -> ts !! S k = Some s -> t_shares s = t_shares b).
Proof.
  induction 1 as [| ts ps i price n Hl (IH1 & IH2) Hn
                  | ts ps b i price Hl (IH1 & IH2)].
  - split; intros; rewrite lookup_nil in *; discriminate.
  - destruct (ledger_parity _ _ _ _ Hl) as (Hev & _ & _).
    split.
    + intros k t Hk. apply lookup_app_Some in Hk.
      destruct Hk as [Hk | [Hge Hk]]; [apply IH1; exact Hk |].
      destruct (k - length ts)%nat as [| j] eqn:Ej; [| discriminate Hk].
      injection Hk as <-. replace k with (length ts) by lia. rewrite Hev.
      repeat split. exact Hn.
    + intros k b s Hk Hb Hs. apply lookup_app_Some in Hs.
      destruct Hs as [Hs | [Hge Hs]].
      * apply (IH2 k b s Hk); [| exact Hs].
        apply lookup_lt_Some in Hs. rewrite lookup_app_l in Hb by lia. exact Hb.
      * destruct (S k - length ts)%nat as [| j] eqn:Ej; [| discriminate Hs].
        apply lookup_lt_Some in Hb. rewrite length_app in Hb. cbn [length] in Hb.
        assert (Hk1 : length ts = S k) by lia. rewrite Hk1, Nat.even_succ in Hev.
        rewrite <- Nat.negb_even, Hk in Hev. discriminate Hev.
  - destruct (ledger_parity _ _ _ _ Hl) as (Hev & Hlast & _).
    destruct (Hlast b eq_refl) as (Hlb & Hpos & _).
    split.
    + intros k t Hk. apply lookup_app_Some in Hk.
      destruct Hk as [Hk | [Hge Hk]]; [apply IH1; exact Hk |].
      destruct (k - length ts)%nat as [| j] eqn:Ej; [| discriminate Hk].
      injection Hk as <-. replace k with (length ts) by lia. rewrite Hev.
      repeat split. exact Hpos.
    + intros k b' s Hk Hb Hs. apply lookup_app_Some in Hs.
      destruct Hs as [Hs | [Hge Hs]].
      * apply (IH2 k b' s Hk); [| exact Hs].
        apply lookup_lt_Some in Hs. rewrite lookup_app_l in Hb by lia. exact Hb.
      * destruct (S k - length ts)%nat as [| j] eqn:Ej; [| discriminate Hs].
        injection Hs as <-. cbn [sell_trade t_shares].
        pose proof (lookup_lt_Some _ _ _ Hb) as Hlt.
        rewrite length_app in Hlt. cbn [length] in Hlt.
        assert (Hk1 : length ts = S k) by lia.
        rewrite lookup_app_l in Hb by lia.
        rewrite last_lookup, Hk1 in Hlb. cbn [Nat.pred] in Hlb.
        rewrite Hb in Hlb. injection Hlb as ->. reflexivity.
Qed.

Lemma zip_with_app_eq {A B C : Type} (f : A -> B -> C) (s s' : list A) (t t' : list B) :
  length s = length t ->
  zip_with f (s ++ s') (t ++ t') = zip_with f s t ++ zip_with f s' t'.
Proof.
  revert t. induction s as [| x s IH]; intros [| y t] Hl; try discriminate Hl.
  - reflexivity.
  - cbn [app zip_with]. rewrite IH by (simpl in Hl; lia). reflexivity.
Qed.

Lemma zip_with_nil_r {A B C : Type} (f : A -> B -> C) (s : list A) :
  zip_with f s [] = [].
Proof. destruct s; reflexivity. Qed.

Lemma ledger_profits (c : Q) (ts : list Trade) (o : option Trade) (ps : list Q) :
  ledger c ts o ps ->
  exists bs ss,
    List.filter is_buy ts = bs ++ match o with Some b => [b] | None => [] end
    /\ List.filter is_sell ts = ss
    /\ length bs = length ss
    /\ zip_with (fun b s => ((t_price s - t_price b) * inject_Z (t_shares b))%Q) bs ss
       = ps.
Proof.
  induction 1 as [| ts ps i price n _ (bs & ss & Hb & Hs & Hlen & Hz) Hn
                  | ts ps b i price _ (bs & ss & Hb & Hs & Hlen & Hz)].
  - exists [], []. repeat split.
  - exists bs, ss. rewrite !List.filter_app, Hb, Hs. cbn. rewrite !app_nil_r.
    repeat split; assumption.
  - exists (bs ++ [b]), (ss ++ [sell_trade c i price (t_shares b)]).
    rewrite !List.filter_app, Hb, Hs. cbn. rewrite !app_nil_r.
    split; [reflexivity |]. split; [reflexivity |].
    split; [rewrite !length_app; simpl; lia |].
    rewrite zip_with_app_eq by exact Hlen. rewrite Hz. reflexivity.
Qed.

Lemma ledger_pair_profits (c : Q) (ts : list Trade) (o : option Trade) (ps : list Q) :
  ledger c ts o ps -> pair_profits ts = ps.
Proof.
  intros H. destruct (ledger_profits _ _ _ _ H) as (bs & ss & Hb & Hs & Hlen & Hz).
  unfold pair_profits. rewrite Hb, Hs.
  rewrite <- (app_nil_r ss) at 1.
  rewrite zip_with_app_eq by exact Hlen. rewrite zip_with_nil_r, app_nil_r.
  exact Hz.
Qed.

Lemma bar_step_ledger (df : Prices) (ty : string) (params : StrategyParams)
    (ps cm init : Q) (st st' : State) (i : nat) (o : option Trade) (pl : list Q) :
  bar_step df ty params ps cm st i = Ok st' ->
  ledger_state cm init st o pl ->
  exists o' pl', ledger_state cm init st' o' pl'.
Proof.
  intros H (Hl & Hs & Hc).
  destruct (bar_step_inv df ty params ps cm st st' i H)
    as (price & sig & _ & _ & _ & Ho).
  destruct (ledger_parity _ _ _ _ Hl) as (_ & Hlast & _).
  destruct Ho as [n _ Hz _ _ Hn Hc' Hs' Ht | _ Hpos Hc' Hs' Ht | Hc' Hs' Ht].
  - destruct o as [b |].
    { destruct (Hlast b eq_refl) as (_ & Hb & _). cbn [held] in Hs. lia. }
    exists (Some (buy_trade cm i price n)), pl. unfold ledger_state.
    rewrite Ht, Hs', Hc'. split; [apply ledger_buy; assumption |].
    split; [reflexivity |].
    rewrite Hc, length_app. cbn [length open_value buy_trade t_value].
    rewrite Nat.add_1_r, Nat2Z.inj_succ. unfold Z.succ. rewrite inject_Z_plus.
    change (inject_Z 1) with 1%Q. ring.
  - destruct o as [b |]; [| cbn [held] in Hs; lia].
    destruct (Hlast b eq_refl) as (_ & _ & _ & Hv). cbn [held] in Hs.
    exists None, (pl ++ [((price - t_price b) * inject_Z (t_shares b))%Q]).
    unfold ledger_state. rewrite Ht, Hs', Hc', Hs.
    split; [apply ledger_sell; assumption |]. split; [reflexivity |].
    rewrite Hc, length_app. cbn [length open_value].
    rewrite Nat.add_1_r, Nat2Z.inj_succ. unfold Z.succ. rewrite inject_Z_plus.
    change (inject_Z 1) with 1%Q. rewrite Hv.
    assert (Hsum : (py_sum (pl ++ [(price - t_price b) * inject_Z (t_shares b)])
                    == py_sum pl + (price - t_price b) * inject_Z (t_shares b))%Q).
    { unfold py_sum. rewrite fold_left_app. cbn [fold_left]. reflexivity. }
    rewrite Hsum. ring.
  - exists o, pl. unfold ledger_state. rewrite Ht, Hs', Hc'.
    repeat split; assumption.
Qed.

Lemma run_bars_ledger (df : Prices) (ty : string) (params : StrategyParams)
    (ps cm init : Q) (bars : list nat) (st st' : State)
    (o : option Trade) (pl : list Q) :
  run_bars df ty params ps cm bars st = Ok st' ->
  ledger_state cm init st o pl ->
  exists o' pl', ledger_state cm init st' o' pl'.
Proof.
  revert st o pl. induction bars as [| i bars IH]; intros st o pl H Hl.
  - injection H as <-. eauto.
  - cbn [run_bars] in H.
    destruct (bar_step df ty params ps cm st i) as [st1 |] eqn:E1;
      [| discriminate H].
    cbn [bind] in H.
    destruct (bar_step_ledger _ _ _ _ _ init _ _ _ _ _ E1 Hl) as (o1 & pl1 & H1).
    exact (IH st1 o1 pl1 H H1).
Qed.

Lemma run_loop_ledger (df : Prices) (params : StrategyParams)
    (cfg : BacktestConfig) (bars : list nat) (st : State) :
  run_loop df params cfg bars = Ok st ->
  exists o pl,
    ledger_state (default 1%Q (c_commission cfg))
      (default 10000%Q (c_initial_capital cfg)) st o pl.
Proof.
  intros H. unfold run_loop in H.
  eapply run_bars_ledger; [exact H |].
  unfold ledger_state, initial_state. cbn [trades shares cash length].
  split; [apply ledger_nil |]. split; [reflexivity |].
  unfold py_sum. cbn [fold_left open_value]. change (inject_Z (Z.of_nat 0)) with 0%Q.
  ring.
Qed.

Lemma filter_split_length {A : Type} (p : A -> bool) (xs : list A) :
  (length (List.filter p xs) + length (List.filter (fun x => negb (p x)) xs)
   = length xs)%nat.
Proof.
  induction xs as [| x xs IH]; [reflexivity |].
  cbn [List.filter]. destruct (p x); cbn [negb length]; lia.
Qed.

(** X17.  The trade ledger of every backtest is a sequence of round
    trips.  Trades alternate BUY, SELL, BUY, ... starting with a BUY;
    every trade has a positive share count, a value of shares * price and
    the configured commission; every SELL sells exactly the shares of the
    BUY before it.  The report counts ledger entries, not round trips:
    winning_trades + losing_trades is total_trades // 2. *)
Theorem ledger_is_round_trips (sqrt : Q -> Q) (df : Prices)
    (params : StrategyParams) (cfg : BacktestConfig) (r : Results)
    (Hr : run_backtest sqrt df params cfg = Ok r) :
  (forall k t, r_trades r !! k = Some t ->
     t_type t = (if Nat.even k then BUY else SELL)
     /\ (0 < t_shares t)%Z
     /\ t_value t = (inject_Z (t_shares t) * t_price t)%Q
     /\ t_commission t = default 1%Q (c_commission cfg))
  /\ (forall k b s, Nat.even k = true ->
        r_trades r !! k = Some b -> r_trades r !! S k = Some s ->
        t_shares s = t_shares b)
  /\ total_trades (report r) = length (r_trades r)
  /\ (winning_trades (report r) + losing_trades (report r)
      = total_trades (report r) / 2)%nat.
Proof.
  destruct (run_backtest_inv sqrt df params cfg r Hr)
    as (st & last & Hst & _ & Ht & _ & Hrep).
  destruct (run_loop_ledger df params cfg _ st Hst) as (o & pl & Hl & _ & _).
  destruct (ledger_positions _ _ _ _ Hl) as [P1 P2].
  rewrite Ht, Hrep.
  split; [exact P1 |]. split; [exact P2 |].
  unfold _calculate_backtest_metrics.
  cbn [total_trades winning_trades losing_trades].
  split; [reflexivity |].
  rewrite filter_split_length, (ledger_pair_profits _ _ _ _ Hl).
  destruct (ledger_parity _ _ _ _ Hl) as (_ & _ & Hlen). rewrite Hlen.
  destruct o.
  - replace (2 * length pl + 1)%nat with (1 + length pl * 2)%nat by lia.
    rewrite Nat.div_add by lia. reflexivity.
  - replace (2 * length pl + 0)%nat with (length pl * 2)%nat by lia.
    rewrite Nat.div_mul by lia. reflexivity.
Qed.

Lemma dip_run :
  exists st, run_loop dip (with_type "rsi") config_10000 (seq 1 79) = Ok st
    /\ trades st = [buy_trade 1 49 151 66; sell_trade 1 58 170 66].
Proof. eexists. split; vm_compute; reflexivity. Qed.

Lemma ledger_is_round_trips_witness :
  exists r,
    run_backtest sqrt_approx dip (with_type "rsi") config_10000 = Ok r
    /\ (forall k t, r_trades r !! k = Some t ->
          t_type t = (if Nat.even k then BUY else SELL)
          /\ (0 < t_shares t)%Z
          /\ t_value t = (inject_Z (t_shares t) * t_price t)%Q
          /\ t_commission t = default 1%Q (c_commission config_10000))
    /\ (forall k b s, Nat.even k = true ->
          r_trades r !! k = Some b -> r_trades r !! S k = Some s ->
          t_shares s = t_shares b)
    /\ total_trades (report r) = length (r_trades r)
    /\ (winning_trades (report r) + losing_trades (report r)
        = total_trades (report r) / 2)%nat.
Proof.
  destruct dip_run as (st & Hst & _).
  destruct (iloc_neg_lookup 1 dip) as (last & Hl & _); [simpl; lia |].
  pose proof (run_backtest_ok sqrt_approx dip (with_type "rsi")
                config_10000 st last Hst Hl) as Hr.
  eexists. split; [exact Hr |].
  exact (ledger_is_round_trips sqrt_approx dip (with_type "rsi")
           config_10000 _ Hr).
Defined.

Lemma py_max_fold_spec (xs : list Q) (m : Q) :
  let r := fold_left (fun m y => if Qltb m y then y else m) xs m in
  (r = m \/ In r xs) /\ (m <= r)%Q /\ Forall (fun x => (x <= r)%Q) xs.
Proof.
  revert m. induction xs as [| x xs IH]; intros m; cbn [fold_left].
  - split; [left; reflexivity |]. split; [lra | constructor].
  - destruct (Qltb m x) eqn:E.
    + apply Qltb_lt in E. destruct (IH x) as (Hin & Hge & Hall).
      split; [right; destruct Hin as [-> | Hin]; [left; reflexivity | right; exact Hin] |].
      split; [lra |]. constructor; assumption.
    + apply Qltb_ge in E. destruct (IH m) as (Hin & Hge & Hall).
      split; [destruct Hin as [-> | Hin]; [left; reflexivity | right; right; exact Hin] |].
      split; [exact Hge |]. constructor; [lra | exact Hall].
Qed.

Lemma py_min_fold_spec (xs : list Q) (m : Q) :
  let r := fold_left (fun m y => if Qltb y m then y else m) xs m in
  (r = m \/ In r xs) /\ (r <= m)%Q /\ Forall (fun x => (r <= x)%Q) xs.
Proof.
  revert m. induction xs as [| x xs IH]; intros m; cbn [fold_left].
  - split; [left; reflexivity |]. split; [lra | constructor].
  - destruct (Qltb x m) eqn:E.
    + apply Qltb_lt in E. destruct (IH x) as (Hin & Hge & Hall).
      split; [right; destruct Hin as [-> | Hin]; [left; reflexivity | right; exact Hin] |].
      split; [lra |]. constructor; assumption.
    + apply Qltb_ge in E. destruct (IH m) as (Hin & Hge & Hall).
      split; [destruct Hin as [-> | Hin]; [left; reflexivity | right; right; exact Hin] |].
      split; [exact Hge |]. constructor; [lra | exact Hall].
Qed.

Lemma py_max_spec (xs : list Q) (d : Q) :
  xs <> [] -> In (py_max xs d) xs /\ Forall (fun x => (x <= py_max xs d)%Q) xs.
Proof.
  destruct xs as [| x xs]; [congruence | intros _]. cbn [py_max].
  destruct (py_max_fold_spec xs x) as (Hin & Hge & Hall).
  split; [destruct Hin as [-> | Hin]; [left; reflexivity | right; exact Hin] |].
  constructor; assumption.
Qed.

Lemma py_min_spec (xs : list Q) (d : Q) :
  xs <> [] -> In (py_min xs d) xs /\ Forall (fun x => (py_min xs d <= x)%Q) xs.
Proof.
  destruct xs as [| x xs]; [congruence | intros _]. cbn [py_min].
  destruct (py_min_fold_spec xs x) as (Hin & Hge & Hall).
  split; [destruct Hin as [-> | Hin]; [left; reflexivity | right; exact Hin] |].
  constructor; assumption.
Qed.

Lemma filter_nil_all {A : Type} (p : A -> bool) (xs : list A) :
  length (List.filter p xs) = 0%nat -> forall x, In x xs -> p x = false.
Proof.
  induction xs as [| y xs IH]; intros H x Hx; [destruct Hx |].
  cbn [List.filter] in H. destruct (p y) eqn:E; [discriminate H |].
  destruct Hx as [<- | Hx]; [exact E | exact (IH H x Hx)].
Qed.

(** X19.  What largest_win and largest_loss report.  Over the profits of
    the closed round trips, largest_win is the largest absolute value
    and largest_loss the smallest profit.  So when no round trip lost,
    largest_loss is a positive number (the smallest gain), and when none
    won, largest_win is the size of the worst loss, -largest_loss. *)
Theorem largest_win_loss_meaning (sqrt : Q -> Q) (init fv : Q)
    (ts : list Trade) (hist : list Snapshot) :
  let R := _calculate_backtest_metrics sqrt init fv ts hist in
  Forall (fun p => (Qabs p <= largest_win R)%Q /\ (largest_loss R <= p)%Q)
         (pair_profits ts)
  /\ (pair_profits ts <> [] -> losing_trades R = 0%nat ->
      (0 < largest_loss R)%Q)
  /\ (pair_profits ts <> [] -> winning_trades R = 0%nat ->
      (largest_win R == - largest_loss R)%Q).
Proof.
  cbv zeta. unfold _calculate_backtest_metrics.
  cbn [largest_win largest_loss winning_trades losing_trades].
  set (pl := pair_profits ts).
  destruct pl as [| p0 rest] eqn:Epl.
  { split; [constructor |]. split; intros H; congruence. }
  rewrite <- Epl.
  assert (Hne : pl <> []) by (rewrite Epl; discriminate).
  assert (Hne' : map Qabs pl <> []) by (rewrite Epl; discriminate).
  destruct (py_max_spec (map Qabs pl) 0%Q Hne') as (Hmi & Hma).
  destruct (py_min_spec pl 0%Q Hne) as (Hni & Hna).
  rewrite Forall_forall in Hma, Hna.
  split; [| split].
  - apply Forall_forall. intros p Hp. apply list_elem_of_In in Hp. split.
    + apply Hma. apply list_elem_of_In, in_map. exact Hp.
    + apply Hna. apply list_elem_of_In. exact Hp.
  - intros _ H0.
    pose proof (filter_nil_all _ _ H0 _ Hni) as Hp.
    apply negb_false_iff, Qltb_lt in Hp. exact Hp.
  - intros _ H0.
    assert (Hall : forall p, In p pl -> (p <= 0)%Q).
    { intros p Hp. pose proof (filter_nil_all _ _ H0 _ Hp) as Hq.
      apply Qltb_ge in Hq. exact Hq. }
    apply in_map_iff in Hmi. destruct Hmi as (p1 & Hp1 & Hin1).
    pose proof (Hall _ Hin1) as Hn1. pose proof (Hall _ Hni) as Hn2.
    pose proof (Hna p1 (proj2 (list_elem_of_In _ _) Hin1)) as Hle.
    pose proof (Hma (Qabs (py_min pl 0))
                  (proj2 (list_elem_of_In _ _) (in_map Qabs _ _ Hni))) as Hge.
    rewrite (Qabs_neg _ Hn2) in Hge. rewrite <- Hp1 in *.
    rewrite (Qabs_neg _ Hn1) in *. lra.
Qed.

(** X20.  The moving-average rule of the backtest looks at whole-series
    averages and never ahead.  With the default 20 / 50 windows, the
    signal computed at bar i on the window df[:i+1] is HOLD before bar 49
    and from bar 49 on BUY exactly at a golden cross, SELL exactly at a
    death cross of the 20-bar and 50-bar simple moving averages of the
    whole series at bars i - 1 and i; bars after i play no part. *)
Theorem ma_rule_reads_series_crossings (df : Prices) (params : StrategyParams)
    (i : nat)
    (Hs : default 20%nat (p_short_window params) = 20%nat)
    (Hl : default 50%nat (p_long_window params) = 50%nat)
    (Hi : (i < length df)%nat) :
  _generate_signal (firstn (i + 1) df) "ma_crossover" params
  = Ok (if (i <? 49)%nat then HOLD
        else if golden_cross df i then BUY
        else if death_cross df i then SELL else HOLD).
Proof.
  destruct (i <? 49)%nat eqn:E.
  - apply Nat.ltb_lt in E. apply signal_hold_below_50.
    rewrite length_take. lia.
  - apply Nat.ltb_ge in E. apply ma_signal_is_cross; [exact Hs | exact Hl | lia].
Qed.

Lemma ma_rule_reads_series_crossings_witness :
  _generate_signal (firstn (100 + 1) (wave 1)) "ma_crossover"
    (with_type "ma_crossover")
  = Ok (if (100 <? 49)%nat then HOLD
        else if golden_cross (wave 1) 100 then BUY
        else if death_cross (wave 1) 100 then SELL else HOLD).
Proof.
  apply (ma_rule_reads_series_crossings (wave 1) (with_type "ma_crossover") 100);
    [reflexivity | reflexivity | vm_compute; lia].
Defined.

End BacktestLedger.

(** ** Signal generator: the composite vote and the sensitivity *)

Section SignalVotes.
Import SignalGenerator SignalSpec VoteSpec.
Local Open Scope string_scope.
Local Open Scope list_scope.

(** X22.  The composite signal is a vote.  When the four sub-rules
    return, the composite returns too; it answers BUY exactly when at
    least two sub-rules say BUY and more say BUY than SELL, SELL in the
    mirrored case, HOLD otherwise, so a single BUY among HOLDs is a
    HOLD.  Its confidence and strength depend on the number of votes
    only: (50, 5) for HOLD and (50, 7), (75, 10) or (95, 10) for two,
    three or four votes, whatever the sub-rules' own values. *)
Theorem composite_follows_votes (df : DataFrame) (sensitivity : string)
    (r m a b : Signal)
    (Hr : _generate_rsi_signal df sensitivity = Ok r)
    (Hm : _generate_macd_signal df sensitivity = Ok m)
    (Ha : _generate_ma_signal df sensitivity = Ok a)
    (Hb : _generate_bb_signal df sensitivity = Ok b) :
  exists s,
    _generate_composite_signal df sensitivity = Ok s
    /\ (let vs := [signal r; signal m; signal a; signal b] in
        signal s
        = (if (2 <=? votes BUY vs)%nat && (votes SELL vs <? votes BUY vs)%nat
           then BUY
           else if (2 <=? votes SELL vs)%nat && (votes BUY vs <? votes SELL vs)%nat
           then SELL else HOLD)
        /\ (confidence s, strength s)
           = (if action_eqb (signal s) HOLD then (50, 5)
              else match (votes (signal s) vs) with
                   | 2%nat => (50, 7)
                   | 3%nat => (75, 10)
                   | _ => (95, 10)
                   end)%Z).
Proof.
  unfold _generate_composite_signal. rewrite Hr, Hm, Ha, Hb. cbn [bind].
  destruct r as [sr ? ? ?], m as [sm ? ? ?], a as [sa ? ? ?], b as [sb ? ? ?].
  cbn [signal].
  destruct sr, sm, sa, sb;
    (eexists; split; [vm_compute; reflexivity | vm_compute; split; reflexivity]).
Qed.

Lemma composite_follows_votes_witness :
  exists s,
    _generate_composite_signal two_bar_rsi "Moderate" = Ok s
    /\ signal s = HOLD.
Proof.
  destruct (composite_follows_votes two_bar_rsi "Moderate"
              {| signal := BUY; strength := 0; confidence := 71;
                 reasons := [RsiOversold (Fin 29)] |}
              (hold_signal []) (hold_signal []) (hold_signal []))
    as (s & Hs & Hsig & _); try (vm_compute; reflexivity).
  exists s. split; [exact Hs | exact Hsig].
Defined.

Lemma py_int_mono (a b : Q) : (0 <= a)%Q -> (a <= b)%Q -> (py_int a <= py_int b)%Z.
Proof.
  intros Ha Hab. rewrite !py_int_floor by lra. apply Qfloor_resp_le. exact Hab.
Qed.

Lemma rsi_levels (v lo1 lo2 : Q) :
  (v < lo1)%Q -> (lo1 <= lo2)%Q ->
  (Z.min 10 (py_int ((lo1 + - v) / 3)) <= Z.min 10 (py_int ((lo2 + - v) / 3)))%Z
  /\ (Z.min 95 (py_int (70 + (lo1 + - v))) <= Z.min 95 (py_int (70 + (lo2 + - v))))%Z.
Proof.
  intros H1 H2. split; apply Z.min_le_compat_l; apply py_int_mono.
  - apply Qle_shift_div_l; [reflexivity | lra].
  - unfold Qdiv. apply Qmult_le_compat_r; [lra | discriminate].
  - lra.
  - lra.
Qed.

(** X23.  The RSI rule is ordered by sensitivity.  Whenever the
    Conservative setting answers BUY or SELL on a frame, the configured
    (Moderate) setting and the Aggressive setting return on the same frame
    with the same answer, and with strength and confidence that never
    decrease from Conservative to Moderate to Aggressive. *)
Theorem rsi_sensitivity_ordered (df : DataFrame) (sensitivity : string)
    (sc : Signal) (Hmod : moderate sensitivity)
    (Hc : _generate_rsi_signal df "Conservative" = Ok sc)
    (Hsig : signal sc <> HOLD) :
  exists sm sa,
    _generate_rsi_signal df sensitivity = Ok sm
    /\ _generate_rsi_signal df "Aggressive" = Ok sa
    /\ signal sm = signal sc /\ signal sa = signal sc
    /\ (strength sc <= strength sm <= strength sa)%Z
    /\ (confidence sc <= confidence sm <= confidence sa)%Z.
Proof.
  destruct Hmod as [Hm1 Hm2]. revert Hc. unfold _generate_rsi_signal.
  rewrite Hm1, Hm2. cbn [String.eqb Ascii.eqb Bool.eqb].
  destruct (negb (has_column df "RSI")).
  { intros [= <-]. exfalso. apply Hsig. reflexivity. }
  destruct (column df "RSI") as [col | e]; cbn [bind]; [| discriminate].
  destruct (iloc_neg 1 col) as [rsi | e]; cbn [bind]; [| discriminate].
  unfold RSI_OVERSOLD, RSI_OVERBOUGHT.
  destruct rsi as [v | | |]; cbn [xlt xgt xsub xneg xadd xdiv xint bind].
  - change (Qeqb 3 0) with false. cbv iota. cbn [xint bind].
    destruct (Qltb v 25) eqn:E25.
    + apply Qltb_lt in E25. intros [= <-]. cbn [signal strength confidence].
      replace (Qltb v 30) with true by (symmetry; apply Qltb_lt; lra).
      replace (Qltb v 35) with true by (symmetry; apply Qltb_lt; lra).
      cbn [bind]. eexists. eexists. split; [reflexivity |].
      split; [reflexivity |]. cbn [signal strength confidence].
      destruct (rsi_levels v 25%Q 30%Q E25 ltac:(discriminate)) as [A1 A2].
      destruct (rsi_levels v 30%Q 35%Q ltac:(lra) ltac:(discriminate)) as [B1 B2].
      repeat split; assumption.
    + apply Qltb_ge in E25. destruct (Qltb 75 v) eqn:E75.
      * apply Qltb_lt in E75. intros [= <-]. cbn [signal strength confidence].
        replace (Qltb v 30) with false by (symmetry; apply Qltb_ge; lra).
        replace (Qltb v 35) with false by (symmetry; apply Qltb_ge; lra).
        replace (Qltb 70 v) with true by (symmetry; apply Qltb_lt; lra).
        replace (Qltb 65 v) with true by (symmetry; apply Qltb_lt; lra).
        cbn [bind]. eexists. eexists. split; [reflexivity |].
        split; [reflexivity |]. cbn [signal strength confidence].
        assert (M : forall hi1 hi2 : Q, (hi1 < v)%Q -> (hi2 <= hi1)%Q ->
          (Z.min 10 (py_int ((v + - hi1) / 3)) <= Z.min 10 (py_int ((v + - hi2) / 3)))%Z
          /\ (Z.min 95 (py_int (70 + (v + - hi1)))
              <= Z.min 95 (py_int (70 + (v + - hi2))))%Z).
        { intros hi1 hi2 H1 H2. split; apply Z.min_le_compat_l; apply py_int_mono.
          - apply Qle_shift_div_l; [reflexivity | lra].
          - unfold Qdiv. apply Qmult_le_compat_r; [lra | discriminate].
          - lra.
          - lra. }
        destruct (M 75%Q 70%Q E75 ltac:(discriminate)) as [A1 A2].
        destruct (M 70%Q 65%Q ltac:(lra) ltac:(discriminate)) as [B1 B2].
        repeat split; assumption.
      * intros [= <-]. exfalso. apply Hsig. reflexivity.
  - discriminate.
  - discriminate.
  - intros [= <-]. exfalso. apply Hsig. reflexivity.
Qed.

Lemma rsi_sensitivity_ordered_witness :
  exists sm sa,
    _generate_rsi_signal one_bar_rsi "Moderate" = Ok sm
    /\ _generate_rsi_signal one_bar_rsi "Aggressive" = Ok sa
    /\ signal sm = BUY /\ signal sa = BUY
    /\ (5 <= strength sm <= strength sa)%Z
    /\ (85 <= confidence sm <= confidence sa)%Z.
Proof.
  apply (rsi_sensitivity_ordered one_bar_rsi "Moderate"
           {| signal := BUY; strength := 5; confidence := 85;
              reasons := [RsiOversold (Fin 10)] |});
    [split; reflexivity | vm_compute; reflexivity | discriminate].
Defined.

End SignalVotes.

(** ** Risk analyzer: risk score and drawdown *)

Section RiskAnalyzerMetricsFacts.
Import StopLossRules RulesSpec RiskAnalyzerMetrics.
Local Open Scope string_scope.
Local Open Scope list_scope.

Lemma clamp_within (x : xnum) : within 1 10 (x_min2 (Fin 10) (x_max2 (Fin 1) x)).
Proof.
  unfold x_min2, x_max2, xgt. destruct x as [v | | |]; cbn [xlt].
  - destruct (Qltb 1 v) eqn:E1; cbn [xlt].
    + apply Qltb_lt in E1. destruct (Qltb v 10) eqn:E2; cbn [within].
      * apply Qltb_lt in E2. lra.
      * lra.
    + change (Qltb 1 10) with true. cbn [within]. lra.
  - cbn [xlt within]. lra.
  - change (Qltb 1 10) with true. cbn [within]. lra.
  - change (Qltb 1 10) with true. cbn [within]. lra.
Qed.

Lemma short_returns (cl : list xnum) :
  (length cl <= 2)%nat -> (length (dropna (pct_change 1 cl)) <= 1)%nat.
Proof.
  intros H. destruct cl as [| a [| b [| c rest]]]; cbn in *; try lia.
  destruct (a / b - Fin 1)%X; destruct (b / a - Fin 1)%X; cbn; lia.
Qed.

(** X24.  The risk score is always a number between 1 and 10.  Whatever
    the Close column holds (NaN and infinite cells included) and whatever
    the tolerance, the score returned is finite and in [1, 10]; the only
    failure is the KeyError of a frame without a Close column.  On a
    frame of at most two rows, where the volatility is NaN, the score is
    the maximum 10 for the Low tolerance and the minimum 1 for any other. *)
Theorem risk_score_bounded (sqrt : Q -> Q) (df : DataFrame)
    (risk_tolerance : string) :
  match _calculate_risk_score sqrt df risk_tolerance with
  | Ok x =>
      within 1 10 x
      /\ (forall cl, columns df !! "Close" = Some cl -> (length cl <= 2)%nat ->
          x = Fin (if String.eqb risk_tolerance "Low" then 10 else 1))
  | Raise e => e = KeyError /\ has_column df "Close" = false
  end.
Proof.
  unfold _calculate_risk_score, _calculate_volatility, _calculate_max_drawdown,
    column, has_column.
  destruct (columns df !! "Close") as [cl |] eqn:Ec; cbn [bind];
    [| split; reflexivity].
  split; [apply clamp_within |].
  intros cl' [= <-] Hlen.
  pose proof (short_returns cl Hlen) as Hr.
  set (returns := dropna (pct_change 1 cl)) in *.
  assert (Hv : pd_std sqrt
                 (tail (if (length returns <? 30)%nat then length returns else 30%nat)
                       returns) = NaN).
  { unfold pd_std.
    replace (length (tail _ returns) <? 2)%nat with true; [reflexivity |].
    symmetry. apply Nat.ltb_lt. unfold tail. rewrite length_skipn. lia. }
  rewrite Hv. cbn [xmul xadd].
  destruct (String.eqb risk_tolerance "Low"); [reflexivity |].
  destruct (String.eqb risk_tolerance "High"); reflexivity.
Qed.

Lemma growth_cells (qs : list Q) :
  Forall (fun q => (0 < q)%Q) qs ->
  let s := map (fun r => (Fin 1 + r)%X) (pct_change 1 (map Fin qs)) in
  Forall nan_or_pos s
  /\ length s = length qs
  /\ ((2 <= length qs)%nat -> exists q, s !! 1%nat = Some (Fin q)).
Proof.
  intros Hpos. cbv zeta. unfold pct_change.
  rewrite map_map, (length_map Fin qs).
  set (cl := map Fin qs).
  assert (Hcell : forall k, (1 <= k < length qs)%nat ->
    exists q, (0 < q)%Q /\
      (Fin 1 + match cl !! k, cl !! (k - 1)%nat with
               | Some x, Some y => (x / y - Fin 1)%X
               | _, _ => NaN
               end)%X = Fin q).
  { intros k Hk.
    destruct (lookup_lt_is_Some_2 qs k ltac:(lia)) as [x Hx].
    destruct (lookup_lt_is_Some_2 qs (k - 1) ltac:(lia)) as [y Hy].
    rewrite Forall_forall in Hpos.
    pose proof (Hpos x (list_elem_of_lookup_2 _ _ _ Hx)) as Px.
    pose proof (Hpos y (list_elem_of_lookup_2 _ _ _ Hy)) as Py.
    subst cl. rewrite !list_lookup_fmap, Hx, Hy. cbn [fmap option_fmap option_map].
    cbn [xdiv].
    replace (Qeqb y 0) with false by (symmetry; apply Qeqb_neq; lra).
    cbn [xsub xneg xadd]. eexists. split; [| reflexivity].
    assert (0 < x / y)%Q by (apply Qlt_shift_div_l; lra). lra. }
  split; [| split].
  - apply Forall_forall. intros c Hc. apply list_elem_of_In, in_map_iff in Hc.
    destruct Hc as (k & <- & Hk). apply in_seq in Hk.
    destruct (k <? 1)%nat eqn:E; [left; reflexivity |].
    apply Nat.ltb_ge in E. right.
    destruct (Hcell k ltac:(lia)) as (q & Hq & ->). eauto.
  - rewrite length_map, length_seq. reflexivity.
  - intros H2. rewrite list_lookup_fmap.
    rewrite (lookup_seq_lt 0 (length qs) 1) by lia.
    cbn [fmap option_fmap option_map Nat.add Nat.ltb Nat.leb].
    destruct (Hcell 1%nat ltac:(lia)) as (q & _ & Hq).
    exists q. f_equal. exact Hq.
Qed.

Lemma drawdown_cells (s : list xnum) (a : Q) (m : option xnum) :
  Forall nan_or_pos s -> (0 < a)%Q ->
  (m = None \/ exists mm, m = Some (Fin mm) /\ (0 < mm)%Q) ->
  Forall2 (fun x y => (x = NaN /\ y = NaN)
                      \/ (x <> NaN /\ exists d, y = Fin d /\ (- (100) < d)%Q /\ (d <= 0)%Q))
    s
    (zip_with (fun c m => ((c - m) / m * Fin 100)%X)
       (cumprod_from (Fin a) s)
       (expanding_max_from m (cumprod_from (Fin a) s))).
Proof.
  intros Hs. revert a m. induction Hs as [| x rest Hx _ IH]; intros a m Ha Hm.
  - constructor.
  - destruct Hx as [-> | (q & -> & Hq)].
    + cbn [cumprod_from expanding_max_from zip_with].
      constructor; [| apply IH; assumption].
      left. split; [reflexivity |].
      destruct Hm as [-> | (mm & -> & _)]; reflexivity.
    + cbn [cumprod_from xmul]. cbn [expanding_max_from zip_with].
      assert (Hc : (0 < a * q)%Q) by nra.
      destruct Hm as [-> | (mm & -> & Hmm)].
      * constructor.
        -- right. split; [discriminate |]. cbn [xsub xneg xadd xdiv].
           replace (Qeqb (a * q) 0) with false by (symmetry; apply Qeqb_neq; lra).
           cbn [xmul]. eexists. split; [reflexivity |].
           assert (Hz : ((a * q + - (a * q)) / (a * q) * 100 == 0)%Q)
             by (field; lra).
           rewrite Hz. split; [reflexivity | discriminate].
        -- apply IH; [exact Hc |]. right. eauto.
      * unfold xgt. cbn [xlt].
        destruct (Qltb mm (a * q)) eqn:E.
        -- constructor.
           ++ right. split; [discriminate |]. cbn [xsub xneg xadd xdiv].
              replace (Qeqb (a * q) 0) with false by (symmetry; apply Qeqb_neq; lra).
              cbn [xmul]. eexists. split; [reflexivity |].
              assert (Hz : ((a * q + - (a * q)) / (a * q) * 100 == 0)%Q)
                by (field; lra).
              rewrite Hz. split; [reflexivity | discriminate].
           ++ apply IH; [exact Hc |]. right. eauto.
        -- apply Qltb_ge in E. constructor.
           ++ right. split; [discriminate |]. cbn [xsub xneg xadd xdiv].
              replace (Qeqb mm 0) with false by (symmetry; apply Qeqb_neq; lra).
              cbn [xmul]. eexists. split; [reflexivity |].
              assert (Hr : (0 < (a * q) / mm)%Q) by (apply Qlt_shift_div_l; lra).
              assert (Hr1 : ((a * q) / mm <= 1)%Q) by (apply Qle_shift_div_r; lra).
              assert (Hz : ((a * q + - mm) / mm * 100 == ((a * q) / mm - 1) * 100)%Q)
                by (field; lra).
              rewrite Hz. split; lra.
           ++ apply IH; [exact Hc |]. right. eauto.
Qed.

Lemma pd_min_cells (s ys : list xnum) :
  Forall2 (fun x y => (x = NaN /\ y = NaN)
                      \/ (x <> NaN /\ exists d, y = Fin d /\ (- (100) < d)%Q /\ (d <= 0)%Q))
    s ys ->
  (exists k q, s !! k = Some (Fin q)) ->
  exists d, pd_min ys = Fin d /\ (- (100) < d)%Q /\ (d <= 0)%Q.
Proof.
  intros H2 (k & q & Hk).
  assert (Hall : Forall (fun y => exists d, y = Fin d /\ (- (100) < d)%Q /\ (d <= 0)%Q)
                   (dropna ys)).
  { clear k q Hk. induction H2 as [| x y s ys Hxy _ IH]; [constructor |].
    unfold dropna in *. cbn [List.filter].
    destruct Hxy as [[_ ->] | [_ (d & -> & Hd)]]; [exact IH |].
    constructor; [eauto | exact IH]. }
  assert (Hne : dropna ys <> []).
  { clear Hall. revert k Hk. induction H2 as [| x y s ys Hxy _ IH]; intros k Hk.
    - rewrite lookup_nil in Hk. discriminate.
    - unfold dropna in *. cbn [List.filter].
      destruct k as [| k].
      + cbn in Hk. injection Hk as ->.
        destruct Hxy as [[Hx _] | [_ (d & -> & _)]]; [discriminate Hx | discriminate].
      + destruct y; try discriminate. apply (IH k). exact Hk. }
  unfold pd_min. destruct (dropna ys) as [| y0 rest]; [congruence |].
  apply Forall_cons_1 in Hall. destruct Hall as [(d0 & -> & Hd0) Hrest].
  clear Hne. revert d0 Hd0. induction Hrest as [| y rest (d & -> & Hd) _ IH];
    intros d0 Hd0; cbn [fold_left].
  - eauto.
  - cbn [xlt]. destruct (Qltb d d0); apply IH; assumption.
Qed.

(** X25.  The maximum drawdown of positive prices is a percentage
    between -100 (excluded) and 0.  For a Close column of finite positive
    prices with at least two rows the drawdown returned is finite, never
    positive and above -100; with fewer than two rows it is NaN. *)
Theorem max_drawdown_range (df : DataFrame) (closes : list Q)
    (Hc : columns df !! "Close" = Some (map Fin closes))
    (Hpos : Forall (fun q => (0 < q)%Q) closes) :
  if (length closes <? 2)%nat
  then _calculate_max_drawdown df = Ok NaN
  else exists d, _calculate_max_drawdown df = Ok (Fin d)
                 /\ (- (100) < d)%Q /\ (d <= 0)%Q.
Proof.
  unfold _calculate_max_drawdown, column. rewrite Hc. cbn [bind].
  destruct (length closes <? 2)%nat eqn:E.
  - apply Nat.ltb_lt in E. destruct closes as [| q [| q' rest]];
      [reflexivity | reflexivity | simpl in E; lia].
  - apply Nat.ltb_ge in E.
    destruct (growth_cells closes Hpos) as (Hs & _ & H1).
    destruct (H1 E) as (q & Hq).
    pose proof (drawdown_cells _ 1 None Hs ltac:(reflexivity) (or_introl eq_refl))
      as Hd.
    destruct (pd_min_cells _ _ Hd (ex_intro _ 1%nat (ex_intro _ q Hq)))
      as (d & Hmin & Hrange).
    exists d. split; [| exact Hrange].
    unfold cumprod, expanding_max. rewrite Hmin. reflexivity.
Qed.

Lemma max_drawdown_range_witness :
  exists d, _calculate_max_drawdown (close_frame [100; 110; 99])%Q = Ok (Fin d)
            /\ (- (100) < d)%Q /\ (d <= 0)%Q.
Proof.
  apply (max_drawdown_range (close_frame [100; 110; 99]%Q) [100; 110; 99]%Q);
    [reflexivity | repeat constructor].
Defined.

End RiskAnalyzerMetricsFacts.

(** ** Risk analyzer: the risk of a portfolio *)

Section RiskAnalyzerPortfolioFacts.
Import RiskAnalyzerPortfolio.
Local Open Scope list_scope.
Local Open Scope Q_scope.

Lemma py_map_div_by (t : Q) (f : holding -> Q) (xs : list holding) :
  ~ t == 0 ->
  py_map (fun p => py_div (f p) t) xs = Val (map (fun p => f p / t) xs).
Proof.
  intros Ht. induction xs as [| x rest IH]; [reflexivity |].
  cbn [py_map map]. unfold py_div at 1.
  replace (Qeqb t 0) with false by (symmetry; apply Qeqb_neq; exact Ht).
  cbn [py_bind]. rewrite IH. reflexivity.
Qed.

(** X26.  The risk of a portfolio.  An empty portfolio gets beta 1 with
    Sharpe ratio 0 and volatility 0.  A portfolio of holdings bought at a
    positive value gets a positive beta and, whatever it holds, the
    constant Sharpe ratio 0.5 and volatility 15.  A non-empty portfolio
    of holdings without value raises ZeroDivisionError. *)
Theorem portfolio_risk_constants (portfolio : list holding)
    (Hne : portfolio <> []) :
  calculate_portfolio_risk []
  = Val {| beta := 1; portfolio_sharpe_ratio := 0; portfolio_volatility := 0 |}
  /\ (Forall (fun p => 0 < held_shares p * purchase_price p) portfolio ->
      exists r,
        calculate_portfolio_risk portfolio = Val r
        /\ 0 < beta r
        /\ portfolio_sharpe_ratio r = 5 # 10
        /\ portfolio_volatility r = 15)
  /\ (Forall (fun p => held_shares p * purchase_price p == 0) portfolio ->
      calculate_portfolio_risk portfolio = ZeroDivisionError).
Proof.
  split; [reflexivity |].
  destruct portfolio as [| h rest]; [contradiction |].
  unfold calculate_portfolio_risk. cbv iota.
  set (pf := h :: rest) in *.
  set (value := fun p => held_shares p * purchase_price p).
  change (map (fun p => held_shares p * purchase_price p) pf) with (map value pf).
  set (total := py_sum (map value pf)).
  change (py_map (fun p => py_div (held_shares p * purchase_price p) total) pf)
    with (py_map (fun p => py_div (value p) total) pf).
  split; intros Hall.
  - assert (Hpos : 0 < total).
    { subst total pf. cbn [map]. rewrite py_sum_cons.
      inversion Hall as [| x xs Hx Hxs]; subst.
      assert (0 <= py_sum (map value rest)).
      { apply py_sum_nonneg. apply Forall_forall. intros y Hy.
        apply list_elem_of_In, in_map_iff in Hy. destruct Hy as (p & <- & Hp).
        rewrite Forall_forall in Hxs.
        specialize (Hxs p (proj2 (list_elem_of_In _ _) Hp)). simpl in Hxs.
        unfold value. lra. }
      unfold value at 1. lra. }
    rewrite (py_map_div_by total value pf) by lra. cbn [py_bind].
    eexists. split; [reflexivity |].
    cbn [beta portfolio_sharpe_ratio portfolio_volatility].
    split; [| split; reflexivity].
    rewrite map_map. subst pf. cbn [map]. rewrite py_sum_cons.
    inversion Hall as [| x xs Hx Hxs]; subst.
    assert (0 < value h / total * 1).
    { assert (0 < value h / total) by (apply Qlt_shift_div_l; unfold value; lra).
      lra. }
    assert (0 <= py_sum (map (fun p => value p / total * 1) rest)).
    { apply py_sum_nonneg. apply Forall_forall. intros y Hy.
      apply list_elem_of_In, in_map_iff in Hy. destruct Hy as (p & <- & Hp).
      rewrite Forall_forall in Hxs.
      specialize (Hxs p (proj2 (list_elem_of_In _ _) Hp)). simpl in Hxs.
      assert (0 < value p / total) by (apply Qlt_shift_div_l; unfold value; lra).
      lra. }
    lra.
  - assert (Hz : total == 0).
    { subst total. clear -Hall. induction Hall as [| x xs Hx _ IH].
      - reflexivity.
      - cbn [map]. rewrite py_sum_cons, IH. unfold value. lra. }
    subst pf. cbn [py_map]. unfold py_div at 1.
    replace (Qeqb total 0) with true by (symmetry; apply Qeqb_eq; exact Hz).
    reflexivity.
Qed.

Lemma portfolio_risk_constants_witness :
  exists r,
    calculate_portfolio_risk
      [ {| held_shares := 10; purchase_price := 150 |};
        {| held_shares := 5; purchase_price := 300 |} ] = Val r
    /\ 0 < beta r
    /\ portfolio_sharpe_ratio r = 5 # 10
    /\ portfolio_volatility r = 15.
Proof.
  destruct (portfolio_risk_constants
              [ {| held_shares := 10; purchase_price := 150 |};
                {| held_shares := 5; purchase_price := 300 |} ]) as (_ & Hpos & _);
    [discriminate |].
  apply Hpos. repeat constructor.
Defined.

End RiskAnalyzerPortfolioFacts.
